(** * IPGuardian: the IPRightsStore marketplace contract and its client

    A shallow embedding of [IPRightsStore.sol] (the on-chain registry of IP
    items, purchases and rentals), of the [ContractService] class that wraps
    it, of the calls the marketplace and dashboard pages make through it and
    of the file storage helpers, together with the properties the
    specification states about them and further properties of the code. *)

From Stdlib Require Import ZArith Lia Bool.
From stdpp Require Import base option list gmap strings pretty.

Local Open Scope Z_scope.

(** ** Machine integers and failures *)

(** [uint256] values are integers in [0, 2^256); [address] values are
    integers in [0, 2^160). *)
Definition MAX_UINT256 : Z := 2 ^ 256 - 1.
Definition MAX_ADDRESS : Z := 2 ^ 160 - 1.

Definition is_uint256 (x : Z) : Prop := 0 <= x <= MAX_UINT256.
Definition is_address (x : Z) : Prop := 0 <= x <= MAX_ADDRESS.

(** [1 days] and [365 days] in seconds. *)
Definition ONE_DAY : Z := 86400.
Definition DAYS_365 : Z := 365 * 86400.

(** How a call can abort: [require] with a reason string, a compiler
    inserted panic (0x11 arithmetic overflow, 0x32 array index out of
    bounds), or a revert that carries no data (a failed [transfer], ether
    sent to a function that is not [payable]). *)
Inductive Failure : Type :=
  | Revert (reason : string)
  | Panic (code : Z)
  | RevertNoData.

Inductive result (A : Type) : Type :=
  | Ok (a : A)
  | Err (f : Failure).
Arguments Ok {A} a.
Arguments Err {A} f.

Definition PANIC_OVERFLOW : Z := 17.
Definition PANIC_INDEX : Z := 50.

(** Solidity 0.8 arithmetic is checked: overflow and underflow panic. *)
Definition checked_add (a b : Z) : result Z :=
  if a + b <=? MAX_UINT256 then Ok (a + b) else Err (Panic PANIC_OVERFLOW).
Definition checked_sub (a b : Z) : result Z :=
  if b <=? a then Ok (a - b) else Err (Panic PANIC_OVERFLOW).
Definition checked_mul (a b : Z) : result Z :=
  if a * b <=? MAX_UINT256 then Ok (a * b) else Err (Panic PANIC_OVERFLOW).

(** Inside an [unchecked] block the result wraps around. *)
Definition wrapping_add (a b : Z) : Z := (a + b) mod 2 ^ 256.

(** ** Storage layout *)

Record IPItem : Type := mkIPItem {
  item_itemId : Z;
  item_title : string;
  item_description : string;
  item_blobId : string;
  item_owner : Z;
  item_price : Z;
  item_rentalPrice : Z;
  item_isActive : bool;
  item_createdAt : Z;
  item_totalRentals : Z;
  item_totalRevenue : Z
}.

Record Rental : Type := mkRental {
  rental_rentalId : Z;
  rental_itemId : Z;
  rental_renter : Z;
  rental_startTime : Z;
  rental_endTime : Z;
  rental_amountPaid : Z;
  rental_isActive : bool
}.

Record OwnershipRecord : Type := mkOwnershipRecord {
  rec_owner : Z;
  rec_timestamp : Z;
  rec_price : Z
}.

(** What a mapping returns for a key that was never written. *)
Definition zero_item : IPItem :=
  mkIPItem 0 EmptyString EmptyString EmptyString 0 0 0 false 0 0 0.
Definition zero_rental : Rental := mkRental 0 0 0 0 0 0 false.

Inductive Event : Type :=
  | ItemCreated (itemId : Z) (title blobId : string) (owner price rentalPrice : Z)
  | ItemPurchased (itemId previousOwner newOwner price : Z)
  | ItemRented (rentalId itemId renter startTime endTime amountPaid : Z)
  | ItemUpdated (itemId newPrice newRentalPrice : Z)
  | ItemDeactivated (itemId : Z)
  | OwnershipTransferred (previousOwner newOwner : Z).

(** What a transaction leaves on the chain besides storage: the events it
    emitted and the ether it sent out, in program order. *)
Inductive Effect : Type :=
  | Emit (e : Event)
  | Transfer (recipient amount : Z).

(** [ReentrancyGuard] status values. *)
Definition NOT_ENTERED : Z := 1.
Definition ENTERED : Z := 2.

Record State : Type := mkState {
  _status : Z;
  _owner : Z;
  _itemIds : Z;
  _rentalIds : Z;
  items : gmap Z IPItem;
  rentals : gmap Z Rental;
  ownershipHistory : gmap Z (list OwnershipRecord);
  userItems : gmap Z (list Z);
  userRentals : gmap Z (list Z);
  hasRented : gmap (Z * Z) bool;
  itemRenters : gmap Z (list Z);
  balance : Z;
  journal : list Effect
}.

(** Reading a mapping: absent keys read as the zero value of the type. *)
Definition items_at (s : State) (id : Z) : IPItem := default zero_item (items s !! id).
Definition rentals_at (s : State) (id : Z) : Rental := default zero_rental (rentals s !! id).
Definition history_at (s : State) (id : Z) : list OwnershipRecord :=
  default [] (ownershipHistory s !! id).
Definition userItems_at (s : State) (a : Z) : list Z := default [] (userItems s !! a).
Definition userRentals_at (s : State) (a : Z) : list Z := default [] (userRentals s !! a).
Definition hasRented_at (s : State) (id a : Z) : bool := default false (hasRented s !! (id, a)).
Definition itemRenters_at (s : State) (id : Z) : list Z := default [] (itemRenters s !! id).

(** Field updates. *)
Definition set_status (v : Z) (s : State) : State :=
  mkState v (_owner s) (_itemIds s) (_rentalIds s) (items s) (rentals s)
    (ownershipHistory s) (userItems s) (userRentals s) (hasRented s)
    (itemRenters s) (balance s) (journal s).
Definition set_owner (v : Z) (s : State) : State :=
  mkState (_status s) v (_itemIds s) (_rentalIds s) (items s) (rentals s)
    (ownershipHistory s) (userItems s) (userRentals s) (hasRented s)
    (itemRenters s) (balance s) (journal s).
Definition set_itemIds (v : Z) (s : State) : State :=
  mkState (_status s) (_owner s) v (_rentalIds s) (items s) (rentals s)
    (ownershipHistory s) (userItems s) (userRentals s) (hasRented s)
    (itemRenters s) (balance s) (journal s).
Definition set_rentalIds (v : Z) (s : State) : State :=
  mkState (_status s) (_owner s) (_itemIds s) v (items s) (rentals s)
    (ownershipHistory s) (userItems s) (userRentals s) (hasRented s)
    (itemRenters s) (balance s) (journal s).
Definition set_items (v : gmap Z IPItem) (s : State) : State :=
  mkState (_status s) (_owner s) (_itemIds s) (_rentalIds s) v (rentals s)
    (ownershipHistory s) (userItems s) (userRentals s) (hasRented s)
    (itemRenters s) (balance s) (journal s).
Definition set_rentals (v : gmap Z Rental) (s : State) : State :=
  mkState (_status s) (_owner s) (_itemIds s) (_rentalIds s) (items s) v
    (ownershipHistory s) (userItems s) (userRentals s) (hasRented s)
    (itemRenters s) (balance s) (journal s).
Definition set_ownershipHistory (v : gmap Z (list OwnershipRecord)) (s : State) : State :=
  mkState (_status s) (_owner s) (_itemIds s) (_rentalIds s) (items s) (rentals s)
    v (userItems s) (userRentals s) (hasRented s)
    (itemRenters s) (balance s) (journal s).
Definition set_userItems (v : gmap Z (list Z)) (s : State) : State :=
  mkState (_status s) (_owner s) (_itemIds s) (_rentalIds s) (items s) (rentals s)
    (ownershipHistory s) v (userRentals s) (hasRented s)
    (itemRenters s) (balance s) (journal s).
Definition set_userRentals (v : gmap Z (list Z)) (s : State) : State :=
  mkState (_status s) (_owner s) (_itemIds s) (_rentalIds s) (items s) (rentals s)
    (ownershipHistory s) (userItems s) v (hasRented s)
    (itemRenters s) (balance s) (journal s).
Definition set_hasRented (v : gmap (Z * Z) bool) (s : State) : State :=
  mkState (_status s) (_owner s) (_itemIds s) (_rentalIds s) (items s) (rentals s)
    (ownershipHistory s) (userItems s) (userRentals s) v
    (itemRenters s) (balance s) (journal s).
Definition set_itemRenters (v : gmap Z (list Z)) (s : State) : State :=
  mkState (_status s) (_owner s) (_itemIds s) (_rentalIds s) (items s) (rentals s)
    (ownershipHistory s) (userItems s) (userRentals s) (hasRented s)
    v (balance s) (journal s).
Definition set_balance (v : Z) (s : State) : State :=
  mkState (_status s) (_owner s) (_itemIds s) (_rentalIds s) (items s) (rentals s)
    (ownershipHistory s) (userItems s) (userRentals s) (hasRented s)
    (itemRenters s) v (journal s).
Definition set_journal (v : list Effect) (s : State) : State :=
  mkState (_status s) (_owner s) (_itemIds s) (_rentalIds s) (items s) (rentals s)
    (ownershipHistory s) (userItems s) (userRentals s) (hasRented s)
    (itemRenters s) (balance s) v.

(** Writes to one field of a stored struct. *)
Definition item_with_owner (v : Z) (it : IPItem) : IPItem :=
  mkIPItem (item_itemId it) (item_title it) (item_description it) (item_blobId it)
    v (item_price it) (item_rentalPrice it) (item_isActive it)
    (item_createdAt it) (item_totalRentals it) (item_totalRevenue it).
Definition item_with_prices (p rp : Z) (it : IPItem) : IPItem :=
  mkIPItem (item_itemId it) (item_title it) (item_description it) (item_blobId it)
    (item_owner it) p rp (item_isActive it)
    (item_createdAt it) (item_totalRentals it) (item_totalRevenue it).
Definition item_with_isActive (v : bool) (it : IPItem) : IPItem :=
  mkIPItem (item_itemId it) (item_title it) (item_description it) (item_blobId it)
    (item_owner it) (item_price it) (item_rentalPrice it) v
    (item_createdAt it) (item_totalRentals it) (item_totalRevenue it).
Definition item_with_totalRentals (v : Z) (it : IPItem) : IPItem :=
  mkIPItem (item_itemId it) (item_title it) (item_description it) (item_blobId it)
    (item_owner it) (item_price it) (item_rentalPrice it) (item_isActive it)
    (item_createdAt it) v (item_totalRevenue it).
Definition item_with_totalRevenue (v : Z) (it : IPItem) : IPItem :=
  mkIPItem (item_itemId it) (item_title it) (item_description it) (item_blobId it)
    (item_owner it) (item_price it) (item_rentalPrice it) (item_isActive it)
    (item_createdAt it) (item_totalRentals it) v.

(** ** Execution context and the contract monad *)

(** The transaction context. [accepts_ether a] tells whether a [transfer]
    to [a] goes through (an externally owned account always accepts; a
    contract may refuse in its receive function). *)
Record Env : Type := mkEnv {
  msg_sender : Z;
  msg_value : Z;
  block_timestamp : Z;
  accepts_ether : Z -> bool
}.

(** A contract computation reads and writes storage and may abort; an abort
    discards every write made so far. *)
Definition M (A : Type) : Type := State -> result (A * State).

Definition ret {A} (a : A) : M A := fun s => Ok (a, s).
Definition bind {A B} (m : M A) (f : A -> M B) : M B :=
  fun s => match m s with
           | Ok (a, s1) => f a s1
           | Err e => Err e
           end.
Definition fail {A} (e : Failure) : M A := fun _ => Err e.
Definition get : M State := fun s => Ok (s, s).
Definition modify (f : State -> State) : M unit := fun s => Ok (tt, f s).
Definition lift {A} (r : result A) : M A :=
  fun s => match r with Ok a => Ok (a, s) | Err e => Err e end.

Notation "x <- m ;; k" := (bind m (fun x => k))
  (at level 100, m at level 99, right associativity).
Notation "m ;;; k" := (bind m (fun _ => k))
  (at level 100, right associativity).

Definition require (c : bool) (reason : string) : M unit :=
  if c then ret tt else fail (Revert reason).

Definition emit (e : Event) : M unit :=
  modify (fun s => set_journal (journal s ++ [Emit e]) s).

(** [payable(to).transfer(amount)]: reverts when the contract holds less
    than [amount] or the recipient refuses. *)
Definition transfer (env : Env) (to amount : Z) : M unit :=
  s <- get ;;
  if (amount <=? balance s) && accepts_ether env to
  then modify (fun s => set_journal (journal s ++ [Transfer to amount])
                          (set_balance (balance s - amount) s))
  else fail RevertNoData.

(** Entry of a [payable] function: the value sent is credited first. *)
Definition payable (env : Env) : M unit :=
  modify (fun s => set_balance (balance s + msg_value env) s).

(** Entry of a function that is not [payable]: value sent makes it revert. *)
Definition nonpayable (env : Env) : M unit :=
  if msg_value env =? 0 then ret tt else fail RevertNoData.

(** ** OpenZeppelin pieces the contract inherits or uses *)

(** [Counters.increment] adds one inside an [unchecked] block. *)
Definition Counters_increment (v : Z) : Z := wrapping_add v 1.

Definition nonReentrant {A} (body : M A) : M A :=
  s <- get ;;
  require (negb (_status s =? ENTERED)) "ReentrancyGuard: reentrant call" ;;;
  modify (set_status ENTERED) ;;;
  r <- body ;;
  modify (set_status NOT_ENTERED) ;;;
  ret r.

Definition onlyOwner {A} (env : Env) (body : M A) : M A :=
  s <- get ;;
  require (_owner s =? msg_sender env) "Ownable: caller is not the owner" ;;;
  body.

(** ** Modifiers of the contract *)

Definition itemExists {A} (_itemId : Z) (body : M A) : M A :=
  s <- get ;;
  require (_itemId <=? _itemIds s) "Item does not exist" ;;;
  require (item_isActive (items_at s _itemId)) "Item is not active" ;;;
  body.

Definition onlyItemOwner {A} (env : Env) (_itemId : Z) (body : M A) : M A :=
  s <- get ;;
  require (item_owner (items_at s _itemId) =? msg_sender env) "Not the item owner" ;;;
  body.

Definition validRentalPeriod {A} (env : Env) (_startTime _endTime : Z) (body : M A) : M A :=
  require (block_timestamp env <=? _startTime) "Start time must be in the future" ;;;
  require (_startTime <? _endTime) "End time must be after start time" ;;;
  limit <- lift (checked_add (block_timestamp env) DAYS_365) ;;
  require (_endTime <=? limit) "Rental period too long" ;;;
  body.

(** ** State-changing functions *)

Definition createItem (env : Env) (_title _description _blobId : string)
    (_price _rentalPrice : Z) : M Z :=
  nonpayable env ;;;
  require (0 <? Z.of_nat (String.length _title)) "Title cannot be empty" ;;;
  require (0 <? Z.of_nat (String.length _blobId)) "Blob ID cannot be empty" ;;;
  require ((0 <? _price) || (0 <? _rentalPrice))
    "Must set either purchase or rental price" ;;;
  modify (fun s => set_itemIds (Counters_increment (_itemIds s)) s) ;;;
  s <- get ;;
  let newItemId := _itemIds s in
  modify (fun s => set_items (<[newItemId :=
      mkIPItem newItemId _title _description _blobId (msg_sender env)
        _price _rentalPrice true (block_timestamp env) 0 0]> (items s)) s) ;;;
  modify (fun s => set_userItems (<[msg_sender env :=
      userItems_at s (msg_sender env) ++ [newItemId]]> (userItems s)) s) ;;;
  modify (fun s => set_ownershipHistory (<[newItemId :=
      history_at s newItemId ++
        [mkOwnershipRecord (msg_sender env) (block_timestamp env) 0]]>
      (ownershipHistory s)) s) ;;;
  emit (ItemCreated newItemId _title _blobId (msg_sender env) _price _rentalPrice) ;;;
  ret newItemId.

(** [userItems[a].push(id)] and friends. *)
Definition push_userItems (a id : Z) : M unit :=
  modify (fun s => set_userItems (<[a := userItems_at s a ++ [id]]> (userItems s)) s).
Definition push_userRentals (a id : Z) : M unit :=
  modify (fun s => set_userRentals (<[a := userRentals_at s a ++ [id]]> (userRentals s)) s).
Definition push_ownershipHistory (id : Z) (r : OwnershipRecord) : M unit :=
  modify (fun s => set_ownershipHistory
                     (<[id := history_at s id ++ [r]]> (ownershipHistory s)) s).
Definition push_itemRenters (id a : Z) : M unit :=
  modify (fun s => set_itemRenters (<[id := itemRenters_at s id ++ [a]]> (itemRenters s)) s).

(** A write through the storage pointer [item = items[_itemId]]. *)
Definition update_item (_itemId : Z) (f : IPItem -> IPItem) : M unit :=
  modify (fun s => set_items (<[_itemId := f (items_at s _itemId)]> (items s)) s).

(** A read through the storage pointer. *)
Definition read_item (_itemId : Z) : M IPItem :=
  s <- get ;; ret (items_at s _itemId).

Definition when (c : bool) (m : M unit) : M unit := if c then m else ret tt.

Definition purchaseItem (env : Env) (_itemId : Z) : M unit :=
  payable env ;;;
  nonReentrant (itemExists _itemId (
    item <- read_item _itemId ;;
    require (0 <? item_price item) "Item is not for sale" ;;;
    require (item_price item <=? msg_value env) "Insufficient payment" ;;;
    require (negb (item_owner item =? msg_sender env)) "Cannot purchase your own item" ;;;
    let previousOwner := item_owner item in
    update_item _itemId (item_with_owner (msg_sender env)) ;;;
    push_userItems (msg_sender env) _itemId ;;;
    item <- read_item _itemId ;;
    push_ownershipHistory _itemId
      (mkOwnershipRecord (msg_sender env) (block_timestamp env) (item_price item)) ;;;
    when (negb (previousOwner =? 0)) (transfer env previousOwner (item_price item)) ;;;
    when (item_price item <? msg_value env)
      (excess <- lift (checked_sub (msg_value env) (item_price item)) ;;
       transfer env (msg_sender env) excess) ;;;
    emit (ItemPurchased _itemId previousOwner (msg_sender env) (item_price item)))).

Definition rentItem (env : Env) (_itemId _startTime _endTime : Z) : M unit :=
  payable env ;;;
  nonReentrant (itemExists _itemId (validRentalPeriod env _startTime _endTime (
    item <- read_item _itemId ;;
    require (0 <? item_rentalPrice item) "Item is not available for rent" ;;;
    require (negb (item_owner item =? msg_sender env)) "Cannot rent your own item" ;;;
    rentalDuration <- lift (checked_sub _endTime _startTime) ;;
    product <- lift (checked_mul rentalDuration (item_rentalPrice item)) ;;
    let totalCost := product / ONE_DAY in
    require (totalCost <=? msg_value env) "Insufficient payment for rental" ;;;
    modify (fun s => set_rentalIds (Counters_increment (_rentalIds s)) s) ;;;
    s <- get ;;
    let newRentalId := _rentalIds s in
    modify (fun s => set_rentals (<[newRentalId :=
        mkRental newRentalId _itemId (msg_sender env) _startTime _endTime totalCost true]>
        (rentals s)) s) ;;;
    item <- read_item _itemId ;;
    n <- lift (checked_add (item_totalRentals item) 1) ;;
    update_item _itemId (item_with_totalRentals n) ;;;
    item <- read_item _itemId ;;
    r <- lift (checked_add (item_totalRevenue item) totalCost) ;;
    update_item _itemId (item_with_totalRevenue r) ;;;
    push_userRentals (msg_sender env) newRentalId ;;;
    s <- get ;;
    when (negb (hasRented_at s _itemId (msg_sender env)))
      (modify (fun s => set_hasRented
                          (<[(_itemId, msg_sender env) := true]> (hasRented s)) s) ;;;
       push_itemRenters _itemId (msg_sender env)) ;;;
    item <- read_item _itemId ;;
    transfer env (item_owner item) totalCost ;;;
    when (totalCost <? msg_value env)
      (excess <- lift (checked_sub (msg_value env) totalCost) ;;
       transfer env (msg_sender env) excess) ;;;
    emit (ItemRented newRentalId _itemId (msg_sender env) _startTime _endTime totalCost)))).

Definition updateItemPrices (env : Env) (_itemId _newPrice _newRentalPrice : Z) : M unit :=
  nonpayable env ;;;
  onlyItemOwner env _itemId (itemExists _itemId (
    require ((0 <? _newPrice) || (0 <? _newRentalPrice))
      "Must set either purchase or rental price" ;;;
    update_item _itemId (item_with_prices _newPrice _newRentalPrice) ;;;
    emit (ItemUpdated _itemId _newPrice _newRentalPrice))).

Definition deactivateItem (env : Env) (_itemId : Z) : M unit :=
  nonpayable env ;;;
  onlyItemOwner env _itemId (itemExists _itemId (
    update_item _itemId (item_with_isActive false) ;;;
    emit (ItemDeactivated _itemId))).

Definition emergencyWithdraw (env : Env) : M unit :=
  nonpayable env ;;;
  onlyOwner env (
    s <- get ;;
    require (0 <? balance s) "No balance to withdraw" ;;;
    transfer env (_owner s) (balance s)).

(** Inherited from [Ownable]. *)
Definition transferOwnership (env : Env) (newOwner : Z) : M unit :=
  nonpayable env ;;;
  onlyOwner env (
    require (negb (newOwner =? 0)) "Ownable: new owner is the zero address" ;;;
    s <- get ;;
    modify (set_owner newOwner) ;;;
    emit (OwnershipTransferred (_owner s) newOwner)).

Definition renounceOwnership (env : Env) : M unit :=
  nonpayable env ;;;
  onlyOwner env (
    s <- get ;;
    modify (set_owner 0) ;;;
    emit (OwnershipTransferred (_owner s) 0)).

(** Storage right after deployment; the constructor hands [Ownable] the
    deployer. *)
Definition deployed (deployer : Z) : State :=
  mkState NOT_ENTERED deployer 0 0 ∅ ∅ ∅ ∅ ∅ ∅ ∅ 0
    [Emit (OwnershipTransferred 0 deployer)].

(** ** View functions *)

Definition getItem (s : State) (_itemId : Z) : result IPItem :=
  if _itemId <=? _itemIds s then Ok (items_at s _itemId)
  else Err (Revert "Item does not exist").

Definition getRental (s : State) (_rentalId : Z) : result Rental :=
  if _rentalId <=? _rentalIds s then Ok (rentals_at s _rentalId)
  else Err (Revert "Rental does not exist").

Definition getOwnershipHistory (s : State) (_itemId : Z) : result (list OwnershipRecord) :=
  if _itemId <=? _itemIds s then Ok (history_at s _itemId)
  else Err (Revert "Item does not exist").

Definition getItemRenters (s : State) (_itemId : Z) : result (list Z) :=
  if _itemId <=? _itemIds s then Ok (itemRenters_at s _itemId)
  else Err (Revert "Item does not exist").

Definition getUserItems (s : State) (_user : Z) : list Z := userItems_at s _user.
Definition getUserRentals (s : State) (_user : Z) : list Z := userRentals_at s _user.
Definition getTotalItems (s : State) : Z := _itemIds s.
Definition getTotalRentals (s : State) : Z := _rentalIds s.

(** The condition tested on each rental of the scan in [hasActiveRental]. *)
Definition rental_matches (now _itemId : Z) (rental : Rental) : bool :=
  (rental_itemId rental =? _itemId) && rental_isActive rental &&
  (rental_startTime rental <=? now) && (now <=? rental_endTime rental).

Fixpoint hasActiveRental_scan (s : State) (now _itemId : Z) (userRentalIds : list Z) : bool :=
  match userRentalIds with
  | [] => false
  | rid :: rest =>
      if rental_matches now _itemId (rentals_at s rid) then true
      else hasActiveRental_scan s now _itemId rest
  end.

Definition hasActiveRental (s : State) (now _itemId _user : Z) : bool :=
  hasActiveRental_scan s now _itemId (userRentals_at s _user).

(** [a[i] = x] on a memory array: an index past the end panics. *)
Definition array_store {A} (a : list A) (i : Z) (x : A) : result (list A) :=
  if i <? Z.of_nat (length a) then Ok (<[Z.to_nat i := x]> a)
  else Err (Panic PANIC_INDEX).

Definition array_load {A} (a : list A) (i : Z) : result A :=
  match a !! Z.to_nat i with
  | Some x => Ok x
  | None => Err (Panic PANIC_INDEX)
  end.

Definition rbind {A B} (r : result A) (f : A -> result B) : result B :=
  match r with Ok a => f a | Err e => Err e end.

(** First loop of [getActiveItems]: [trips] iterations starting at [i],
    each ending with the checked [i++]. *)
Fixpoint collect_active (s : State) (trips : nat) (i : Z)
    (activeItems : list IPItem) (count : Z) : result (list IPItem * Z) :=
  match trips with
  | O => Ok (activeItems, count)
  | S trips' =>
      rbind (if item_isActive (items_at s i)
             then rbind (array_store activeItems count (items_at s i)) (fun a =>
                  rbind (checked_add count 1) (fun c => Ok (a, c)))
             else Ok (activeItems, count)) (fun '(a, c) =>
      rbind (checked_add i 1) (fun i' =>
      collect_active s trips' i' a c))
  end.

(** Second loop: copy the first [count] slots into the result array. *)
Fixpoint copy_prefix (trips : nat) (i : Z) (activeItems res : list IPItem)
    : result (list IPItem) :=
  match trips with
  | O => Ok res
  | S trips' =>
      rbind (array_load activeItems i) (fun x =>
      rbind (array_store res i x) (fun res' =>
      rbind (checked_add i 1) (fun i' =>
      copy_prefix trips' i' activeItems res')))
  end.

(** The loop [for (i = _offset + 1; i <= end; i++)] runs [end - _offset]
    times, the loop [for (i = 0; i < count; i++)] runs [count] times. *)
Definition getActiveItems (s : State) (_offset _limit : Z) : result (list IPItem) :=
  let totalItems := _itemIds s in
  if negb (_offset <? totalItems) then Err (Revert "Offset out of bounds")
  else
    rbind (checked_add _offset _limit) (fun end0 =>
    let end_ := if totalItems <? end0 then totalItems else end0 in
    rbind (checked_sub end_ _offset) (fun len =>
    let activeItems := replicate (Z.to_nat len) zero_item in
    rbind (checked_add _offset 1) (fun i0 =>
    rbind (collect_active s (Z.to_nat (end_ - _offset)) i0 activeItems 0) (fun '(a, count) =>
    copy_prefix (Z.to_nat count) 0 a (replicate (Z.to_nat count) zero_item))))).

(** ** Transactions *)

Inductive Call : Type :=
  | CreateItem (_title _description _blobId : string) (_price _rentalPrice : Z)
  | PurchaseItem (_itemId : Z)
  | RentItem (_itemId _startTime _endTime : Z)
  | UpdateItemPrices (_itemId _newPrice _newRentalPrice : Z)
  | DeactivateItem (_itemId : Z)
  | EmergencyWithdraw
  | TransferOwnership (newOwner : Z)
  | RenounceOwnership.

Definition discard {A} (m : M A) : M unit := m ;;; ret tt.

Definition dispatch (env : Env) (c : Call) : M unit :=
  match c with
  | CreateItem t d b p rp => discard (createItem env t d b p rp)
  | PurchaseItem id => purchaseItem env id
  | RentItem id st en => rentItem env id st en
  | UpdateItemPrices id p rp => updateItemPrices env id p rp
  | DeactivateItem id => deactivateItem env id
  | EmergencyWithdraw => emergencyWithdraw env
  | TransferOwnership a => transferOwnership env a
  | RenounceOwnership => renounceOwnership env
  end.

(** Storage after the call, or the failure that aborted it. *)
Definition run (env : Env) (c : Call) (s : State) : result State :=
  match dispatch env c s with
  | Ok (_, s') => Ok s'
  | Err e => Err e
  end.

(** What the chain holds after the transaction: a failed call leaves the
    storage it found. *)
Definition transact (env : Env) (c : Call) (s : State) : State :=
  match run env c s with
  | Ok s' => s'
  | Err _ => s
  end.

(** Arguments and context as the ABI and the chain deliver them. *)
Definition valid_env (env : Env) : Prop :=
  is_address (msg_sender env) /\ is_uint256 (msg_value env) /\
  is_uint256 (block_timestamp env).

Definition valid_call (c : Call) : Prop :=
  match c with
  | CreateItem _ _ _ p rp => is_uint256 p /\ is_uint256 rp
  | PurchaseItem id => is_uint256 id
  | RentItem id st en => is_uint256 id /\ is_uint256 st /\ is_uint256 en
  | UpdateItemPrices id p rp => is_uint256 id /\ is_uint256 p /\ is_uint256 rp
  | DeactivateItem id => is_uint256 id
  | EmergencyWithdraw => True
  | TransferOwnership a => is_address a
  | RenounceOwnership => True
  end.

(** [reachable n s]: [s] is the storage after [n] successful transactions
    on a freshly deployed contract. *)
Inductive reachable : nat -> State -> Prop :=
  | reach_deployed (deployer : Z) :
      is_address deployer -> reachable O (deployed deployer)
  | reach_step (n : nat) (s s' : State) (env : Env) (c : Call) :
      reachable n s -> valid_env env -> valid_call c ->
      run env c s = Ok s' -> reachable (S n) s'.

(** * The client: read accessors of [ContractService] *)

(** What a rejected promise carries: the call ran on a node and was
    reverted, or the node could not be reached at all. *)
Inductive JsError : Type :=
  | CallException (f : Failure)
  | TransportError (message : string).

(** The outcome of awaiting a promise. *)
Inductive Promise (A : Type) : Type :=
  | Resolved (a : A)
  | Rejected (e : JsError).
Arguments Resolved {A} a.
Arguments Rejected {A} e.

(** [await p] followed by the rest of an async function body, outside any
    [try]: a rejection ends the function with the same rejection. *)
Definition await {A B} (p : Promise A) (k : A -> Promise B) : Promise B :=
  match p with
  | Resolved a => k a
  | Rejected e => Rejected e
  end.

(** [try { return body } catch (error) { return handler }]. *)
Definition try_catch {A} (body : Promise A) (handler : JsError -> A) : Promise A :=
  match body with
  | Resolved a => Resolved a
  | Rejected e => Resolved (handler e)
  end.

(** [Number(x)] for a non-negative bigint: the nearest double, ties to
    even; exact below 2^53. *)
Definition Number (x : Z) : Z :=
  if x <? 2 ^ 53 then x
  else
    let e := Z.log2 x - 52 in
    let q := Z.shiftr x e in
    let r := x - Z.shiftl q e in
    let half := 2 ^ (e - 1) in
    let q' := if (half <? r) || ((r =? half) && Z.odd q) then q + 1 else q in
    Z.shiftl q' e.

(** [x.toString()] for a bigint: its decimal digits. *)
Definition toString (x : Z) : string := pretty x.

(** The raw results: the contract's structs with bigint fields. *)
Definition RawIPItem : Type := IPItem.
Definition RawRental : Type := Rental.
Definition RawOwnershipRecord : Type := OwnershipRecord.

(** The view functions as the ethers [Contract] handle exposes them; each
    call is a promise of the raw result. *)
Record Contract : Type := mkContract {
  contract_getItem : Z -> Promise RawIPItem;
  contract_getRental : Z -> Promise RawRental;
  contract_getActiveItems : Z -> Z -> Promise (list RawIPItem);
  contract_getUserItems : Z -> Promise (list Z);
  contract_getUserRentals : Z -> Promise (list Z);
  contract_getItemRenters : Z -> Promise (list Z);
  contract_getOwnershipHistory : Z -> Promise (list RawOwnershipRecord);
  contract_hasActiveRental : Z -> Z -> Promise bool;
  contract_getTotalItems : Promise Z;
  contract_getTotalRentals : Promise Z
}.

Definition of_result {A} (r : result A) : Promise A :=
  match r with
  | Ok a => Resolved a
  | Err f => Rejected (CallException f)
  end.

(** A handle on a node that answers from storage [s] at block time [now]. *)
Definition live (s : State) (now : Z) : Contract :=
  mkContract
    (fun id => of_result (getItem s id))
    (fun id => of_result (getRental s id))
    (fun off lim => of_result (getActiveItems s off lim))
    (fun a => Resolved (getUserItems s a))
    (fun a => Resolved (getUserRentals s a))
    (fun id => of_result (getItemRenters s id))
    (fun id => of_result (getOwnershipHistory s id))
    (fun id a => Resolved (hasActiveRental s now id a))
    (Resolved (getTotalItems s))
    (Resolved (getTotalRentals s)).

(** A handle on a node that cannot be reached. *)
Definition unreachable (message : string) : Contract :=
  mkContract
    (fun _ => Rejected (TransportError message))
    (fun _ => Rejected (TransportError message))
    (fun _ _ => Rejected (TransportError message))
    (fun _ => Rejected (TransportError message))
    (fun _ => Rejected (TransportError message))
    (fun _ => Rejected (TransportError message))
    (fun _ => Rejected (TransportError message))
    (fun _ _ => Rejected (TransportError message))
    (Rejected (TransportError message))
    (Rejected (TransportError message)).

Module ContractService.

(** The records handed to the pages: amounts as decimal strings,
    identifiers, counts and times as numbers, addresses as strings. *)
Record IPItem : Type := mkIPItem {
  itemId : Z;
  title : string;
  description : string;
  blobId : string;
  owner : string;
  price : string;
  rentalPrice : string;
  isActive : bool;
  createdAt : Z;
  totalRentals : Z;
  totalRevenue : string
}.

Record Rental : Type := mkRental {
  r_rentalId : Z;
  r_itemId : Z;
  r_renter : string;
  r_startTime : Z;
  r_endTime : Z;
  r_amountPaid : string;
  r_isActive : bool
}.

Record OwnershipRecord : Type := mkOwnershipRecord {
  o_owner : string;
  o_timestamp : Z;
  o_price : string
}.

Section Accessors.
(** How ethers renders an address (a checksummed hexadecimal string). *)
Variable format_address : Z -> string.
(** [this.contract] *)
Variable contract : Contract.

Definition convert_item (item : RawIPItem) : IPItem :=
  mkIPItem (Number (item_itemId item)) (item_title item) (item_description item)
    (item_blobId item) (format_address (item_owner item))
    (toString (item_price item)) (toString (item_rentalPrice item))
    (item_isActive item) (Number (item_createdAt item))
    (Number (item_totalRentals item)) (toString (item_totalRevenue item)).

Definition getItem (itemId : Z) : Promise IPItem :=
  await (contract_getItem contract itemId) (fun item =>
  Resolved (convert_item item)).

Definition getRental (rentalId : Z) : Promise Rental :=
  await (contract_getRental contract rentalId) (fun rental =>
  Resolved (mkRental (Number (rental_rentalId rental)) (Number (rental_itemId rental))
              (format_address (rental_renter rental))
              (Number (rental_startTime rental)) (Number (rental_endTime rental))
              (toString (rental_amountPaid rental)) (rental_isActive rental))).

(** [offset] and [limit] default to 0 and 20 when left out. *)
Definition getActiveItems (offset limit : option Z) : Promise (list IPItem) :=
  try_catch
    (await (contract_getActiveItems contract (default 0 offset) (default 20 limit))
       (fun items => Resolved (map convert_item items)))
    (fun error => []).

Definition getUserItems (userAddress : Z) : Promise (list Z) :=
  try_catch
    (await (contract_getUserItems contract userAddress)
       (fun itemIds => Resolved (map Number itemIds)))
    (fun error => []).

Definition getUserRentals (userAddress : Z) : Promise (list Z) :=
  try_catch
    (await (contract_getUserRentals contract userAddress)
       (fun rentalIds => Resolved (map Number rentalIds)))
    (fun error => []).

Definition getItemRenters (itemId : Z) : Promise (list string) :=
  await (contract_getItemRenters contract itemId) (fun renters =>
  Resolved (map format_address renters)).

Definition getOwnershipHistory (itemId : Z) : Promise (list OwnershipRecord) :=
  await (contract_getOwnershipHistory contract itemId) (fun history =>
  Resolved (map (fun record =>
                   mkOwnershipRecord (format_address (rec_owner record))
                     (Number (rec_timestamp record)) (toString (rec_price record)))
                history)).

Definition hasActiveRental (itemId userAddress : Z) : Promise bool :=
  try_catch
    (await (contract_hasActiveRental contract itemId userAddress)
       (fun result => Resolved result))
    (fun error => false).

Definition getTotalItems : Promise Z :=
  try_catch
    (await (contract_getTotalItems contract) (fun total => Resolved (Number total)))
    (fun error => 0).

Definition getTotalRentals : Promise Z :=
  try_catch
    (await (contract_getTotalRentals contract) (fun total => Resolved (Number total)))
    (fun error => 0).
End Accessors.

End ContractService.

(** * Notions used to state the properties *)

(** The part of storage the marketplace properties talk about. *)
Definition same_counters (s s' : State) : Prop :=
  _itemIds s' = _itemIds s /\ _rentalIds s' = _rentalIds s.
Definition same_rental_book (s s' : State) : Prop :=
  rentals s' = rentals s /\ userRentals s' = userRentals s.
Definition same_item_book (s s' : State) : Prop :=
  ownershipHistory s' = ownershipHistory s /\ userItems s' = userItems s.

(** The price of a rental, as the source computes it once overflow is
    ruled out. *)
Definition rental_cost (duration rentalPrice : Z) : Z := (duration * rentalPrice) / ONE_DAY.

(** An in-place change of a stored item that touches neither its owner
    nor its identifier. *)
Definition keeps_identity (f : IPItem -> IPItem) : Prop :=
  forall it, item_owner (f it) = item_owner it /\ item_itemId (f it) = item_itemId it.

(** The shapes a successful transaction can take, as far as the item and
    rental books go. *)
Inductive ledger_step (s s' : State) : Prop :=
  | step_create (sender ts : Z) (it : IPItem) :
      let newId := Counters_increment (_itemIds s) in
      item_itemId it = newId -> item_owner it = sender ->
      _itemIds s' = newId -> _rentalIds s' = _rentalIds s ->
      items s' = <[newId := it]> (items s) ->
      ownershipHistory s' =
        <[newId := history_at s newId ++ [mkOwnershipRecord sender ts 0]]>
          (ownershipHistory s) ->
      userItems s' = <[sender := userItems_at s sender ++ [newId]]> (userItems s) ->
      same_rental_book s s' ->
      ledger_step s s'
  | step_purchase (buyer ts iid : Z) :
      item_isActive (items_at s iid) = true ->
      same_counters s s' -> same_rental_book s s' ->
      items s' = <[iid := item_with_owner buyer (items_at s iid)]> (items s) ->
      ownershipHistory s' =
        <[iid := history_at s iid ++
                   [mkOwnershipRecord buyer ts (item_price (items_at s iid))]]>
          (ownershipHistory s) ->
      userItems s' = <[buyer := userItems_at s buyer ++ [iid]]> (userItems s) ->
      ledger_step s s'
  | step_rent (renter iid st en cost : Z) (f : IPItem -> IPItem) :
      let rid := Counters_increment (_rentalIds s) in
      item_isActive (items_at s iid) = true -> keeps_identity f ->
      _itemIds s' = _itemIds s -> _rentalIds s' = rid -> same_item_book s s' ->
      items s' = <[iid := f (items_at s iid)]> (items s) ->
      rentals s' = <[rid := mkRental rid iid renter st en cost true]> (rentals s) ->
      userRentals s' = <[renter := userRentals_at s renter ++ [rid]]> (userRentals s) ->
      ledger_step s s'
  | step_update (iid : Z) (f : IPItem -> IPItem) :
      item_isActive (items_at s iid) = true -> keeps_identity f ->
      same_counters s s' -> same_rental_book s s' -> same_item_book s s' ->
      items s' = <[iid := f (items_at s iid)]> (items s) ->
      ledger_step s s'
  | step_admin :
      same_counters s s' -> same_rental_book s s' -> same_item_book s s' ->
      items s' = items s ->
      ledger_step s s'.

(** Facts about the item index that hold however long the contract has
    run: the current owner of a stored item, and every owner its history
    records, has the item in their index. *)
Record index_inv (s : State) : Prop := {
  inv_owner_indexed :
    forall i it, items s !! i = Some it -> i ∈ userItems_at s (item_owner it);
  inv_history_indexed :
    forall i r, r ∈ history_at s i -> i ∈ userItems_at s (rec_owner r)
}.

(** Facts that hold as long as the counters have not wrapped around, that
    is, after fewer than 2^256 transactions. *)
Record ledger_inv (n : Z) (s : State) : Prop := {
  inv_itemIds : 0 <= _itemIds s <= n;
  inv_rentalIds : 0 <= _rentalIds s <= n;
  inv_items :
    forall i it, items s !! i = Some it -> 1 <= i <= _itemIds s /\ item_itemId it = i;
  inv_rentals :
    forall r rt, rentals s !! r = Some rt ->
      1 <= r <= _rentalIds s /\ rental_rentalId rt = r /\ rental_isActive rt = true;
  inv_userRentals :
    forall u r, r ∈ userRentals_at s u <->
      exists rt, rentals s !! r = Some rt /\ rental_renter rt = u
}.

(** The reading of the specification: a rental counts when it is for the
    item and the current time lies in its stored interval; the stored
    active flag is not consulted. *)
Definition in_window (now _itemId : Z) (rental : Rental) : bool :=
  (rental_itemId rental =? _itemId) &&
  (rental_startTime rental <=? now) && (now <=? rental_endTime rental).

Definition hasActiveRental_by_window (s : State) (now _itemId _user : Z) : bool :=
  existsb (fun rid => in_window now _itemId (rentals_at s rid)) (userRentals_at s _user).

(** [later s s']: storage [s'] results from [s] by successful calls. *)
Inductive later (s : State) : State -> Prop :=
  | later_now : later s s
  | later_call (s1 s2 : State) (env : Env) (c : Call) :
      later s s1 -> run env c s1 = Ok s2 -> later s s2.

(** Replays a sequence of transactions, keeping the identifiers returned
    by the [createItem] calls that succeed; a failed call leaves storage
    alone. *)
Fixpoint created_ids (txs : list (Env * Call)) (s : State) : list Z * State :=
  match txs with
  | [] => ([], s)
  | (env, c) :: rest =>
      match c with
      | CreateItem t d b p rp =>
          match createItem env t d b p rp s with
          | Ok (newId, s') =>
              let r := created_ids rest s' in (newId :: fst r, snd r)
          | Err _ => created_ids rest s
          end
      | _ => created_ids rest (transact env c s)
      end
  end.

(** The identifiers scanned by [getActiveItems]:
    [_offset + 1 .. min (_offset + _limit) total]. *)
Definition page_window (s : State) (_offset _limit : Z) : list Z :=
  seqZ (_offset + 1) (Z.min (_offset + _limit) (_itemIds s) - _offset).

(** * A worked scenario: accounts and a handful of items *)

Definition deployer : Z := 1.
Definition alice : Z := 10.
Definition bob : Z := 11.
Definition carol : Z := 12.

(** An externally owned account calling at time [now] with [value] wei. *)
Definition eoa (who value now : Z) : Env := mkEnv who value now (fun _ => true).

Definition valid_envb (env : Env) : bool :=
  (0 <=? msg_sender env) && (msg_sender env <=? MAX_ADDRESS) &&
  (0 <=? msg_value env) && (msg_value env <=? MAX_UINT256) &&
  (0 <=? block_timestamp env) && (block_timestamp env <=? MAX_UINT256).

Definition is_uint256b (x : Z) : bool := (0 <=? x) && (x <=? MAX_UINT256).

Definition valid_callb (c : Call) : bool :=
  match c with
  | CreateItem _ _ _ p rp => is_uint256b p && is_uint256b rp
  | PurchaseItem id => is_uint256b id
  | RentItem id st en => is_uint256b id && is_uint256b st && is_uint256b en
  | UpdateItemPrices id p rp => is_uint256b id && is_uint256b p && is_uint256b rp
  | DeactivateItem id => is_uint256b id
  | EmergencyWithdraw => true
  | TransferOwnership a => (0 <=? a) && (a <=? MAX_ADDRESS)
  | RenounceOwnership => true
  end.

(** Runs a list of transactions that must all be well formed and succeed. *)
Fixpoint run_all (txs : list (Env * Call)) (s : State) : option State :=
  match txs with
  | [] => Some s
  | (env, c) :: rest =>
      if valid_envb env && valid_callb c then
        match run env c s with
        | Ok s' => run_all rest s'
        | Err _ => None
        end
      else None
  end.

Definition after (txs : list (Env * Call)) : State :=
  default (deployed deployer) (run_all txs (deployed deployer)).

(** Alice registers "Paper A" for sale at 100 and for rent at 10 a day. *)
Definition paperA_txs : list (Env * Call) :=
  [(eoa alice 0 1000, CreateItem "Paper A" "first paper" "cid-a" 100 10)].
Definition shop1 : State := after paperA_txs.

(** Alice registers "Paper B", for rent only (purchase price 0). *)
Definition paperB_txs : list (Env * Call) :=
  [(eoa alice 0 1000, CreateItem "Paper B" "second paper" "cid-b" 0 10)].
Definition shopB : State := after paperB_txs.

(** Alice registers five items; the third is then deactivated. *)
Definition five_txs : list (Env * Call) :=
  replicate 5 (eoa alice 0 1000, CreateItem "Paper" "a paper" "cid" 100 100)
  ++ [(eoa alice 0 1001, DeactivateItem 3)].
Definition shop5 : State := after five_txs.

(** Bob rents item 1 of [shop5] for a day and a half, paying 200. *)
Definition rent_env : Env := eoa bob 200 2000.
Definition shop5_rented : State := after (five_txs ++ [(rent_env, RentItem 1 2000 131600)]).

(** Bob buys "Paper A" from Alice. *)
Definition shop1_sold : State := transact (eoa bob 100 2000) (PurchaseItem 1) shop1.

(** Bob pays the full price for "Paper A", but the seller's account refuses
    ether: the call gets as far as the payout, after ownership has been
    rewritten, and is reverted there. *)
Definition refusing_seller_env : Env := mkEnv bob 100 2000 (fun a => negb (a =? alice)).

(** Five calls, of which the second (empty title) and the fourth (no
    price at all) are rejected. *)
Definition mixed_txs : list (Env * Call) :=
  [(eoa alice 0 1000, CreateItem "One" "first" "cid-1" 5 0);
   (eoa alice 0 1001, CreateItem EmptyString "untitled" "cid-x" 5 0);
   (eoa bob 0 1002, CreateItem "Two" "second" "cid-2" 0 7);
   (eoa bob 0 1003, CreateItem "Free" "no price" "cid-y" 0 0);
   (eoa carol 0 1004, CreateItem "Three" "third" "cid-3" 1 1)].

(** * Notions used to state further properties *)

(** [later_in s k s']: [s'] results from [s] by [k] successful calls. *)
Inductive later_in (s : State) : nat -> State -> Prop :=
  | later_in_now : later_in s O s
  | later_in_call (k : nat) (s1 s2 : State) (env : Env) (c : Call) :
      later_in s k s1 -> run env c s1 = Ok s2 -> later_in s (S k) s2.

(** The item, rental and renter books are the same in both storages. *)
Definition same_ledger (s s' : State) : Prop :=
  _itemIds s' = _itemIds s /\ _rentalIds s' = _rentalIds s /\
  items s' = items s /\ rentals s' = rentals s /\
  ownershipHistory s' = ownershipHistory s /\ userItems s' = userItems s /\
  userRentals s' = userRentals s /\ hasRented s' = hasRented s /\
  itemRenters s' = itemRenters s.

(** The rentals made on an item, oldest first, and what they paid in all. *)
Definition rentals_of (s : State) (iid : Z) : list Rental :=
  List.filter (fun r => rental_itemId r =? iid)
    (map (rentals_at s) (seqZ 1 (_rentalIds s))).

Definition total_paid (l : list Rental) : Z :=
  foldr (fun r acc => rental_amountPaid r + acc) 0 l.

(** Ether sent to [a] by a list of effects. *)
Definition sent_to (a : Z) (l : list Effect) : Z :=
  foldr (fun e acc =>
           match e with
           | Transfer to amount => if to =? a then amount + acc else acc
           | Emit _ => acc
           end) 0 l.

(** What a transaction appended to the journal. *)
Definition new_effects (s s' : State) : list Effect :=
  drop (length (journal s)) (journal s').

(** Facts about the ownership history and the renter lists that hold
    however long the contract has run. *)
Record book_inv (s : State) : Prop := {
  inv_history_stored :
    forall i, history_at s i <> [] -> is_Some (items s !! i);
  inv_owner_last :
    forall i it, items s !! i = Some it ->
      exists h r, history_at s i = h ++ [r] /\ rec_owner r = item_owner it;
  inv_renters_nodup :
    forall i, NoDup (itemRenters_at s i);
  inv_renters_flag :
    forall i a, a ∈ itemRenters_at s i <-> hasRented_at s i a = true
}.

(** Facts that tie the rental book to the items, valid until a counter
    wraps around. *)
Record audit_inv (s : State) : Prop := {
  inv_history_first :
    forall i it, items s !! i = Some it ->
      exists r h, history_at s i = r :: h /\ rec_price r = 0;
  inv_rental_item :
    forall rid rt, rentals s !! rid = Some rt ->
      is_Some (items s !! rental_itemId rt) /\ 0 <= rental_amountPaid rt /\
      rental_startTime rt < rental_endTime rt;
  inv_flag_rental :
    forall i a, hasRented_at s i a = true <->
      exists rid rt, rentals s !! rid = Some rt /\ rental_itemId rt = i /\
                     rental_renter rt = a;
  inv_accounting :
    forall i it, items s !! i = Some it ->
      item_totalRentals it = Z.of_nat (length (rentals_of s i)) /\
      item_totalRevenue it = total_paid (rentals_of s i)
}.

(** Identifiers are handed out without gaps: every identifier from 1 to the
    counter has a stored record. *)
Record dense_inv (s : State) : Prop := {
  inv_items_dense : forall i, 1 <= i <= _itemIds s -> is_Some (items s !! i);
  inv_rentals_dense : forall r, 1 <= r <= _rentalIds s -> is_Some (rentals s !! r)
}.

(** How a stored item may differ between an earlier and a later storage:
    what was fixed at creation stays, an inactive item stays inactive, and
    the rental counters do not go down. *)
Definition evolves (it it' : IPItem) : Prop :=
  item_itemId it' = item_itemId it /\ item_title it' = item_title it /\
  item_description it' = item_description it /\ item_blobId it' = item_blobId it /\
  item_createdAt it' = item_createdAt it /\
  (item_isActive it = false -> item_isActive it' = false) /\
  item_totalRentals it <= item_totalRentals it' /\
  item_totalRevenue it <= item_totalRevenue it'.

(** * The pages *)

(** [Promise.all ps]: the results in the order of [ps]; if one of them is
    rejected, so is the whole. *)
Fixpoint Promise_all {A} (ps : list (Promise A)) : Promise (list A) :=
  match ps with
  | [] => Resolved []
  | p :: rest => await p (fun a => await (Promise_all rest) (fun l => Resolved (a :: l)))
  end.

(** [async () => { try { return await p } catch (error) { return null } }] *)
Definition or_null {A} (p : Promise A) : Promise (option A) :=
  try_catch (await p (fun a => Resolved (Some a))) (fun error => None).

(** [xs.filter(x => x !== null)] *)
Definition non_null {A} (xs : list (option A)) : list A := omap (fun x => x) xs.

Module DashboardPage.

Section Load.
Variable format_address : Z -> string.
(** The contract behind [new ContractService()]. *)
Variable contract : Contract.

(** The [try] block of [loadUserData]: the item records and the rental
    records it hands to [setUserItems] and [setUserRentals].  A rejection
    would be taken by the [catch] block, which reports "Failed to load user
    data". *)
Definition loadUserData (address : Z)
  : Promise (list ContractService.IPItem * list ContractService.Rental) :=
  await (ContractService.getUserItems contract address) (fun itemIds =>
  await (Promise_all
           (map (fun id => or_null (ContractService.getItem format_address contract id))
                itemIds)) (fun items =>
  let validItems := non_null items in
  await (ContractService.getUserRentals contract address) (fun rentalIds =>
  await (Promise_all
           (map (fun id => or_null (ContractService.getRental format_address contract id))
                rentalIds)) (fun rentals =>
  Resolved (validItems, non_null rentals))))).
End Load.

End DashboardPage.

Module MarketplacePage.

(** The arguments of a [contractService.rentItem] call; [call_value] is
    the amount of wei sent along. *)
Record RentCall : Type := mkRentCall {
  call_itemId : Z;
  call_startTime : Z;
  call_endTime : Z;
  call_value : Z
}.

(** The call made by the page's [rentItem] when the client clock
    ([Date.now()], in milliseconds) shows [now_ms]; [rentalPrice] is the
    amount that the listed decimal string denotes. *)
Definition rentItem (now_ms itemId rentalPrice days : Z) : RentCall :=
  let startTime := now_ms / 1000 + 60 in
  let endTime := startTime + days * 24 * 60 * 60 in
  let totalCost := rentalPrice * days in
  mkRentCall itemId startTime endTime totalCost.

End MarketplacePage.

(** Every identifier in a user's item index has a stored item. *)
Definition listed_inv (s : State) : Prop :=
  forall u i, i ∈ userItems_at s u -> is_Some (items s !! i).

(** * [ContractService.createItem]: recovering the new identifier *)

Definition is_ItemCreated (e : Event) : bool :=
  match e with
  | ItemCreated _ _ _ _ _ _ => true
  | _ => false
  end.

(** The logs in the receipt of the transaction that took [s] to [s']. *)
Definition receipt_logs (s s' : State) : list Event :=
  omap (fun e => match e with
                 | Emit ev => Some ev
                 | Transfer _ _ => None
                 end) (new_effects s s').

(** The end of [createItem], once the transaction is mined: the identifier
    is read from the first [ItemCreated] log of the receipt; without one,
    from [getTotalItems] ([totalItems] is the outcome of that call); and
    when that call fails too, it is taken to be 1. *)
Definition recovered_itemId (logs : list Event) (totalItems : Promise Z) : Z :=
  match List.find is_ItemCreated logs with
  | Some (ItemCreated itemId _ _ _ _ _) => Number itemId
  | _ =>
      match totalItems with
      | Resolved total => Number total
      | Rejected _ => 1
      end
  end.

(** * File storage: the IPFS helpers and the download route *)

Module IPFS.

(** How an async function ends: with a value, or with [throw new
    Error(message)]. *)
Inductive Outcome (A : Type) : Type :=
  | Returned (a : A)
  | Thrown (message : string).
Arguments Returned {A} a.
Arguments Thrown {A} message.

(** What [fetch] answers: [response.ok], the status (as it prints), the
    status text and the body. *)
Record FetchResponse : Type := mkFetchResponse {
  response_ok : bool;
  response_status : string;
  response_statusText : string;
  response_body : list Byte.byte
}.

Inductive RouteResponse : Type :=
  | Json (status : Z) (error : string)
  | Attachment (contents : list Byte.byte) (filename : string).

Definition startsWith (s searchString : string) : bool := String.prefix searchString s.

Section Service.
(** [pinata]: absent when no [PINATA_JWT] is configured; otherwise its
    [upload.file], which yields the [IpfsHash] or fails. *)
Variable pinata : option (list Byte.byte -> Outcome string).
Variable PINATA_GATEWAY_URL : string.
(** [fetch url]: the gateway's response, or a network failure. *)
Variable fetch : string -> Outcome FetchResponse.

(** [`mock-cid-${Date.now()}-${Math.random().toString(36).substr(2, 9)}`];
    [stamp] and [suffix] are the two interpolated strings. *)
Definition mockCID (stamp suffix : string) : string :=
  String.append "mock-cid-" (String.append stamp (String.append "-" suffix)).

Definition uploadToIPFS (stamp suffix : string) (fileContents : list Byte.byte)
  : Outcome string :=
  match pinata with
  | None => Returned (mockCID stamp suffix)
  | Some upload_file =>
      match upload_file fileContents with
      | Returned cid => Returned cid
      | Thrown _ => Returned (mockCID stamp suffix)
      end
  end.

Definition downloadFromIPFS (cid : string) : Outcome (list Byte.byte) :=
  if startsWith cid "mock-cid-" then Thrown "Cannot download mock CID"
  else
    match pinata with
    | None => Thrown "Pinata SDK not configured"
    | Some _ =>
        match fetch (String.append PINATA_GATEWAY_URL (String.append "/ipfs/" cid)) with
        | Thrown message => Thrown message
        | Returned response =>
            if response_ok response then Returned (response_body response)
            else Thrown (String.append "Failed to download from IPFS: "
                           (String.append (response_status response)
                              (String.append " " (response_statusText response))))
        end
    end.

(** The [GET] handler of [/api/download/[blobId]]. *)
Definition GET (blobId : string) : RouteResponse :=
  match blobId with
  | EmptyString => Json 400 "Blob ID is required"
  | _ =>
      if startsWith blobId "mock-cid-"
      then Json 404 "Mock CID - file not available for download"
      else
        match downloadFromIPFS blobId with
        | Returned fileContents =>
            Attachment fileContents (String.append "file-" blobId)
        | Thrown _ => Json 500 "Failed to download file"
        end
  end.
End Service.

End IPFS.

(** [operated s]: [s] is the storage of a contract that has only been
    called from accounts, that is, never with the zero address as sender. *)
Inductive operated : State -> Prop :=
  | operated_deployed (deployer : Z) : deployer <> 0 -> operated (deployed deployer)
  | operated_call (s s' : State) (env : Env) (c : Call) :
      operated s -> msg_sender env <> 0 -> run env c s = Ok s' -> operated s'.

(** * Properties *)

(** ** Reasoning about contract computations *)

Section Monad.
Context {A B : Type}.

Lemma bind_ok (m : M A) (f : A -> M B) (s s' : State) (b : B) :
  bind m f s = Ok (b, s') ->
  exists a s1, m s = Ok (a, s1) /\ f a s1 = Ok (b, s').
Proof.
  unfold bind. destruct (m s) as [[a s1]|e]; [|discriminate].
  intros H. exists a, s1. split; [reflexivity|exact H].
Qed.

Lemma ret_ok (a a' : A) (s s' : State) :
  ret a s = Ok (a', s') -> a' = a /\ s' = s.
Proof. unfold ret. intros H. inversion H. auto. Qed.

Lemma lift_ok (r : result A) (s s' : State) (a : A) :
  lift r s = Ok (a, s') -> r = Ok a /\ s' = s.
Proof. unfold lift. destruct r; intros H; inversion H. auto. Qed.
End Monad.

Lemma require_ok (c : bool) (reason : string) (s s' : State) (u : unit) :
  require c reason s = Ok (u, s') -> c = true /\ s' = s.
Proof. unfold require. destruct c; cbn; intros H; inversion H. auto. Qed.

Lemma get_ok (s s0 s' : State) : get s = Ok (s0, s') -> s0 = s /\ s' = s.
Proof. unfold get. intros H. inversion H. auto. Qed.

Lemma modify_ok (f : State -> State) (s s' : State) (u : unit) :
  modify f s = Ok (u, s') -> s' = f s.
Proof. unfold modify. intros H. inversion H. auto. Qed.

Lemma nonpayable_ok (env : Env) (s s' : State) (u : unit) :
  nonpayable env s = Ok (u, s') -> msg_value env = 0 /\ s' = s.
Proof.
  unfold nonpayable. destruct (Z.eqb_spec (msg_value env) 0); cbn; intros H; inversion H.
  auto.
Qed.

Lemma transfer_ok (env : Env) (to amount : Z) (s s' : State) (u : unit) :
  transfer env to amount s = Ok (u, s') ->
  s' = set_journal (journal s ++ [Transfer to amount]) (set_balance (balance s - amount) s).
Proof.
  unfold transfer, bind, get. destruct (_ && _); cbn; intros H; inversion H. reflexivity.
Qed.

Lemma checked_add_ok (a b c : Z) : checked_add a b = Ok c -> c = a + b /\ a + b <= MAX_UINT256.
Proof.
  unfold checked_add. destruct (Z.leb_spec (a + b) MAX_UINT256) as [Hle|Hgt]; intros Heq; inversion Heq.
  auto.
Qed.

Lemma checked_sub_ok (a b c : Z) : checked_sub a b = Ok c -> c = a - b /\ b <= a.
Proof.
  unfold checked_sub. destruct (Z.leb_spec b a) as [Hle|Hgt]; intros Heq; inversion Heq.
  auto.
Qed.

Lemma checked_mul_ok (a b c : Z) : checked_mul a b = Ok c -> c = a * b /\ a * b <= MAX_UINT256.
Proof.
  unfold checked_mul. destruct (Z.leb_spec (a * b) MAX_UINT256) as [Hle|Hgt]; intros Heq; inversion Heq.
  auto.
Qed.

(** Normalises reads of a storage that is written as a chain of field
    updates. *)
Ltac ssimpl :=
  unfold items_at, rentals_at, history_at, userItems_at, userRentals_at,
    hasRented_at, itemRenters_at in *;
  cbn [_status _owner _itemIds _rentalIds items rentals ownershipHistory
       userItems userRentals hasRented itemRenters balance journal
       set_status set_owner set_itemIds set_rentalIds set_items set_rentals
       set_ownershipHistory set_userItems set_userRentals set_hasRented
       set_itemRenters set_balance set_journal] in *;
  rewrite ?lookup_insert_eq in *;
  cbn [from_option Datatypes.id] in *;
  cbn [item_itemId item_title item_description item_blobId item_owner
       item_price item_rentalPrice item_isActive item_createdAt
       item_totalRentals item_totalRevenue item_with_owner item_with_prices
       item_with_isActive item_with_totalRentals item_with_totalRevenue] in *;
  change (default zero_item (items ?s !! ?i)) with (items_at s i) in *;
  change (default zero_rental (rentals ?s !! ?i)) with (rentals_at s i) in *;
  change (default [] (ownershipHistory ?s !! ?i)) with (history_at s i) in *;
  change (default [] (userItems ?s !! ?i)) with (userItems_at s i) in *;
  change (default [] (userRentals ?s !! ?i)) with (userRentals_at s i) in *;
  change (default false (hasRented ?s !! (?i, ?a))) with (hasRented_at s i a) in *;
  change (default [] (itemRenters ?s !! ?i)) with (itemRenters_at s i) in *.

(** Splits a successful computation into its successful steps. *)
Ltac minv_step :=
  lazymatch goal with
  | H : bind _ _ _ = Ok _ |- _ =>
      let a := fresh "a" in let s1 := fresh "s" in let H1 := fresh "Hm" in
      apply bind_ok in H; destruct H as (a & s1 & H1 & H)
  | H : require _ _ _ = Ok _ |- _ =>
      let Hc := fresh "Hreq" in let Hs := fresh "Hs" in
      apply require_ok in H; destruct H as [Hc Hs]; subst
  | H : get _ = Ok _ |- _ =>
      let H1 := fresh "Ha" in let H2 := fresh "Hb" in
      apply get_ok in H; destruct H as [H1 H2]; subst
  | H : ret _ _ = Ok _ |- _ =>
      let H1 := fresh "Ha" in let H2 := fresh "Hb" in
      apply ret_ok in H; destruct H as [H1 H2]; subst
  | H : modify _ _ = Ok _ |- _ => apply modify_ok in H; subst; ssimpl
  | H : lift _ _ = Ok _ |- _ =>
      let H1 := fresh "Hlift" in let H2 := fresh "Hb" in
      apply lift_ok in H; destruct H as [H1 H2]; subst
  | H : nonpayable _ _ = Ok _ |- _ =>
      let H1 := fresh "Hval" in let H2 := fresh "Hb" in
      apply nonpayable_ok in H; destruct H as [H1 H2]; subst
  | H : transfer _ _ _ _ = Ok _ |- _ => apply transfer_ok in H; subst; ssimpl
  | H : when ?c _ _ = Ok _ |- _ => unfold when in H; destruct c eqn:?
  | H : checked_add _ _ = Ok _ |- _ =>
      let H1 := fresh "Ha" in let H2 := fresh "Hadd" in
      apply checked_add_ok in H; destruct H as [H1 H2]; subst
  | H : checked_sub _ _ = Ok _ |- _ =>
      let H1 := fresh "Ha" in let H2 := fresh "Hsub" in
      apply checked_sub_ok in H; destruct H as [H1 H2]; subst
  | H : checked_mul _ _ = Ok _ |- _ =>
      let H1 := fresh "Ha" in let H2 := fresh "Hmul" in
      apply checked_mul_ok in H; destruct H as [H1 H2]; subst
  end.

Ltac munfold H :=
  unfold nonReentrant, onlyOwner, itemExists, onlyItemOwner, validRentalPeriod,
    payable, emit, push_userItems, push_userRentals, push_ownershipHistory,
    push_itemRenters, update_item, read_item, discard in H.

Ltac minv H := munfold H; repeat minv_step; ssimpl.

(** Turns the boolean tests of the source into propositions. *)
Ltac btop :=
  repeat match goal with
  | H : negb _ = true |- _ => apply negb_true_iff in H
  | H : negb _ = false |- _ => apply negb_false_iff in H
  | H : (_ || _) = true |- _ => apply orb_true_iff in H
  | H : (_ && _) = true |- _ => apply andb_true_iff in H; destruct H
  | H : (_ <=? _) = true |- _ => apply Z.leb_le in H
  | H : (_ <=? _) = false |- _ => apply Z.leb_gt in H
  | H : (_ <? _) = true |- _ => apply Z.ltb_lt in H
  | H : (_ <? _) = false |- _ => apply Z.ltb_ge in H
  | H : (_ =? _) = true |- _ => apply Z.eqb_eq in H
  | H : (_ =? _) = false |- _ => apply Z.eqb_neq in H
  end.

(** ** What each successful call does to storage *)

Lemma createItem_effect (env : Env) (t d b : string) (p rp : Z) (s s' : State) (newId : Z) :
  createItem env t d b p rp s = Ok (newId, s') ->
  newId = Counters_increment (_itemIds s) /\
  _itemIds s' = newId /\ _rentalIds s' = _rentalIds s /\
  items s' = <[newId := mkIPItem newId t d b (msg_sender env) p rp true
                          (block_timestamp env) 0 0]> (items s) /\
  ownershipHistory s' =
    <[newId := history_at s newId ++
                 [mkOwnershipRecord (msg_sender env) (block_timestamp env) 0]]>
      (ownershipHistory s) /\
  userItems s' =
    <[msg_sender env := userItems_at s (msg_sender env) ++ [newId]]> (userItems s) /\
  same_rental_book s s'.
Proof.
  intros H. unfold createItem in H. minv H.
  unfold same_rental_book. repeat split; reflexivity.
Qed.

Lemma purchaseItem_effect (env : Env) (iid : Z) (s s' : State) (u : unit) :
  purchaseItem env iid s = Ok (u, s') ->
  (iid <= _itemIds s /\ item_isActive (items_at s iid) = true /\
   0 < item_price (items_at s iid) /\ item_price (items_at s iid) <= msg_value env /\
   item_owner (items_at s iid) <> msg_sender env) /\
  same_counters s s' /\ same_rental_book s s' /\
  items s' = <[iid := item_with_owner (msg_sender env) (items_at s iid)]> (items s) /\
  ownershipHistory s' =
    <[iid := history_at s iid ++
               [mkOwnershipRecord (msg_sender env) (block_timestamp env)
                  (item_price (items_at s iid))]]> (ownershipHistory s) /\
  userItems s' =
    <[msg_sender env := userItems_at s (msg_sender env) ++ [iid]]> (userItems s).
Proof.
  intros H. unfold purchaseItem in H. minv H.
  all: btop; unfold same_counters, same_rental_book; repeat split; auto.
Qed.

Lemma rentItem_effect (env : Env) (iid st en : Z) (s s' : State) (u : unit) :
  rentItem env iid st en s = Ok (u, s') ->
  let cost := rental_cost (en - st) (item_rentalPrice (items_at s iid)) in
  let rid := Counters_increment (_rentalIds s) in
  (iid <= _itemIds s /\ item_isActive (items_at s iid) = true /\
   block_timestamp env <= st /\ st < en /\ en <= block_timestamp env + DAYS_365 /\
   0 < item_rentalPrice (items_at s iid) /\
   item_owner (items_at s iid) <> msg_sender env /\
   (en - st) * item_rentalPrice (items_at s iid) <= MAX_UINT256 /\
   cost <= msg_value env) /\
  _itemIds s' = _itemIds s /\ _rentalIds s' = rid /\
  same_item_book s s' /\
  items s' =
    <[iid := item_with_totalRevenue (item_totalRevenue (items_at s iid) + cost)
               (item_with_totalRentals (item_totalRentals (items_at s iid) + 1)
                  (items_at s iid))]> (items s) /\
  rentals s' = <[rid := mkRental rid iid (msg_sender env) st en cost true]> (rentals s) /\
  userRentals s' =
    <[msg_sender env := userRentals_at s (msg_sender env) ++ [rid]]> (userRentals s) /\
  journal s' =
    journal s ++ Transfer (item_owner (items_at s iid)) cost ::
      (if cost <? msg_value env then [Transfer (msg_sender env) (msg_value env - cost)]
       else []) ++
      [Emit (ItemRented rid iid (msg_sender env) st en cost)].
Proof.
  intros H. unfold rentItem in H. minv H.
  all: rewrite ?insert_insert_eq; unfold same_item_book, rental_cost in *.
  all: match goal with Hc : (_ <? msg_value _) = _ |- _ => rewrite Hc end.
  all: btop; rewrite <- ?app_assoc; cbn [app]; repeat split; auto.
Qed.

Lemma updateItemPrices_effect (env : Env) (iid p rp : Z) (s s' : State) (u : unit) :
  updateItemPrices env iid p rp s = Ok (u, s') ->
  (msg_value env = 0 /\ item_owner (items_at s iid) = msg_sender env /\
   iid <= _itemIds s /\ item_isActive (items_at s iid) = true /\ (0 < p \/ 0 < rp)) /\
  same_counters s s' /\ same_rental_book s s' /\ same_item_book s s' /\
  items s' = <[iid := item_with_prices p rp (items_at s iid)]> (items s).
Proof.
  intros H. unfold updateItemPrices in H. minv H. btop.
  unfold same_counters, same_rental_book, same_item_book.
  repeat split; auto.
  match goal with Hor : _ \/ _ |- _ => destruct Hor; btop; auto end.
Qed.

Lemma deactivateItem_effect (env : Env) (iid : Z) (s s' : State) (u : unit) :
  deactivateItem env iid s = Ok (u, s') ->
  (msg_value env = 0 /\ item_owner (items_at s iid) = msg_sender env /\
   iid <= _itemIds s /\ item_isActive (items_at s iid) = true) /\
  same_counters s s' /\ same_rental_book s s' /\ same_item_book s s' /\
  items s' = <[iid := item_with_isActive false (items_at s iid)]> (items s) /\
  _status s' = _status s.
Proof.
  intros H. unfold deactivateItem in H. minv H. btop.
  unfold same_counters, same_rental_book, same_item_book.
  repeat split; auto.
Qed.

Lemma admin_effect (env : Env) (c : Call) (s s' : State) :
  match c with
  | EmergencyWithdraw | TransferOwnership _ | RenounceOwnership => True
  | _ => False
  end ->
  run env c s = Ok s' ->
  same_counters s s' /\ same_rental_book s s' /\ same_item_book s s' /\ items s' = items s.
Proof.
  unfold run, same_counters, same_rental_book, same_item_book.
  intros Hc H. destruct (dispatch env c s) as [[u s1]|e] eqn:Hd; [|discriminate].
  inversion H; subst s1.
  destruct c; try contradiction; cbn [dispatch] in Hd.
  - unfold emergencyWithdraw in Hd. minv Hd. repeat split; reflexivity.
  - unfold transferOwnership in Hd. minv Hd. repeat split; reflexivity.
  - unfold renounceOwnership in Hd. minv Hd. repeat split; reflexivity.
Qed.

Lemma run_ledger_step (env : Env) (c : Call) (s s' : State) :
  run env c s = Ok s' -> ledger_step s s'.
Proof.
  intros H.
  destruct c;
    try (apply (admin_effect env) in H; [|exact I];
         destruct H as (? & ? & ? & ?); apply step_admin; assumption);
    unfold run in H;
    destruct (dispatch env _ s) as [[u s1]|e] eqn:Hd; try discriminate;
    inversion H; subst s1; clear H; cbn [dispatch] in Hd.
  - unfold discard in Hd. apply bind_ok in Hd. destruct Hd as (newId & s1 & Hc & Hr).
    apply ret_ok in Hr. destruct Hr as [_ ->].
    apply createItem_effect in Hc.
    destruct Hc as (Hn & Hi & Hrid & Hit & Hh & Hu & Hrb). subst newId.
    eapply step_create; try eassumption; try reflexivity.
  - apply purchaseItem_effect in Hd.
    destruct Hd as ((_ & Ha & _) & Hc & Hrb & Hit & Hh & Hu).
    eapply step_purchase; eassumption.
  - apply rentItem_effect in Hd. cbv zeta in Hd.
    destruct Hd as ((_ & Ha & _) & Hi & Hr & Hib & Hit & Hre & Hur & _).
    eapply step_rent with
      (f := fun it =>
         item_with_totalRevenue
           (item_totalRevenue (items_at s _itemId) +
            rental_cost (_endTime - _startTime) (item_rentalPrice (items_at s _itemId)))
           (item_with_totalRentals (item_totalRentals (items_at s _itemId) + 1) it));
      try eassumption.
    intros it. split; reflexivity.
  - apply updateItemPrices_effect in Hd.
    destruct Hd as ((_ & _ & _ & Ha & _) & Hc & Hrb & Hib & Hit).
    eapply step_update with (f := item_with_prices _newPrice _newRentalPrice);
      try eassumption.
    intros it. split; reflexivity.
  - apply deactivateItem_effect in Hd.
    destruct Hd as ((_ & _ & _ & Ha) & Hc & Hrb & Hib & Hit & _).
    eapply step_update with (f := item_with_isActive false); try eassumption.
    intros it. split; reflexivity.
Qed.

(** An active item was written: the zero item is inactive. *)
Lemma active_is_stored (s : State) (iid : Z) :
  item_isActive (items_at s iid) = true ->
  exists it, items s !! iid = Some it /\ items_at s iid = it.
Proof.
  unfold items_at. destruct (items s !! iid) as [it|]; cbn.
  - intros _. exists it. auto.
  - discriminate.
Qed.

Lemma Counters_increment_small (v : Z) :
  0 <= v < MAX_UINT256 -> Counters_increment v = v + 1.
Proof.
  unfold Counters_increment, wrapping_add, MAX_UINT256. intros H.
  apply Z.mod_small. lia.
Qed.

Lemma default_insert {K} `{Countable K} {V} (d : V) (m : gmap K V) (i j : K) (x : V) :
  default d (<[i := x]> m !! j) = if decide (i = j) then x else default d (m !! j).
Proof. rewrite lookup_insert. destruct (decide (i = j)); reflexivity. Qed.

(** ** Invariants of reachable storage *)

Lemma userItems_at_grows (s s' : State) (a : Z) :
  ledger_step s s' -> userItems_at s a `prefix_of` userItems_at s' a.
Proof.
  intros Hstep. unfold userItems_at.
  destruct Hstep as
    [sender ts it newId _ _ _ _ _ _ Hu _
    |buyer ts iid _ _ _ _ _ Hu
    |renter iid st en cost f rid _ _ _ _ [_ Hu] _ _ _
    |iid f _ _ _ _ [_ Hu] _
    |_ _ [_ Hu] _]; rewrite Hu; try reflexivity.
  - rewrite default_insert. destruct (decide (sender = a)) as [->|]; [|reflexivity].
    apply prefix_app_r. reflexivity.
  - rewrite default_insert. destruct (decide (buyer = a)) as [->|]; [|reflexivity].
    apply prefix_app_r. reflexivity.
Qed.

Lemma index_inv_deployed (d : Z) : index_inv (deployed d).
Proof.
  split.
  - intros i it H. cbn in H. rewrite lookup_empty in H. discriminate.
  - intros i r H. unfold history_at in H. cbn in H. rewrite lookup_empty in H.
    cbn in H. inversion H.
Qed.

Lemma index_inv_step (s s' : State) :
  ledger_step s s' -> index_inv s -> index_inv s'.
Proof.
  intros Hstep [Hown Hhist].
  assert (Hgrow : forall a i, i ∈ userItems_at s a -> i ∈ userItems_at s' a).
  { intros a i Hi. destruct (userItems_at_grows s s' a Hstep) as [k ->].
    apply elem_of_app. left. exact Hi. }
  destruct Hstep as
    [sender ts it newId Hid Hso _ _ Hit Hh Hu _
    |buyer ts iid Hact _ _ Hit Hh Hu
    |renter iid st en cost f rid Hact Hf _ _ [Hh Hu] Hit _ _
    |iid f Hact Hf _ _ [Hh Hu] Hit
    |_ _ [Hh Hu] Hit].
  - split.
    + intros i x Hx. rewrite Hit in Hx.
      destruct (decide (newId = i)) as [->|Hne].
      * rewrite lookup_insert_eq in Hx. inversion Hx; subst x.
        unfold userItems_at. rewrite Hu, Hso, lookup_insert_eq. cbn.
        apply elem_of_app. right. apply list_elem_of_singleton. reflexivity.
      * rewrite lookup_insert_ne in Hx by exact Hne. auto.
    + intros i r Hr. unfold history_at in Hr. rewrite Hh, default_insert in Hr.
      destruct (decide (newId = i)) as [->|Hne]; [|auto].
      apply elem_of_app in Hr. destruct Hr as [Hr|Hr]; [auto|].
      apply list_elem_of_singleton in Hr. subst r. cbn.
      unfold userItems_at. rewrite Hu, lookup_insert_eq. cbn.
      apply elem_of_app. right. apply list_elem_of_singleton. reflexivity.
  - split.
    + intros i x Hx. rewrite Hit in Hx.
      destruct (decide (iid = i)) as [->|Hne].
      * rewrite lookup_insert_eq in Hx. inversion Hx; subst x. cbn.
        unfold userItems_at. rewrite Hu, lookup_insert_eq. cbn.
        apply elem_of_app. right. apply list_elem_of_singleton. reflexivity.
      * rewrite lookup_insert_ne in Hx by exact Hne. auto.
    + intros i r Hr. unfold history_at in Hr. rewrite Hh, default_insert in Hr.
      destruct (decide (iid = i)) as [->|Hne]; [|auto].
      apply elem_of_app in Hr. destruct Hr as [Hr|Hr]; [auto|].
      apply list_elem_of_singleton in Hr. subst r. cbn.
      unfold userItems_at. rewrite Hu, lookup_insert_eq. cbn.
      apply elem_of_app. right. apply list_elem_of_singleton. reflexivity.
  - split.
    + intros i x Hx. rewrite Hit in Hx.
      destruct (decide (iid = i)) as [->|Hne].
      * rewrite lookup_insert_eq in Hx. inversion Hx; subst x.
        destruct (active_is_stored s i Hact) as (it & Hs & ->).
        destruct (Hf it) as [-> _]. auto.
      * rewrite lookup_insert_ne in Hx by exact Hne. auto.
    + intros i r Hr. unfold history_at in Hr. rewrite Hh in Hr. auto.
  - split.
    + intros i x Hx. rewrite Hit in Hx.
      destruct (decide (iid = i)) as [->|Hne].
      * rewrite lookup_insert_eq in Hx. inversion Hx; subst x.
        destruct (active_is_stored s i Hact) as (it & Hs & ->).
        destruct (Hf it) as [-> _]. auto.
      * rewrite lookup_insert_ne in Hx by exact Hne. auto.
    + intros i r Hr. unfold history_at in Hr. rewrite Hh in Hr. auto.
  - split.
    + intros i x Hx. rewrite Hit in Hx. auto.
    + intros i r Hr. unfold history_at in Hr. rewrite Hh in Hr. auto.
Qed.

Lemma reachable_index_inv (n : nat) (s : State) : reachable n s -> index_inv s.
Proof.
  induction 1 as [d _|n s s' env c _ IH _ _ Hrun].
  - apply index_inv_deployed.
  - eapply index_inv_step; [eapply run_ledger_step; exact Hrun|exact IH].
Qed.

Lemma ledger_inv_deployed (d : Z) : ledger_inv 0 (deployed d).
Proof.
  split; cbn.
  - lia.
  - lia.
  - intros i it H. rewrite lookup_empty in H. discriminate.
  - intros r rt H. rewrite lookup_empty in H. discriminate.
  - intros u r. unfold userRentals_at. cbn. rewrite lookup_empty. cbn. split.
    + intros H. inversion H.
    + intros (rt & H & _). rewrite lookup_empty in H. discriminate.
Qed.

(** Rewriting a stored, active item in place keeps the item table within
    its bounds. *)
Lemma items_rewrite_bounds (s : State) (iid k : Z) (x : IPItem) :
  (forall i it, items s !! i = Some it -> 1 <= i <= k /\ item_itemId it = i) ->
  item_isActive (items_at s iid) = true ->
  item_itemId x = item_itemId (items_at s iid) ->
  forall i it, <[iid := x]> (items s) !! i = Some it -> 1 <= i <= k /\ item_itemId it = i.
Proof.
  intros Hinv Hact Hid i it Hi.
  destruct (active_is_stored s iid Hact) as (old & Hold & Heq).
  destruct (decide (iid = i)) as [->|Hne].
  - rewrite lookup_insert_eq in Hi. inversion Hi; subst it.
    rewrite Hid, Heq. apply Hinv. exact Hold.
  - rewrite lookup_insert_ne in Hi by exact Hne. apply Hinv. exact Hi.
Qed.

Lemma ledger_inv_step (n : Z) (s s' : State) :
  ledger_step s s' -> n < MAX_UINT256 -> ledger_inv n s -> ledger_inv (n + 1) s'.
Proof.
  intros Hstep Hn [Hi Hr Hit Hre Hur].
  destruct Hstep as
    [sender ts it newId Hid Hso Hc1 Hc2 Hitems _ _ [Hrb Hub]
    |buyer ts iid Hact [Hc1 Hc2] [Hrb Hub] Hitems _ _
    |renter iid st en cost f rid Hact Hf Hc1 Hc2 _ Hitems Hrents Hurs
    |iid f Hact Hf [Hc1 Hc2] [Hrb Hub] _ Hitems
    |[Hc1 Hc2] [Hrb Hub] _ Hitems].
  - assert (Hnew : newId = _itemIds s + 1).
    { subst newId. apply Counters_increment_small. lia. }
    split.
    + rewrite Hc1. lia.
    + rewrite Hc2. lia.
    + intros i x Hx. rewrite Hitems in Hx. rewrite Hc1.
      destruct (decide (newId = i)) as [<-|Hne].
      * rewrite lookup_insert_eq in Hx. inversion Hx; subst x. split; [lia|exact Hid].
      * rewrite lookup_insert_ne in Hx by exact Hne.
        destruct (Hit i x Hx). split; [lia|assumption].
    + rewrite Hrb, Hc2. exact Hre.
    + unfold userRentals_at in *. rewrite Hrb, Hub. exact Hur.
  - split.
    + rewrite Hc1. lia.
    + rewrite Hc2. lia.
    + rewrite Hitems, Hc1. apply items_rewrite_bounds; auto.
    + rewrite Hrb, Hc2. exact Hre.
    + unfold userRentals_at in *. rewrite Hrb, Hub. exact Hur.
  - assert (Hnew : rid = _rentalIds s + 1).
    { subst rid. apply Counters_increment_small. lia. }
    assert (Hfresh : rentals s !! rid = None).
    { destruct (rentals s !! rid) as [rt|] eqn:E; [|reflexivity].
      destruct (Hre rid rt E). lia. }
    split.
    + rewrite Hc1. lia.
    + rewrite Hc2. lia.
    + rewrite Hitems, Hc1. apply items_rewrite_bounds; auto. apply Hf.
    + intros r rt Hrt. rewrite Hrents in Hrt. rewrite Hc2.
      destruct (decide (rid = r)) as [<-|Hne].
      * rewrite lookup_insert_eq in Hrt. inversion Hrt; subst rt. cbn.
        split; [lia|split; reflexivity].
      * rewrite lookup_insert_ne in Hrt by exact Hne.
        destruct (Hre r rt Hrt) as (? & ? & ?). split; [lia|split; assumption].
    + intros u r. unfold userRentals_at. rewrite Hurs, Hrents, default_insert.
      change (default [] (userRentals s !! ?a)) with (userRentals_at s a).
      destruct (decide (rid = r)) as [<-|Hne].
      * rewrite lookup_insert_eq.
        destruct (decide (renter = u)) as [->|Hu].
        -- split.
           ++ intros _. eexists. split; reflexivity.
           ++ intros _. apply elem_of_app. right. apply list_elem_of_singleton.
              reflexivity.
        -- split.
           ++ intros Hin. apply Hur in Hin. destruct Hin as (rt & Hrt & _).
              rewrite Hfresh in Hrt. discriminate.
           ++ intros (rt & Hrt & Hren). inversion Hrt; subst rt. cbn in Hren.
              contradiction.
      * rewrite lookup_insert_ne by exact Hne.
        destruct (decide (renter = u)) as [->|Hu]; [|apply Hur].
        rewrite elem_of_app, list_elem_of_singleton, <- Hur.
        split; [intros [?|?]; [assumption|congruence]|auto].
  - split.
    + rewrite Hc1. lia.
    + rewrite Hc2. lia.
    + rewrite Hitems, Hc1. apply items_rewrite_bounds; auto. apply Hf.
    + rewrite Hrb, Hc2. exact Hre.
    + unfold userRentals_at in *. rewrite Hrb, Hub. exact Hur.
  - split.
    + rewrite Hc1. lia.
    + rewrite Hc2. lia.
    + rewrite Hitems, Hc1. exact Hit.
    + rewrite Hrb, Hc2. exact Hre.
    + unfold userRentals_at in *. rewrite Hrb, Hub. exact Hur.
Qed.

Lemma reachable_ledger_inv (n : nat) (s : State) :
  reachable n s -> Z.of_nat n <= MAX_UINT256 -> ledger_inv (Z.of_nat n) s.
Proof.
  induction 1 as [d _|n s s' env c _ IH _ _ Hrun]; intros Hn.
  - apply ledger_inv_deployed.
  - rewrite Nat2Z.inj_succ. unfold Z.succ.
    apply ledger_inv_step with (s := s).
    + eapply run_ledger_step. exact Hrun.
    + lia.
    + apply IH. lia.
Qed.

(** Replays known error paths: unfolds the monad and decides each test
    from the hypotheses. *)
Ltac mforward :=
  unfold bind, get, modify, require, ret, fail, lift, when;
  repeat first
    [ progress (ssimpl; cbn [negb])
    | match goal with
      | H : ?c = true |- context [?c] => rewrite H
      | H : ?c = false |- context [?c] => rewrite H
      end ].

Lemma purchaseItem_not_for_sale (env : Env) (iid : Z) (s : State) :
  _status s <> ENTERED -> iid <= _itemIds s -> item_isActive (items_at s iid) = true ->
  ~ 0 < item_price (items_at s iid) ->
  purchaseItem env iid s = Err (Revert "Item is not for sale").
Proof.
  intros Hst Hid Hact Hp.
  apply Z.eqb_neq in Hst. apply Z.leb_le in Hid. apply Z.ltb_nlt in Hp.
  unfold purchaseItem, payable, nonReentrant, itemExists, read_item.
  mforward. reflexivity.
Qed.

Lemma purchaseItem_insufficient (env : Env) (iid : Z) (s : State) :
  _status s <> ENTERED -> iid <= _itemIds s -> item_isActive (items_at s iid) = true ->
  0 < item_price (items_at s iid) -> msg_value env < item_price (items_at s iid) ->
  purchaseItem env iid s = Err (Revert "Insufficient payment").
Proof.
  intros Hst Hid Hact Hp Hv.
  apply Z.eqb_neq in Hst. apply Z.leb_le in Hid. apply Z.ltb_lt in Hp. apply Z.leb_gt in Hv.
  unfold purchaseItem, payable, nonReentrant, itemExists, read_item.
  mforward. reflexivity.
Qed.

Lemma deactivateItem_again (env : Env) (iid : Z) (s : State) :
  msg_value env = 0 -> item_owner (items_at s iid) = msg_sender env ->
  iid <= _itemIds s -> item_isActive (items_at s iid) = false ->
  deactivateItem env iid s = Err (Revert "Item is not active").
Proof.
  intros Hv Ho Hid Hact.
  apply Z.eqb_eq in Hv. apply Z.eqb_eq in Ho. apply Z.leb_le in Hid.
  unfold deactivateItem, nonpayable, onlyItemOwner, itemExists.
  mforward. reflexivity.
Qed.

Lemma run_purchase (env : Env) (iid : Z) (s : State) :
  run env (PurchaseItem iid) s =
  match purchaseItem env iid s with Ok (_, s') => Ok s' | Err e => Err e end.
Proof. reflexivity. Qed.

Lemma failed_call_leaves_storage (env : Env) (c : Call) (s : State) (e : Failure) :
  run env c s = Err e -> transact env c s = s.
Proof. unfold transact. intros ->. reflexivity. Qed.

Lemma is_uint256b_spec (x : Z) : is_uint256b x = true -> is_uint256 x.
Proof. unfold is_uint256b, is_uint256. intros H. btop. lia. Qed.

Lemma valid_envb_spec (env : Env) : valid_envb env = true -> valid_env env.
Proof.
  unfold valid_envb, valid_env, is_address, is_uint256. intros H. btop. lia.
Qed.

Lemma valid_callb_spec (c : Call) : valid_callb c = true -> valid_call c.
Proof.
  destruct c; cbn; intros H; btop; repeat split;
    try (apply is_uint256b_spec; assumption); try exact I;
    unfold is_address; lia.
Qed.

Lemma run_all_reachable (txs : list (Env * Call)) (n : nat) (s s' : State) :
  reachable n s -> run_all txs s = Some s' -> reachable (n + length txs) s'.
Proof.
  revert n s. induction txs as [|[env c] rest IH]; intros n s Hr H; cbn in H.
  - inversion H; subst. rewrite Nat.add_0_r. exact Hr.
  - destruct (valid_envb env && valid_callb c) eqn:Hv; [|discriminate].
    apply andb_true_iff in Hv. destruct Hv as [He Hc].
    destruct (run env c s) as [s1|e] eqn:Hrun; [|discriminate].
    cbn [length]. rewrite <- Nat.add_succ_comm. apply (IH (S n) s1); [|exact H].
    eapply reach_step; eauto using valid_envb_spec, valid_callb_spec.
Qed.

Lemma after_reachable (txs : list (Env * Call)) (s : State) :
  run_all txs (deployed deployer) = Some s -> reachable (length txs) (after txs).
Proof.
  intros H. unfold after. rewrite H. cbn.
  apply (run_all_reachable txs 0 (deployed deployer) s); [|exact H].
  apply reach_deployed. unfold is_address, deployer, MAX_ADDRESS. lia.
Qed.

Lemma shop1_reachable : reachable 1 shop1.
Proof. eapply (after_reachable paperA_txs). vm_compute. reflexivity. Qed.

Lemma shop5_reachable : reachable 6 shop5.
Proof. eapply (after_reachable five_txs). vm_compute. reflexivity. Qed.

Lemma shop5_rented_reachable : reachable 7 shop5_rented.
Proof.
  eapply (after_reachable (five_txs ++ [(rent_env, RentItem 1 2000 131600)])).
  vm_compute. reflexivity.
Qed.

(** ** Deactivation *)

(** C1, counterexample: on the one-item shop, Alice (the owner) deactivates
    item 1 successfully; her second, identical call does not succeed like
    the first but is reverted with "Item is not active". *)
Lemma C1_counterexample :
  run (eoa alice 0 1001) (DeactivateItem 1) shop1 =
    Ok (transact (eoa alice 0 1001) (DeactivateItem 1) shop1) /\
  run (eoa alice 0 1001) (DeactivateItem 1)
      (transact (eoa alice 0 1001) (DeactivateItem 1) shop1) =
    Err (Revert "Item is not active").
Proof. vm_compute. split; reflexivity. Qed.

(** C1, as amended: after a successful [deactivateItem] the item is
    inactive; a second call by the same owner passes the owner gate but is
    reverted by the [itemExists] modifier with "Item is not active" (an
    outcome the first call did not have), and the item stays inactive. *)
Theorem C1_second_deactivate_reverts
    (env env2 : Env) (iid : Z) (s s' : State) (u : unit) :
  deactivateItem env iid s = Ok (u, s') ->
  msg_sender env2 = msg_sender env -> msg_value env2 = 0 ->
  item_isActive (items_at s' iid) = false /\
  item_owner (items_at s' iid) = msg_sender env2 /\
  deactivateItem env2 iid s' = Err (Revert "Item is not active") /\
  item_isActive (items_at (transact env2 (DeactivateItem iid) s') iid) = false.
Proof.
  intros H Hsender Hvalue.
  apply deactivateItem_effect in H.
  destruct H as ((_ & Hown & Hid & Hact) & [Hc _] & _ & _ & Hitems & _).
  assert (Hoff : item_isActive (items_at s' iid) = false).
  { unfold items_at. rewrite Hitems, lookup_insert_eq. reflexivity. }
  assert (Hown' : item_owner (items_at s' iid) = msg_sender env2).
  { unfold items_at at 1. rewrite Hitems, lookup_insert_eq. cbn. congruence. }
  assert (Hrev : deactivateItem env2 iid s' = Err (Revert "Item is not active")).
  { apply deactivateItem_again; auto. rewrite Hc. exact Hid. }
  repeat split; auto.
  unfold transact, run. cbn [dispatch]. rewrite Hrev. exact Hoff.
Qed.

Lemma C1_second_deactivate_reverts_witness :
  item_isActive
    (items_at (transact (eoa alice 0 1001) (DeactivateItem 1) shop1) 1) = false /\
  deactivateItem (eoa alice 0 1002) 1
    (transact (eoa alice 0 1001) (DeactivateItem 1) shop1) =
    Err (Revert "Item is not active").
Proof.
  destruct (C1_second_deactivate_reverts (eoa alice 0 1001) (eoa alice 0 1002) 1 shop1
              (transact (eoa alice 0 1001) (DeactivateItem 1) shop1) tt)
    as (H1 & _ & H2 & _).
  - vm_compute. reflexivity.
  - reflexivity.
  - reflexivity.
  - split; assumption.
Defined.

(** ** Purchase *)

(** C4: a [purchaseItem] call on an item whose price is 0, or with a
    payment below the price, fails (with "Item is not for sale",
    respectively "Insufficient payment", once the item exists and is
    active); and whenever the call fails, for these or any other reason,
    storage is what it was: the item's owner, its ownership history and the
    caller's item index are unchanged. *)
Theorem C4_purchase_failure_is_atomic (env : Env) (iid : Z) (s : State) :
  item_price (items_at s iid) = 0 \/
  msg_value env < item_price (items_at s iid) \/
  (exists e, run env (PurchaseItem iid) s = Err e) ->
  (exists e, run env (PurchaseItem iid) s = Err e) /\
  (_status s <> ENTERED -> iid <= _itemIds s -> item_isActive (items_at s iid) = true ->
   (item_price (items_at s iid) = 0 ->
    run env (PurchaseItem iid) s = Err (Revert "Item is not for sale")) /\
   (0 < item_price (items_at s iid) -> msg_value env < item_price (items_at s iid) ->
    run env (PurchaseItem iid) s = Err (Revert "Insufficient payment"))) /\
  transact env (PurchaseItem iid) s = s /\
  item_owner (items_at (transact env (PurchaseItem iid) s) iid) = item_owner (items_at s iid) /\
  getOwnershipHistory (transact env (PurchaseItem iid) s) iid = getOwnershipHistory s iid /\
  getUserItems (transact env (PurchaseItem iid) s) (msg_sender env) =
    getUserItems s (msg_sender env).
Proof.
  intros Hcase.
  assert (Hfail : exists e, run env (PurchaseItem iid) s = Err e).
  { destruct Hcase as [Hp|[Hp|Hp]]; [| |exact Hp];
      rewrite run_purchase;
      destruct (purchaseItem env iid s) as [[u s']|e] eqn:E; eauto;
      apply purchaseItem_effect in E; destruct E as ((_ & _ & Hpos & Hpay & _) & _); lia. }
  split; [exact Hfail|]. split.
  - intros Hst Hid Hact. split.
    + intros Hp. rewrite run_purchase, purchaseItem_not_for_sale; auto. lia.
    + intros Hp Hv. rewrite run_purchase, purchaseItem_insufficient; auto.
  - destruct Hfail as [e He].
    rewrite (failed_call_leaves_storage _ _ _ _ He). auto.
Qed.

Lemma C4_purchase_failure_is_atomic_witness :
  run (eoa bob 500 2000) (PurchaseItem 1) shopB = Err (Revert "Item is not for sale") /\
  run (eoa bob 99 2000) (PurchaseItem 1) shop1 = Err (Revert "Insufficient payment") /\
  transact (eoa bob 99 2000) (PurchaseItem 1) shop1 = shop1 /\
  run refusing_seller_env (PurchaseItem 1) shop1 = Err RevertNoData /\
  item_owner (items_at (transact refusing_seller_env (PurchaseItem 1) shop1) 1) = alice.
Proof.
  destruct (C4_purchase_failure_is_atomic (eoa bob 500 2000) 1 shopB) as (_ & HB & _).
  { left. reflexivity. }
  destruct (C4_purchase_failure_is_atomic (eoa bob 99 2000) 1 shop1) as (_ & H1 & H2 & _).
  { right. left. vm_compute. reflexivity. }
  destruct (C4_purchase_failure_is_atomic refusing_seller_env 1 shop1)
    as (_ & _ & _ & H3 & _).
  { right. right. exists RevertNoData. vm_compute. reflexivity. }
  split; [|split; [|split; [|split]]].
  - apply HB; [vm_compute; discriminate|vm_compute; discriminate|reflexivity|reflexivity].
  - apply H1; [vm_compute; discriminate|vm_compute; discriminate|reflexivity
              |vm_compute; reflexivity|vm_compute; reflexivity].
  - exact H2.
  - vm_compute. reflexivity.
  - rewrite H3. reflexivity.
Defined.

(** C5: a successful [purchaseItem] on item [iid] by caller [msg_sender env]
    makes [getOwnershipHistory iid] one entry longer; the new last entry
    carries the purchaser as owner and the item's price at purchase time;
    and the item's stored owner is the purchaser. *)
Theorem C5_purchase_records_ownership
    (env : Env) (iid : Z) (s s' : State) (u : unit) :
  purchaseItem env iid s = Ok (u, s') ->
  getOwnershipHistory s iid = Ok (history_at s iid) /\
  getOwnershipHistory s' iid = Ok (history_at s' iid) /\
  length (history_at s' iid) = S (length (history_at s iid)) /\
  last (history_at s' iid) =
    Some (mkOwnershipRecord (msg_sender env) (block_timestamp env)
            (item_price (items_at s iid))) /\
  item_price (items_at s' iid) = item_price (items_at s iid) /\
  item_owner (items_at s' iid) = msg_sender env.
Proof.
  intros H. apply purchaseItem_effect in H.
  destruct H as ((Hid & _) & [Hc _] & _ & Hitems & Hhist & _).
  apply Z.leb_le in Hid.
  assert (Hh : history_at s' iid =
               history_at s iid ++
                 [mkOwnershipRecord (msg_sender env) (block_timestamp env)
                    (item_price (items_at s iid))]).
  { unfold history_at at 1. rewrite Hhist, lookup_insert_eq. reflexivity. }
  unfold getOwnershipHistory. rewrite Hc, Hid, Hh.
  repeat split.
  - rewrite length_app. cbn. lia.
  - apply last_snoc.
  - unfold items_at at 1. rewrite Hitems, lookup_insert_eq. reflexivity.
  - unfold items_at at 1. rewrite Hitems, lookup_insert_eq. reflexivity.
Qed.

Lemma C5_purchase_records_ownership_witness :
  length (history_at (transact (eoa bob 100 2000) (PurchaseItem 1) shop1) 1) = 2%nat /\
  last (history_at (transact (eoa bob 100 2000) (PurchaseItem 1) shop1) 1) =
    Some (mkOwnershipRecord bob 2000 100) /\
  item_owner (items_at (transact (eoa bob 100 2000) (PurchaseItem 1) shop1) 1) = bob.
Proof.
  destruct (C5_purchase_records_ownership (eoa bob 100 2000) 1 shop1
              (transact (eoa bob 100 2000) (PurchaseItem 1) shop1) tt)
    as (_ & _ & H1 & H2 & _ & H3).
  - vm_compute. reflexivity.
  - split; [|split]; [exact H1|exact H2|exact H3].
Defined.

(** ** Rental *)

(** C6: for every successful [rentItem] call the amount stored in the new
    rental, the amount sent to the item's owner and the amount added to
    the item's revenue all equal
    floor((endTime - startTime) * rentalPrice / 86400), the payment
    covers it, and what was paid beyond it goes back to the caller; a call
    whose payment is below this cost fails.  With a rental price of 100 a
    day and a duration of 129600 seconds the cost is 150. *)
Theorem C6_rental_cost_is_truncated_daily_rate
    (env : Env) (iid st en : Z) (s : State) :
  let cost := ((en - st) * item_rentalPrice (items_at s iid)) / 86400 in
  (forall u s', rentItem env iid st en s = Ok (u, s') ->
     rentals s' !! getTotalRentals s' =
       Some (mkRental (getTotalRentals s') iid (msg_sender env) st en cost true) /\
     rental_amountPaid (rentals_at s' (getTotalRentals s')) = cost /\
     item_totalRevenue (items_at s' iid) = item_totalRevenue (items_at s iid) + cost /\
     cost <= msg_value env /\
     journal s' =
       journal s ++ Transfer (item_owner (items_at s iid)) cost ::
         (if cost <? msg_value env
          then [Transfer (msg_sender env) (msg_value env - cost)] else []) ++
         [Emit (ItemRented (getTotalRentals s') iid (msg_sender env) st en cost)]) /\
  (msg_value env < cost -> exists e, rentItem env iid st en s = Err e) /\
  rental_cost 129600 100 = 150.
Proof.
  cbv zeta. split; [|split].
  - intros u s' H. apply rentItem_effect in H. cbv zeta in H.
    unfold rental_cost, ONE_DAY in H.
    destruct H as ((_ & _ & _ & _ & _ & _ & _ & _ & Hpay) & _ & Hrid & _ &
                   Hitems & Hrent & _ & Hj).
    unfold getTotalRentals, rentals_at. rewrite Hrid, Hrent, lookup_insert_eq.
    repeat split; auto.
    unfold items_at at 1. rewrite Hitems, lookup_insert_eq. reflexivity.
  - intros Hlow. destruct (rentItem env iid st en s) as [[u s']|e] eqn:E; eauto.
    apply rentItem_effect in E. cbv zeta in E. unfold rental_cost, ONE_DAY in E.
    destruct E as ((_ & _ & _ & _ & _ & _ & _ & _ & Hpay) & _). lia.
  - reflexivity.
Qed.

Lemma C6_rental_cost_is_truncated_daily_rate_witness :
  rental_amountPaid (rentals_at shop5_rented 1) = 150 /\
  (exists e, rentItem (eoa bob 149 2000) 1 2000 131600 shop5 = Err e).
Proof.
  destruct (C6_rental_cost_is_truncated_daily_rate rent_env 1 2000 131600 shop5)
    as (Hok & _).
  destruct (Hok tt shop5_rented) as (_ & Hpaid & _).
  { vm_compute. reflexivity. }
  destruct (C6_rental_cost_is_truncated_daily_rate (eoa bob 149 2000) 1 2000 131600 shop5)
    as (_ & Hlow & _).
  split.
  - exact Hpaid.
  - apply Hlow. vm_compute. reflexivity.
Defined.

(** ** Active rentals *)

Lemma hasActiveRental_scan_true (s : State) (now iid : Z) (l : list Z) :
  hasActiveRental_scan s now iid l = true <->
  exists rid, rid ∈ l /\ rental_matches now iid (rentals_at s rid) = true.
Proof.
  induction l as [|r l IH]; cbn.
  - split; [discriminate|]. intros (rid & Hin & _). inversion Hin.
  - destruct (rental_matches now iid (rentals_at s r)) eqn:E.
    + split; [|reflexivity]. intros _. exists r. split; [left|exact E].
    + rewrite IH. split.
      * intros (rid & Hin & Hm). exists rid. split; [right; exact Hin|exact Hm].
      * intros (rid & Hin & Hm). apply elem_of_cons in Hin.
        destruct Hin as [->|Hin]; [congruence|]. exists rid. auto.
Qed.

Lemma rental_matches_active (now iid : Z) (rt : Rental) :
  rental_isActive rt = true -> rental_matches now iid rt = in_window now iid rt.
Proof.
  unfold rental_matches, in_window. intros ->. rewrite andb_true_r. reflexivity.
Qed.

Lemma in_window_spec (now iid : Z) (rt : Rental) :
  in_window now iid rt = true <->
  rental_itemId rt = iid /\ rental_startTime rt <= now <= rental_endTime rt.
Proof.
  unfold in_window. rewrite !andb_true_iff, Z.eqb_eq, !Z.leb_le. tauto.
Qed.

(** C3: in every storage reached by fewer than 2^256 transactions, every
    stored rental carries the active flag it was created with, so the
    check of that flag in [hasActiveRental] never decides anything:
    [hasActiveRental] agrees with the scan that looks at the time window
    alone, and it answers true exactly when some rental of the item made
    by the user has the current time within its stored interval. *)
Theorem C3_hasActiveRental_is_time_window
    (n : nat) (s : State) (now iid user : Z) :
  reachable n s -> Z.of_nat n <= MAX_UINT256 ->
  (forall rid rt, rentals s !! rid = Some rt -> rental_isActive rt = true) /\
  hasActiveRental s now iid user = hasActiveRental_by_window s now iid user /\
  (hasActiveRental s now iid user = true <->
   exists rid rt,
     rentals s !! rid = Some rt /\ rental_renter rt = user /\ rental_itemId rt = iid /\
     rental_startTime rt <= now <= rental_endTime rt).
Proof.
  intros Hreach Hn.
  destruct (reachable_ledger_inv n s Hreach Hn) as [_ _ _ Hre Hur].
  assert (Hstored : forall rid, rid ∈ userRentals_at s user ->
            exists rt, rentals s !! rid = Some rt /\ rentals_at s rid = rt /\
                       rental_renter rt = user /\ rental_isActive rt = true).
  { intros rid Hin. apply Hur in Hin. destruct Hin as (rt & Hrt & Hren).
    exists rt. unfold rentals_at. rewrite Hrt. cbn.
    destruct (Hre rid rt Hrt) as (_ & _ & Hact). auto. }
  split; [|split].
  - intros rid rt Hrt. apply (Hre rid rt Hrt).
  - unfold hasActiveRental, hasActiveRental_by_window.
    induction (userRentals_at s user) as [|r l IH]; [reflexivity|].
    cbn. destruct (Hstored r) as (rt & _ & -> & _ & Hact); [left|].
    rewrite (rental_matches_active _ _ _ Hact).
    destruct (in_window now iid rt); [reflexivity|].
    cbn. apply IH. intros rid Hin. apply Hstored. right. exact Hin.
  - unfold hasActiveRental. rewrite hasActiveRental_scan_true. split.
    + intros (rid & Hin & Hm). destruct (Hstored rid Hin) as (rt & Hrt & Heq & Hren & Hact).
      rewrite Heq, (rental_matches_active _ _ _ Hact) in Hm.
      apply in_window_spec in Hm. exists rid, rt. tauto.
    + intros (rid & rt & Hrt & Hren & Hitem & Hwin).
      exists rid. split.
      * apply Hur. exists rt. auto.
      * unfold rentals_at. rewrite Hrt. cbn.
        destruct (Hre rid rt Hrt) as (_ & _ & Hact).
        rewrite (rental_matches_active _ _ _ Hact). apply in_window_spec. auto.
Qed.

Lemma C3_hasActiveRental_is_time_window_witness :
  hasActiveRental shop5_rented 2000 1 bob = true /\
  hasActiveRental shop5_rented 131600 1 bob = true /\
  hasActiveRental shop5_rented 131601 1 bob = false /\
  hasActiveRental shop5_rented 131601 1 bob =
    hasActiveRental_by_window shop5_rented 131601 1 bob.
Proof.
  destruct (C3_hasActiveRental_is_time_window 7 shop5_rented 131601 1 bob)
    as (_ & H & _).
  - exact shop5_rented_reachable.
  - vm_compute. discriminate.
  - split; [|split; [|split]]; [reflexivity|reflexivity|reflexivity|exact H].
Defined.

(** ** Identifier 0 *)

(** C10: [getItem 0] and [getRental 0] never fail with a not-found error:
    the bound check [id <= counter] lets identifier 0 through, and since
    identifiers are handed out from 1 on, nothing was ever stored under 0,
    so the zero-valued record comes back (zero owner or renter, all
    numbers 0, empty strings, inactive).  This holds in every storage
    reached by fewer than 2^256 transactions. *)
Theorem C10_identifier_zero_reads_default (n : nat) (s : State) :
  reachable n s -> Z.of_nat n <= MAX_UINT256 ->
  getItem s 0 = Ok zero_item /\ getRental s 0 = Ok zero_rental /\
  item_owner zero_item = 0 /\ item_isActive zero_item = false /\
  rental_renter zero_rental = 0 /\ rental_isActive zero_rental = false.
Proof.
  intros Hreach Hn.
  destruct (reachable_ledger_inv n s Hreach Hn) as [Hi Hr Hit Hre _].
  unfold getItem, getRental, items_at, rentals_at.
  destruct (Z.leb_spec 0 (_itemIds s)); [|lia].
  destruct (Z.leb_spec 0 (_rentalIds s)); [|lia].
  destruct (items s !! 0) as [it|] eqn:E1.
  { destruct (Hit 0 it E1). lia. }
  destruct (rentals s !! 0) as [rt|] eqn:E2.
  { destruct (Hre 0 rt E2). lia. }
  cbn. repeat split; reflexivity.
Qed.

Lemma C10_identifier_zero_reads_default_witness :
  getItem shop5_rented 0 = Ok zero_item /\ getRental shop5_rented 0 = Ok zero_rental.
Proof.
  destruct (C10_identifier_zero_reads_default 7 shop5_rented) as (H1 & H2 & _).
  - exact shop5_rented_reachable.
  - vm_compute. discriminate.
  - split; assumption.
Defined.

(** ** The per-account item index *)

Lemma later_keeps_index (s s' : State) (a i : Z) :
  later s s' -> i ∈ userItems_at s a -> i ∈ userItems_at s' a.
Proof.
  induction 1 as [|s1 s2 env c _ IH Hrun]; intros Hin; [exact Hin|].
  destruct (userItems_at_grows s1 s2 a (run_ledger_step _ _ _ _ Hrun)) as [k ->].
  apply elem_of_app. left. apply IH. exact Hin.
Qed.

(** C9: if account [A] owned item [I] at some point of the contract's life
    and, any number of successful calls later, another account buys [I],
    then [I] is still listed in [getUserItems A] after the purchase; the
    purchase appends [I] to the buyer's list, and the list of every account
    other than the buyer is exactly what it was. *)
Theorem C9_purchase_never_unlists_past_owner
    (n : nat) (s0 s s' : State) (A iid : Z) (env : Env) (u : unit) :
  reachable n s0 ->
  is_Some (items s0 !! iid) -> item_owner (items_at s0 iid) = A ->
  later s0 s ->
  purchaseItem env iid s = Ok (u, s') -> msg_sender env <> A ->
  iid ∈ getUserItems s' A /\
  getUserItems s' (msg_sender env) = getUserItems s (msg_sender env) ++ [iid] /\
  (forall B, B <> msg_sender env -> getUserItems s' B = getUserItems s B).
Proof.
  intros Hreach [it Hit] Hown Hlater Hbuy Hother.
  assert (Hidx0 : iid ∈ userItems_at s0 A).
  { destruct (reachable_index_inv n s0 Hreach) as [Hidx _].
    specialize (Hidx iid it Hit). unfold items_at in Hown. rewrite Hit in Hown.
    cbn in Hown. rewrite Hown in Hidx. exact Hidx. }
  assert (Hidx : iid ∈ userItems_at s A) by (eapply later_keeps_index; eauto).
  apply purchaseItem_effect in Hbuy.
  destruct Hbuy as (_ & _ & _ & _ & _ & Hu).
  assert (Hframe : forall B, B <> msg_sender env -> userItems_at s' B = userItems_at s B).
  { intros B HB. unfold userItems_at. rewrite Hu, lookup_insert_ne by congruence.
    reflexivity. }
  unfold getUserItems. split; [|split].
  - rewrite Hframe by congruence. exact Hidx.
  - unfold userItems_at at 1. rewrite Hu, lookup_insert_eq. reflexivity.
  - exact Hframe.
Qed.

Lemma C9_purchase_never_unlists_past_owner_witness :
  getUserItems (transact (eoa carol 100 3000) (PurchaseItem 1) shop1_sold) alice = [1] /\
  1 ∈ getUserItems (transact (eoa carol 100 3000) (PurchaseItem 1) shop1_sold) alice /\
  getUserItems (transact (eoa carol 100 3000) (PurchaseItem 1) shop1_sold) carol = [1] /\
  item_owner (items_at (transact (eoa carol 100 3000) (PurchaseItem 1) shop1_sold) 1) = carol.
Proof.
  destruct (C9_purchase_never_unlists_past_owner 1 shop1 shop1_sold
              (transact (eoa carol 100 3000) (PurchaseItem 1) shop1_sold)
              alice 1 (eoa carol 100 3000) tt) as (H1 & H2 & _).
  - exact shop1_reachable.
  - vm_compute. eauto.
  - reflexivity.
  - eapply later_call with (env := eoa bob 100 2000) (c := PurchaseItem 1).
    + apply later_now.
    + vm_compute. reflexivity.
  - vm_compute. reflexivity.
  - vm_compute. discriminate.
  - split; [reflexivity|]. split; [exact H1|]. split; [exact H2|reflexivity].
Defined.

(** ** Item identifiers *)

Lemma transact_keeps_itemIds (env : Env) (c : Call) (s : State) :
  match c with CreateItem _ _ _ _ _ => False | _ => True end ->
  _itemIds (transact env c s) = _itemIds s.
Proof.
  intros Hc. unfold transact.
  destruct (run env c s) as [s'|e] eqn:Hrun; [|reflexivity].
  destruct c; try contradiction;
    try (apply (admin_effect env) in Hrun; [|exact I];
         destruct Hrun as ([? _] & _); assumption);
    unfold run in Hrun; cbn [dispatch] in Hrun;
    match type of Hrun with
    | match ?m with _ => _ end = _ => destruct m as [[u s1]|e] eqn:Hd; [|discriminate]
    end; inversion Hrun; subst s1.
  - apply purchaseItem_effect in Hd. destruct Hd as (_ & [? _] & _). assumption.
  - apply rentItem_effect in Hd. cbv zeta in Hd. destruct Hd as (_ & ? & _). assumption.
  - apply updateItemPrices_effect in Hd. destruct Hd as (_ & [? _] & _). assumption.
  - apply deactivateItem_effect in Hd. destruct Hd as (_ & [? _] & _). assumption.
Qed.

Lemma created_ids_from (txs : list (Env * Call)) (s : State) :
  0 <= _itemIds s -> _itemIds s + Z.of_nat (length txs) <= MAX_UINT256 ->
  fst (created_ids txs s) =
    seqZ (_itemIds s + 1) (Z.of_nat (length (fst (created_ids txs s)))) /\
  _itemIds (snd (created_ids txs s)) =
    _itemIds s + Z.of_nat (length (fst (created_ids txs s))) /\
  (length (fst (created_ids txs s)) <= length txs)%nat.
Proof.
  revert s. induction txs as [|[env c] rest IH]; intros s H0 Hmax.
  - cbn. split; [reflexivity|]. split; [lia|lia].
  - cbn [length] in Hmax.
    assert (Hskip : forall s1, _itemIds s1 = _itemIds s ->
              fst (created_ids rest s1) =
                seqZ (_itemIds s + 1) (Z.of_nat (length (fst (created_ids rest s1)))) /\
              _itemIds (snd (created_ids rest s1)) =
                _itemIds s + Z.of_nat (length (fst (created_ids rest s1))) /\
              (length (fst (created_ids rest s1)) <= S (length rest))%nat).
    { intros s1 Heq. destruct (IH s1) as (H1 & H2 & H3); [lia|lia|].
      rewrite Heq in H1, H2. split; [exact H1|]. split; [exact H2|lia]. }
    destruct c; cbn [created_ids length];
      try (apply Hskip; apply transact_keeps_itemIds; exact I).
    destruct (createItem env _title _description _blobId _price _rentalPrice s)
      as [[newId s1]|e] eqn:Hc; [|apply Hskip; reflexivity].
    apply createItem_effect in Hc. destruct Hc as (Hnew & Hid & _).
    rewrite Counters_increment_small in Hnew by lia.
    destruct (IH s1) as (H1 & H2 & H3); [lia|lia|].
    cbn [fst snd length]. rewrite Hid, Hnew in H1, H2.
    split; [|split; [|lia]].
    + rewrite Nat2Z.inj_succ, seqZ_cons by lia.
      rewrite Z.pred_succ. unfold Z.succ. rewrite Hnew. f_equal. exact H1.
    + rewrite H2. lia.
Qed.

(** C8: replaying any sequence of fewer than 2^256 transactions on a
    freshly deployed contract, the identifiers returned by the successful
    [createItem] calls are 1, 2, ..., k in this order (each one more than
    the total before the call), and [getTotalItems] then answers k, the
    number of [createItem] calls that succeeded. *)
Theorem C8_item_identifiers_count_up (txs : list (Env * Call)) (d : Z) :
  Z.of_nat (length txs) <= MAX_UINT256 ->
  fst (created_ids txs (deployed d)) =
    seqZ 1 (Z.of_nat (length (fst (created_ids txs (deployed d))))) /\
  getTotalItems (snd (created_ids txs (deployed d))) =
    Z.of_nat (length (fst (created_ids txs (deployed d)))).
Proof.
  intros Hlen.
  destruct (created_ids_from txs (deployed d)) as (H1 & H2 & _); cbn; [lia|lia|].
  cbn in H1, H2. split; assumption.
Qed.

Lemma C8_item_identifiers_count_up_witness :
  fst (created_ids mixed_txs (deployed deployer)) = [1; 2; 3] /\
  getTotalItems (snd (created_ids mixed_txs (deployed deployer))) = 3.
Proof.
  destruct (C8_item_identifiers_count_up mixed_txs deployer) as (H1 & H2).
  - vm_compute. discriminate.
  - split.
    + rewrite H1. vm_compute. reflexivity.
    + rewrite H2. vm_compute. reflexivity.
Defined.

(** ** Paging through the active items *)

Lemma checked_add_small (a b : Z) : a + b <= MAX_UINT256 -> checked_add a b = Ok (a + b).
Proof. unfold checked_add. intros H. apply Z.leb_le in H. rewrite H. reflexivity. Qed.

Lemma checked_add_big (a b : Z) :
  MAX_UINT256 < a + b -> checked_add a b = Err (Panic PANIC_OVERFLOW).
Proof. unfold checked_add. intros H. apply Z.leb_gt in H. rewrite H. reflexivity. Qed.

Lemma array_store_in_range {A} (a : list A) (k : nat) (x : A) :
  (k < length a)%nat -> array_store a (Z.of_nat k) x = Ok (<[k := x]> a).
Proof.
  unfold array_store. intros H.
  destruct (Z.ltb_spec (Z.of_nat k) (Z.of_nat (length a))); [|lia].
  rewrite Nat2Z.id. reflexivity.
Qed.

Lemma seqZ_succ (i : Z) (n : nat) :
  seqZ i (Z.of_nat (S n)) = i :: seqZ (i + 1) (Z.of_nat n).
Proof. rewrite Nat2Z.inj_succ, seqZ_cons by lia. rewrite Z.pred_succ. reflexivity. Qed.

(** The first loop leaves the active items of the window, in order, in the
    first [count] slots. *)
Lemma collect_active_spec (s : State) (trips : nat) :
  forall (i : Z) (a : list IPItem) (k : nat),
    (k + trips <= length a)%nat -> Z.of_nat (length a) <= MAX_UINT256 ->
    i + Z.of_nat trips <= MAX_UINT256 ->
    let found := List.filter item_isActive (map (items_at s) (seqZ i (Z.of_nat trips))) in
    exists a',
      collect_active s trips i a (Z.of_nat k) = Ok (a', Z.of_nat (k + length found)) /\
      length a' = length a /\
      take (k + length found) a' = take k a ++ found.
Proof.
  induction trips as [|trips IH]; intros i a k Hk Hlen Hi; cbv zeta.
  - cbn. exists a. rewrite Nat.add_0_r, app_nil_r. auto.
  - rewrite seqZ_succ. cbn [map List.filter collect_active].
    rewrite (checked_add_small i 1) by lia. cbn [rbind].
    destruct (item_isActive (items_at s i)) eqn:Hact.
    + rewrite array_store_in_range by lia. cbn [rbind].
      rewrite checked_add_small by lia. cbn [rbind].
      replace (Z.of_nat k + 1) with (Z.of_nat (S k)) by lia.
      destruct (IH (i + 1) (<[k := items_at s i]> a) (S k)) as (a' & Hrun & Hl & Ht).
      { rewrite length_insert. lia. }
      { rewrite length_insert. exact Hlen. }
      { lia. }
      cbv zeta in Hrun, Ht. exists a'. cbn [length].
      rewrite Nat.add_succ_r. split; [exact Hrun|]. split.
      * rewrite Hl. apply length_insert.
      * cbn [Nat.add] in Ht. rewrite Ht.
        rewrite (take_S_r _ _ (items_at s i)).
        -- rewrite take_insert_ge by lia. rewrite <- app_assoc. reflexivity.
        -- apply list_lookup_insert_eq. lia.
    + destruct (IH (i + 1) a k) as (a' & Hrun & Hl & Ht); [lia|lia|lia|].
      exists a'. auto.
Qed.

(** The second loop copies slots [i .. i + trips - 1]. *)
Lemma copy_prefix_spec (trips : nat) :
  forall (i : nat) (a res : list IPItem),
    (i + trips <= length a)%nat -> (i + trips <= length res)%nat ->
    Z.of_nat (length res) <= MAX_UINT256 ->
    exists res',
      copy_prefix trips (Z.of_nat i) a res = Ok res' /\
      length res' = length res /\
      take (i + trips) res' = take i res ++ take trips (drop i a).
Proof.
  induction trips as [|trips IH]; intros i a res Ha Hres Hmax.
  - cbn. exists res. rewrite Nat.add_0_r, app_nil_r. auto.
  - cbn [copy_prefix]. unfold array_load. rewrite Nat2Z.id.
    destruct (a !! i) as [x|] eqn:Hx.
    2:{ apply lookup_ge_None in Hx. lia. }
    cbn [rbind]. rewrite array_store_in_range by lia. cbn [rbind].
    rewrite checked_add_small by lia. cbn [rbind].
    replace (Z.of_nat i + 1) with (Z.of_nat (S i)) by lia.
    destruct (IH (S i) a (<[i := x]> res)) as (res' & Hrun & Hl & Ht).
    { lia. }
    { rewrite length_insert. lia. }
    { rewrite length_insert. exact Hmax. }
    exists res'. rewrite Nat.add_succ_r. split; [exact Hrun|]. split.
    + rewrite Hl. apply length_insert.
    + cbn [Nat.add] in Ht. rewrite Ht.
      rewrite (take_S_r _ _ x) by (apply list_lookup_insert_eq; lia).
      rewrite take_insert_ge by lia.
      rewrite (drop_S a x i Hx). cbn [take]. rewrite <- app_assoc. reflexivity.
Qed.

Lemma getActiveItems_in_range (s : State) (offset limit : Z) :
  0 <= offset -> 0 <= limit -> _itemIds s < MAX_UINT256 ->
  offset < _itemIds s -> offset + limit <= MAX_UINT256 ->
  getActiveItems s offset limit =
    Ok (List.filter item_isActive (map (items_at s) (page_window s offset limit))).
Proof.
  intros Ho Hl Htot Hlt Hsum. unfold getActiveItems, page_window.
  destruct (Z.ltb_spec offset (_itemIds s)); [|lia]. cbn [negb].
  rewrite checked_add_small by exact Hsum. cbn [rbind].
  set (end_ := if _itemIds s <? offset + limit then _itemIds s else offset + limit).
  assert (Hend : end_ = Z.min (offset + limit) (_itemIds s)).
  { subst end_. destruct (Z.ltb_spec (_itemIds s) (offset + limit)); lia. }
  rewrite <- Hend.
  assert (Hge : offset <= end_) by lia.
  unfold checked_sub. apply Z.leb_le in Hge. rewrite Hge. apply Z.leb_le in Hge.
  cbn [rbind]. rewrite checked_add_small by lia. cbn [rbind].
  set (len := Z.to_nat (end_ - offset)).
  destruct (collect_active_spec s len (offset + 1) (replicate len zero_item) 0)
    as (a' & Hrun & Hlen & Htake).
  { rewrite length_replicate. lia. }
  { rewrite length_replicate. lia. }
  { lia. }
  cbv zeta in Hrun, Htake. cbn [Nat.add Z.of_nat] in Hrun.
  change (Z.of_nat 0) with 0 in Hrun. rewrite Hrun. cbn [rbind].
  replace (Z.of_nat len) with (end_ - offset) in * by lia.
  set (found := List.filter item_isActive
                  (map (items_at s) (seqZ (offset + 1) (end_ - offset)))) in *.
  rewrite Nat2Z.id.
  assert (Hfound : (length found <= len)%nat).
  { subst found. etransitivity; [apply List.filter_length_le|].
    rewrite length_map, length_seqZ. lia. }
  destruct (copy_prefix_spec (length found) 0 a' (replicate (length found) zero_item))
    as (res & Hcopy & Hrl & Hrt).
  { rewrite Hlen, length_replicate. lia. }
  { rewrite length_replicate. lia. }
  { rewrite length_replicate. lia. }
  change (Z.of_nat 0) with 0 in Hcopy. rewrite Hcopy. f_equal.
  cbn [Nat.add take drop app] in Hrt, Htake.
  rewrite length_replicate in Hrl.
  rewrite <- (firstn_all res), Hrl.
  change (firstn (length found) res) with (take (length found) res).
  rewrite Hrt. exact Htake.
Qed.

(** C7, counterexample: with five items and offset 1 (below the total), a
    limit of 2^256 - 1 makes the checked addition [_offset + _limit]
    overflow, so the call is reverted instead of returning the active items
    of the window 2..5. *)
Lemma C7_counterexample :
  1 < getTotalItems shop5 /\
  getActiveItems shop5 1 MAX_UINT256 = Err (Panic PANIC_OVERFLOW).
Proof. vm_compute. split; reflexivity. Qed.

(** C7, as amended: [getActiveItems offset limit] fails whenever offset >=
    total item count, and also when offset + limit does not fit in 256
    bits; otherwise it scans exactly the identifiers
    offset+1 .. min(offset+limit, total) and returns, in identifier order,
    the active items among them, so the result holds at most [limit] items
    and can hold fewer; over items 1..5 with item 3 deactivated,
    [getActiveItems 0 5] returns the four items 1, 2, 4, 5.  (Stated for
    storage holding fewer than 2^256 - 1 items.) *)
Theorem C7_getActiveItems_pages_over_identifiers (s : State) (offset limit : Z) :
  0 <= offset -> 0 <= limit -> getTotalItems s < MAX_UINT256 ->
  (getTotalItems s <= offset ->
   getActiveItems s offset limit = Err (Revert "Offset out of bounds")) /\
  (offset < getTotalItems s -> MAX_UINT256 < offset + limit ->
   getActiveItems s offset limit = Err (Panic PANIC_OVERFLOW)) /\
  (offset < getTotalItems s -> offset + limit <= MAX_UINT256 ->
   getActiveItems s offset limit =
     Ok (List.filter item_isActive (map (items_at s) (page_window s offset limit))) /\
   Z.of_nat (length (List.filter item_isActive
                       (map (items_at s) (page_window s offset limit)))) <= limit) /\
  (getTotalItems s = 5 ->
   item_isActive (items_at s 1) = true -> item_isActive (items_at s 2) = true ->
   item_isActive (items_at s 3) = false ->
   item_isActive (items_at s 4) = true -> item_isActive (items_at s 5) = true ->
   getActiveItems s 0 5 = Ok [items_at s 1; items_at s 2; items_at s 4; items_at s 5]).
Proof.
  unfold getTotalItems. intros Ho Hl Htot. split; [|split; [|split]].
  - intros Hge. unfold getActiveItems.
    destruct (Z.ltb_spec offset (_itemIds s)); [lia|]. reflexivity.
  - intros Hlt Hbig. unfold getActiveItems.
    destruct (Z.ltb_spec offset (_itemIds s)); [|lia]. cbn [negb].
    rewrite checked_add_big by exact Hbig. reflexivity.
  - intros Hlt Hsum. split.
    + apply getActiveItems_in_range; assumption.
    + etransitivity; [apply inj_le, List.filter_length_le|].
      unfold page_window. rewrite length_map, length_seqZ. lia.
  - intros H5 H1 H2 H3 H4 H6.
    rewrite getActiveItems_in_range by (unfold MAX_UINT256 in *; lia).
    unfold page_window. rewrite H5.
    change (seqZ (0 + 1) (Z.min (0 + 5) 5 - 0)) with [1; 2; 3; 4; 5].
    cbn [map List.filter]. rewrite H1, H2, H3, H4, H6. reflexivity.
Qed.

Lemma C7_getActiveItems_pages_over_identifiers_witness :
  getActiveItems shop5 0 5 =
    Ok [items_at shop5 1; items_at shop5 2; items_at shop5 4; items_at shop5 5] /\
  getActiveItems shop5 1 3 = Ok [items_at shop5 2; items_at shop5 4] /\
  getActiveItems shop5 5 3 = Err (Revert "Offset out of bounds").
Proof.
  destruct (C7_getActiveItems_pages_over_identifiers shop5 0 5)
    as (_ & _ & _ & Hfive); [lia|lia|vm_compute; reflexivity|].
  destruct (C7_getActiveItems_pages_over_identifiers shop5 1 3)
    as (_ & _ & Hpage & _); [lia|lia|vm_compute; reflexivity|].
  destruct (C7_getActiveItems_pages_over_identifiers shop5 5 3)
    as (Hout & _); [lia|lia|vm_compute; reflexivity|].
  split; [|split].
  - apply Hfive; reflexivity.
  - destruct Hpage as [Hpage _]; [vm_compute; reflexivity|vm_compute; discriminate|].
    rewrite Hpage. vm_compute. reflexivity.
  - apply Hout. vm_compute. discriminate.
Defined.

(** ** The client's read accessors *)

(** C2, counterexample: on a node that cannot be reached, [getItem],
    [getRental], [getOwnershipHistory] and [getItemRenters] hand the
    failure on to their caller; and [getItem] of an identifier that does
    not exist fails with the revert of the contract. *)
Lemma C2_counterexample :
  ContractService.getItem pretty (unreachable "network down") 1 =
    Rejected (TransportError "network down") /\
  ContractService.getRental pretty (unreachable "network down") 1 =
    Rejected (TransportError "network down") /\
  ContractService.getOwnershipHistory pretty (unreachable "network down") 1 =
    Rejected (TransportError "network down") /\
  ContractService.getItemRenters pretty (unreachable "network down") 1 =
    Rejected (TransportError "network down") /\
  ContractService.getItem pretty (live shop1 5000) 2 =
    Rejected (CallException (Revert "Item does not exist")).
Proof. repeat split; reflexivity. Qed.

(** C2, as amended: the accessors [getActiveItems], [getUserItems],
    [getUserRentals], [hasActiveRental], [getTotalItems] and
    [getTotalRentals] answer an empty list, [false] or 0 when the
    underlying call fails, whatever the failure; [getItem], [getRental],
    [getOwnershipHistory] and [getItemRenters] have no handler and pass the
    failure on to the caller unchanged. *)
Theorem C2_read_accessors_on_failure
    (format_address : Z -> string) (contract : Contract) (e : JsError)
    (offset limit : option Z) (id user : Z) :
  (contract_getActiveItems contract (default 0 offset) (default 20 limit) = Rejected e ->
   ContractService.getActiveItems format_address contract offset limit = Resolved []) /\
  (contract_getUserItems contract user = Rejected e ->
   ContractService.getUserItems contract user = Resolved []) /\
  (contract_getUserRentals contract user = Rejected e ->
   ContractService.getUserRentals contract user = Resolved []) /\
  (contract_hasActiveRental contract id user = Rejected e ->
   ContractService.hasActiveRental contract id user = Resolved false) /\
  (contract_getTotalItems contract = Rejected e ->
   ContractService.getTotalItems contract = Resolved 0) /\
  (contract_getTotalRentals contract = Rejected e ->
   ContractService.getTotalRentals contract = Resolved 0) /\
  (contract_getItem contract id = Rejected e ->
   ContractService.getItem format_address contract id = Rejected e) /\
  (contract_getRental contract id = Rejected e ->
   ContractService.getRental format_address contract id = Rejected e) /\
  (contract_getOwnershipHistory contract id = Rejected e ->
   ContractService.getOwnershipHistory format_address contract id = Rejected e) /\
  (contract_getItemRenters contract id = Rejected e ->
   ContractService.getItemRenters format_address contract id = Rejected e).
Proof.
  unfold ContractService.getActiveItems, ContractService.getUserItems,
    ContractService.getUserRentals, ContractService.hasActiveRental,
    ContractService.getTotalItems, ContractService.getTotalRentals,
    ContractService.getItem, ContractService.getRental,
    ContractService.getOwnershipHistory, ContractService.getItemRenters.
  repeat split; intros ->; reflexivity.
Qed.

Lemma C2_read_accessors_on_failure_witness :
  ContractService.getActiveItems pretty (unreachable "network down") None None =
    Resolved [] /\
  ContractService.getTotalItems (unreachable "network down") = Resolved 0 /\
  ContractService.getActiveItems pretty (live shop5 5000) (Some 5) (Some 3) =
    Resolved [] /\
  ContractService.getOwnershipHistory pretty (live shop5 5000) 9 =
    Rejected (CallException (Revert "Item does not exist")).
Proof.
  destruct (C2_read_accessors_on_failure pretty (unreachable "network down")
              (TransportError "network down") None None 1 alice)
    as (H1 & _ & _ & _ & H2 & _).
  destruct (C2_read_accessors_on_failure pretty (live shop5 5000)
              (CallException (Revert "Offset out of bounds")) (Some 5) (Some 3) 9 alice)
    as (H3 & _).
  destruct (C2_read_accessors_on_failure pretty (live shop5 5000)
              (CallException (Revert "Item does not exist")) None None 9 alice)
    as (_ & _ & _ & _ & _ & _ & _ & _ & H4 & _).
  split; [|split; [|split]].
  - apply H1. reflexivity.
  - apply H2. reflexivity.
  - apply H3. vm_compute. reflexivity.
  - apply H4. vm_compute. reflexivity.
Defined.

(** * Further properties of the contract *)

(** ** Storage after each successful call, field by field *)

Lemma State_ext (a b : State) :
  _status a = _status b -> _owner a = _owner b -> _itemIds a = _itemIds b ->
  _rentalIds a = _rentalIds b -> items a = items b -> rentals a = rentals b ->
  ownershipHistory a = ownershipHistory b -> userItems a = userItems b ->
  userRentals a = userRentals b -> hasRented a = hasRented b ->
  itemRenters a = itemRenters b -> balance a = balance b -> journal a = journal b ->
  a = b.
Proof. destruct a, b. cbn. intros. subst. reflexivity. Qed.

(** Compares two storages field by field. *)
Ltac sflat :=
  apply State_ext;
  cbn [_status _owner _itemIds _rentalIds items rentals ownershipHistory
       userItems userRentals hasRented itemRenters balance journal
       set_status set_owner set_itemIds set_rentalIds set_items set_rentals
       set_ownershipHistory set_userItems set_userRentals set_hasRented
       set_itemRenters set_balance set_journal].

Lemma createItem_post (env : Env) (t d b : string) (p rp : Z) (s s' : State) (newId : Z) :
  createItem env t d b p rp s = Ok (newId, s') ->
  newId = Counters_increment (_itemIds s) /\
  s' = mkState (_status s) (_owner s) newId (_rentalIds s)
         (<[newId := mkIPItem newId t d b (msg_sender env) p rp true
                       (block_timestamp env) 0 0]> (items s))
         (rentals s)
         (<[newId := history_at s newId ++
                       [mkOwnershipRecord (msg_sender env) (block_timestamp env) 0]]>
            (ownershipHistory s))
         (<[msg_sender env := userItems_at s (msg_sender env) ++ [newId]]> (userItems s))
         (userRentals s) (hasRented s) (itemRenters s) (balance s)
         (journal s ++ [Emit (ItemCreated newId t b (msg_sender env) p rp)]).
Proof.
  intros H. unfold createItem in H. minv H. split; reflexivity.
Qed.

Lemma purchaseItem_post (env : Env) (iid : Z) (s s' : State) (u : unit) :
  purchaseItem env iid s = Ok (u, s') ->
  let it := items_at s iid in
  let payout := if item_owner it =? 0 then [] else [Transfer (item_owner it) (item_price it)] in
  let refund := if item_price it <? msg_value env
                then [Transfer (msg_sender env) (msg_value env - item_price it)] else [] in
  s' = mkState NOT_ENTERED (_owner s) (_itemIds s) (_rentalIds s)
         (<[iid := item_with_owner (msg_sender env) it]> (items s))
         (rentals s)
         (<[iid := history_at s iid ++
                     [mkOwnershipRecord (msg_sender env) (block_timestamp env)
                        (item_price it)]]> (ownershipHistory s))
         (<[msg_sender env := userItems_at s (msg_sender env) ++ [iid]]> (userItems s))
         (userRentals s) (hasRented s) (itemRenters s)
         (if item_owner it =? 0 then balance s + item_price it else balance s)
         (journal s ++ payout ++ refund ++
            [Emit (ItemPurchased iid (item_owner it) (msg_sender env) (item_price it))]).
Proof.
  intros H. unfold purchaseItem in H. minv H.
  all: cbv zeta.
  all: repeat match goal with
         | Hc : negb _ = _ |- _ => rewrite ?negb_true_iff, ?negb_false_iff in Hc
         end.
  all: repeat match goal with
         | Hc : (_ =? 0) = _ |- _ => rewrite Hc; clear Hc
         | Hc : (_ <? msg_value _) = _ |- _ => rewrite Hc; apply Z.ltb_ge in Hc || clear Hc
         end.
  all: rewrite <- ?app_assoc; cbn [app]; sflat; try reflexivity; btop; lia.
Qed.

Lemma rentItem_post (env : Env) (iid st en : Z) (s s' : State) (u : unit) :
  rentItem env iid st en s = Ok (u, s') ->
  let it := items_at s iid in
  let cost := rental_cost (en - st) (item_rentalPrice it) in
  let rid := Counters_increment (_rentalIds s) in
  let known := hasRented_at s iid (msg_sender env) in
  let refund := if cost <? msg_value env
                then [Transfer (msg_sender env) (msg_value env - cost)] else [] in
  s' = mkState NOT_ENTERED (_owner s) (_itemIds s) rid
         (<[iid := item_with_totalRevenue (item_totalRevenue it + cost)
                     (item_with_totalRentals (item_totalRentals it + 1) it)]> (items s))
         (<[rid := mkRental rid iid (msg_sender env) st en cost true]> (rentals s))
         (ownershipHistory s) (userItems s)
         (<[msg_sender env := userRentals_at s (msg_sender env) ++ [rid]]> (userRentals s))
         (if known then hasRented s else <[(iid, msg_sender env) := true]> (hasRented s))
         (if known then itemRenters s
          else <[iid := itemRenters_at s iid ++ [msg_sender env]]> (itemRenters s))
         (balance s)
         (journal s ++ Transfer (item_owner it) cost :: refund ++
            [Emit (ItemRented rid iid (msg_sender env) st en cost)]).
Proof.
  intros H. unfold rentItem in H. minv H.
  all: cbv zeta; rewrite ?insert_insert_eq; unfold rental_cost in *.
  all: repeat match goal with
         | Hc : negb _ = _ |- _ => rewrite ?negb_true_iff, ?negb_false_iff in Hc
         end.
  all: repeat match goal with
         | Hc : hasRented_at _ _ _ = _ |- _ => rewrite Hc; clear Hc
         | Hc : (_ <? msg_value _) = _ |- _ => rewrite Hc; apply Z.ltb_ge in Hc || clear Hc
         end.
  all: rewrite <- ?app_assoc; cbn [app]; sflat; try reflexivity; btop; lia.
Qed.

Lemma updateItemPrices_post (env : Env) (iid p rp : Z) (s s' : State) (u : unit) :
  updateItemPrices env iid p rp s = Ok (u, s') ->
  s' = set_journal (journal s ++ [Emit (ItemUpdated iid p rp)])
         (set_items (<[iid := item_with_prices p rp (items_at s iid)]> (items s)) s).
Proof. intros H. unfold updateItemPrices in H. minv H. reflexivity. Qed.

Lemma deactivateItem_post (env : Env) (iid : Z) (s s' : State) (u : unit) :
  deactivateItem env iid s = Ok (u, s') ->
  s' = set_journal (journal s ++ [Emit (ItemDeactivated iid)])
         (set_items (<[iid := item_with_isActive false (items_at s iid)]> (items s)) s).
Proof. intros H. unfold deactivateItem in H. minv H. reflexivity. Qed.

Lemma emergencyWithdraw_post (env : Env) (s s' : State) (u : unit) :
  emergencyWithdraw env s = Ok (u, s') ->
  msg_value env = 0 /\ _owner s = msg_sender env /\ 0 < balance s /\
  s' = set_journal (journal s ++ [Transfer (_owner s) (balance s)]) (set_balance 0 s).
Proof.
  intros H. unfold emergencyWithdraw in H. minv H. btop.
  repeat split; auto. sflat; try reflexivity. lia.
Qed.

(** ** Case analysis on a successful transaction *)

Lemma run_inv (env : Env) (c : Call) (s s' : State) :
  run env c s = Ok s' ->
  match c with
  | CreateItem t d b p rp => exists newId, createItem env t d b p rp s = Ok (newId, s')
  | PurchaseItem iid => purchaseItem env iid s = Ok (tt, s')
  | RentItem iid st en => rentItem env iid st en s = Ok (tt, s')
  | UpdateItemPrices iid p rp => updateItemPrices env iid p rp s = Ok (tt, s')
  | DeactivateItem iid => deactivateItem env iid s = Ok (tt, s')
  | EmergencyWithdraw => emergencyWithdraw env s = Ok (tt, s')
  | TransferOwnership a => transferOwnership env a s = Ok (tt, s')
  | RenounceOwnership => renounceOwnership env s = Ok (tt, s')
  end.
Proof.
  unfold run. intros H.
  destruct (dispatch env c s) as [[[] s1]|e] eqn:Hd; [|discriminate].
  inversion H; subst s1. destruct c; cbn [dispatch] in Hd; try exact Hd.
  unfold discard in Hd. apply bind_ok in Hd. destruct Hd as (newId & s1 & Hc & Hr).
  apply ret_ok in Hr. destruct Hr as [_ ->]. exists newId. exact Hc.
Qed.

Lemma admin_same_ledger (env : Env) (c : Call) (s s' : State) :
  match c with
  | EmergencyWithdraw | TransferOwnership _ | RenounceOwnership => True
  | _ => False
  end ->
  run env c s = Ok s' -> same_ledger s s'.
Proof.
  intros Hc H. apply run_inv in H. unfold same_ledger.
  destruct c; try contradiction.
  - unfold emergencyWithdraw in H. minv H. repeat split; reflexivity.
  - unfold transferOwnership in H. minv H. repeat split; reflexivity.
  - unfold renounceOwnership in H. minv H. repeat split; reflexivity.
Qed.

Lemma ledger_inv_later (n : Z) (k : nat) (s s' : State) :
  ledger_inv n s -> later_in s k s' -> n + Z.of_nat k <= MAX_UINT256 ->
  ledger_inv (n + Z.of_nat k) s'.
Proof.
  intros Hinv Hl. induction Hl as [|k s1 s2 env c _ IH Hrun]; intros Hn.
  - rewrite Z.add_0_r. exact Hinv.
  - rewrite Nat2Z.inj_succ. unfold Z.succ. rewrite Z.add_assoc.
    apply ledger_inv_step with (s := s1).
    + eapply run_ledger_step. exact Hrun.
    + lia.
    + apply IH. lia.
Qed.

(** ** Ownership history and renter lists *)

Lemma book_inv_deployed (d : Z) : book_inv (deployed d).
Proof.
  split; unfold history_at, itemRenters_at, hasRented_at; cbn; intros.
  - rewrite lookup_empty in H. cbn in H. contradiction.
  - rewrite lookup_empty in H. discriminate.
  - rewrite lookup_empty. cbn. constructor.
  - rewrite !lookup_empty. cbn. split; [intros Hin; inversion Hin|discriminate].
Qed.

(** The history half of [book_inv] after a call that stores an item and
    appends a record naming its owner. *)
Lemma history_inv_append (s s' : State) (j : Z) (x : IPItem) (r : OwnershipRecord) :
  book_inv s ->
  items s' = <[j := x]> (items s) ->
  ownershipHistory s' = <[j := history_at s j ++ [r]]> (ownershipHistory s) ->
  rec_owner r = item_owner x ->
  (forall i, history_at s' i <> [] -> is_Some (items s' !! i)) /\
  (forall i it, items s' !! i = Some it ->
     exists h r, history_at s' i = h ++ [r] /\ rec_owner r = item_owner it).
Proof.
  intros [Hst Hlast _ _] Hit Hh Hr. unfold history_at in *. rewrite Hit, Hh. split.
  - intros i. rewrite default_insert. destruct (decide (j = i)) as [->|Hne].
    + intros _. rewrite lookup_insert_eq. eauto.
    + intros Hi. rewrite lookup_insert_ne by exact Hne. auto.
  - intros i it. rewrite default_insert. destruct (decide (j = i)) as [->|Hne].
    + rewrite lookup_insert_eq. intros Hx. inversion Hx; subst it. eauto.
    + rewrite lookup_insert_ne by exact Hne. auto.
Qed.

(** The same after a call that rewrites a stored item in place. *)
Lemma history_inv_inplace (s s' : State) (j : Z) (f : IPItem -> IPItem) :
  book_inv s -> keeps_identity f -> item_isActive (items_at s j) = true ->
  items s' = <[j := f (items_at s j)]> (items s) ->
  ownershipHistory s' = ownershipHistory s ->
  (forall i, history_at s' i <> [] -> is_Some (items s' !! i)) /\
  (forall i it, items s' !! i = Some it ->
     exists h r, history_at s' i = h ++ [r] /\ rec_owner r = item_owner it).
Proof.
  intros [Hst Hlast _ _] Hf Hact Hit Hh.
  destruct (active_is_stored s j Hact) as (old & Hold & Heq).
  unfold history_at in *. rewrite Hit, Hh, Heq. split.
  - intros i Hi. destruct (decide (j = i)) as [->|Hne].
    + rewrite lookup_insert_eq. eauto.
    + rewrite lookup_insert_ne by exact Hne. auto.
  - intros i it. destruct (decide (j = i)) as [->|Hne].
    + rewrite lookup_insert_eq. intros Hx. inversion Hx; subst it.
      destruct (Hf old) as [-> _]. auto.
    + rewrite lookup_insert_ne by exact Hne. auto.
Qed.

(** The renter half of [book_inv] after a rental by [a] on item [j]. *)
Lemma renters_inv_rent (s s' : State) (j a : Z) :
  book_inv s ->
  hasRented s' = (if hasRented_at s j a then hasRented s
                  else <[(j, a) := true]> (hasRented s)) ->
  itemRenters s' = (if hasRented_at s j a then itemRenters s
                    else <[j := itemRenters_at s j ++ [a]]> (itemRenters s)) ->
  (forall i, NoDup (itemRenters_at s' i)) /\
  (forall i b, b ∈ itemRenters_at s' i <-> hasRented_at s' i b = true).
Proof.
  intros [_ _ Hnd Hfl] Hh Hr.
  destruct (hasRented_at s j a) eqn:Hknown.
  { unfold itemRenters_at, hasRented_at in *. rewrite Hh, Hr. auto. }
  assert (Hnew : a ∉ itemRenters_at s j).
  { intros Hin. apply Hfl in Hin. congruence. }
  unfold itemRenters_at, hasRented_at in *. rewrite Hh, Hr. split.
  - intros i. rewrite default_insert. destruct (decide (j = i)) as [->|Hne]; [|auto].
    apply NoDup_app. split; [apply Hnd|]. split.
    + intros x Hx Hx'. apply list_elem_of_singleton in Hx'. subst x. contradiction.
    + apply NoDup_singleton.
  - intros i b. rewrite !default_insert.
    destruct (decide (j = i)) as [->|Hne].
    + destruct (decide ((i, a) = (i, b))) as [Heq|Hneq].
      * inversion Heq; subst b. split; [reflexivity|].
        intros _. apply elem_of_app. right. apply list_elem_of_singleton. reflexivity.
      * rewrite elem_of_app, list_elem_of_singleton, Hfl.
        split; [intros [? | ->]; [assumption|congruence]|auto].
    + destruct (decide ((j, a) = (i, b))) as [Heq|Hneq]; [congruence|apply Hfl].
Qed.

Lemma book_inv_step (env : Env) (c : Call) (s s' : State) :
  run env c s = Ok s' -> book_inv s -> book_inv s'.
Proof.
  intros Hrun Hinv. pose proof Hinv as [Hst Hlast Hnd Hfl].
  destruct c;
    try (apply (admin_same_ledger env) in Hrun; [|exact I];
         destruct Hrun as (_ & _ & Hi & _ & Hh & _ & _ & Hf & Hr);
         split; unfold history_at, itemRenters_at, hasRented_at in *;
         rewrite ?Hi, ?Hh, ?Hf, ?Hr; assumption);
    apply run_inv in Hrun.
  - destruct Hrun as (newId & Hc). apply createItem_post in Hc.
    destruct Hc as (_ & Hs').
    edestruct (history_inv_append s s' newId) as [H1 H2];
      [exact Hinv|rewrite Hs'; reflexivity|rewrite Hs'; reflexivity|reflexivity|].
    split; auto; unfold itemRenters_at, hasRented_at; rewrite Hs'; cbn; auto.
  - apply purchaseItem_post in Hrun. cbv zeta in Hrun.
    edestruct (history_inv_append s s' _itemId) as [H1 H2];
      [exact Hinv|rewrite Hrun; reflexivity|rewrite Hrun; reflexivity|reflexivity|].
    split; auto; unfold itemRenters_at, hasRented_at; rewrite Hrun; cbn; auto.
  - pose proof (rentItem_effect _ _ _ _ _ _ _ Hrun) as ((_ & Hact & _) & _).
    apply rentItem_post in Hrun. cbv zeta in Hrun.
    edestruct (history_inv_inplace s s' _itemId
                (fun it => item_with_totalRevenue
                   (item_totalRevenue (items_at s _itemId) +
                    rental_cost (_endTime - _startTime)
                      (item_rentalPrice (items_at s _itemId)))
                   (item_with_totalRentals
                      (item_totalRentals (items_at s _itemId) + 1) it)))
      as [H1 H2];
      [exact Hinv|intros it; split; reflexivity|exact Hact
      |rewrite Hrun; reflexivity|rewrite Hrun; reflexivity|].
    edestruct (renters_inv_rent s s' _itemId (msg_sender env)) as [H3 H4];
      [exact Hinv|rewrite Hrun; reflexivity|rewrite Hrun; reflexivity|].
    split; auto.
  - pose proof (updateItemPrices_effect _ _ _ _ _ _ _ Hrun) as ((_ & _ & _ & Hact & _) & _).
    apply updateItemPrices_post in Hrun.
    edestruct (history_inv_inplace s s' _itemId (item_with_prices _newPrice _newRentalPrice))
      as [H1 H2];
      [exact Hinv|intros it; split; reflexivity|exact Hact
      |rewrite Hrun; reflexivity|rewrite Hrun; reflexivity|].
    split; auto; unfold itemRenters_at, hasRented_at; rewrite Hrun; cbn; auto.
  - pose proof (deactivateItem_effect _ _ _ _ _ Hrun) as ((_ & _ & _ & Hact) & _).
    apply deactivateItem_post in Hrun.
    edestruct (history_inv_inplace s s' _itemId (item_with_isActive false))
      as [H1 H2];
      [exact Hinv|intros it; split; reflexivity|exact Hact
      |rewrite Hrun; reflexivity|rewrite Hrun; reflexivity|].
    split; auto; unfold itemRenters_at, hasRented_at; rewrite Hrun; cbn; auto.
Qed.

Lemma reachable_book_inv (n : nat) (s : State) : reachable n s -> book_inv s.
Proof.
  induction 1 as [d _|n s s' env c _ IH _ _ Hrun].
  - apply book_inv_deployed.
  - eapply book_inv_step; eauto.
Qed.

(** ** The rental book against the items *)

Lemma total_paid_app (l1 l2 : list Rental) :
  total_paid (l1 ++ l2) = total_paid l1 + total_paid l2.
Proof.
  unfold total_paid. induction l1 as [|r l1 IH]; cbn; [reflexivity|].
  rewrite IH. lia.
Qed.

Lemma rentals_of_same (s s' : State) (i : Z) :
  rentals s' = rentals s -> _rentalIds s' = _rentalIds s ->
  rentals_of s' i = rentals_of s i.
Proof.
  intros Hr Hc. unfold rentals_of. rewrite Hc. f_equal.
  apply List.map_ext. intros j. unfold rentals_at. rewrite Hr. reflexivity.
Qed.

Lemma rentals_of_rent (s s' : State) (new : Rental) (i : Z) :
  0 <= _rentalIds s < MAX_UINT256 ->
  _rentalIds s' = Counters_increment (_rentalIds s) ->
  rentals s' = <[Counters_increment (_rentalIds s) := new]> (rentals s) ->
  rentals_of s' i =
    rentals_of s i ++ (if rental_itemId new =? i then [new] else []).
Proof.
  intros Hb Hc Hr. unfold rentals_of. rewrite Hc.
  rewrite Counters_increment_small in * by exact Hb.
  rewrite (seqZ_app 1 (_rentalIds s) 1) by lia.
  rewrite List.map_app, List.filter_app. f_equal.
  - f_equal. apply List.map_ext_in. intros j Hj.
    apply list_elem_of_In, elem_of_seqZ in Hj.
    unfold rentals_at. rewrite Hr, lookup_insert_ne by lia. reflexivity.
  - change (seqZ (1 + _rentalIds s) 1) with [1 + _rentalIds s]. cbn [map List.filter].
    unfold rentals_at. rewrite Hr. replace (1 + _rentalIds s) with (_rentalIds s + 1) by lia.
    rewrite lookup_insert_eq. reflexivity.
Qed.

Lemma rentals_of_unknown_item (s : State) (i : Z) :
  (forall rid rt, rentals s !! rid = Some rt -> rental_itemId rt <> i) -> i <> 0 ->
  rentals_of s i = [].
Proof.
  intros Hno Hi. unfold rentals_of.
  induction (seqZ 1 (_rentalIds s)) as [|j l IH]; [reflexivity|].
  cbn [map List.filter]. rewrite IH.
  destruct (Z.eqb_spec (rental_itemId (rentals_at s j)) i) as [Heq|]; [|reflexivity].
  exfalso. unfold rentals_at in Heq.
  destruct (rentals s !! j) as [rt|] eqn:E; cbn in Heq.
  - exact (Hno j rt E Heq).
  - congruence.
Qed.

Lemma rental_cost_nonneg (duration rentalPrice : Z) :
  0 <= duration -> 0 <= rentalPrice -> 0 <= rental_cost duration rentalPrice.
Proof.
  intros Hd Hp. unfold rental_cost, ONE_DAY. apply Z.div_pos; [|lia].
  apply Z.mul_nonneg_nonneg; assumption.
Qed.

Lemma audit_inv_deployed (d : Z) : audit_inv (deployed d).
Proof.
  split; unfold hasRented_at; cbn; intros.
  - rewrite lookup_empty in H. discriminate.
  - rewrite lookup_empty in H. discriminate.
  - rewrite lookup_empty. cbn. split; [discriminate|].
    intros (rid & rt & H & _). rewrite lookup_empty in H. discriminate.
  - rewrite lookup_empty in H. discriminate.
Qed.

(** [audit_inv] after a call that leaves the rental book alone and only
    rewrites a stored item, keeping its rental counters. *)
Lemma audit_inv_inplace (s s' : State) (j : Z) (f : IPItem -> IPItem) :
  audit_inv s -> item_isActive (items_at s j) = true ->
  (forall it, item_totalRentals (f it) = item_totalRentals it /\
              item_totalRevenue (f it) = item_totalRevenue it) ->
  items s' = <[j := f (items_at s j)]> (items s) ->
  rentals s' = rentals s -> _rentalIds s' = _rentalIds s ->
  hasRented s' = hasRented s ->
  (forall i, history_at s i <> [] -> history_at s' i = history_at s i \/
             exists r, history_at s' i = history_at s i ++ [r]) ->
  audit_inv s'.
Proof.
  intros [Hfirst Hitem Hflag Hacc] Hact Hf Hit Hr Hc Hh Hhist.
  destruct (active_is_stored s j Hact) as (old & Hold & Heq).
  assert (Hkeep : forall i, is_Some (items s !! i) -> is_Some (items s' !! i)).
  { intros i Hi. rewrite Hit. apply lookup_insert_is_Some'. auto. }
  assert (Hback : forall i it, items s' !! i = Some it ->
            exists it0, items s !! i = Some it0 /\
                        item_totalRentals it = item_totalRentals it0 /\
                        item_totalRevenue it = item_totalRevenue it0).
  { intros i it. rewrite Hit. destruct (decide (j = i)) as [->|Hne].
    - rewrite lookup_insert_eq. intros Hx. inversion Hx; subst it.
      rewrite Heq. exists old. destruct (Hf old). auto.
    - rewrite lookup_insert_ne by exact Hne. eauto. }
  split.
  - intros i it Hi. destruct (Hback i it Hi) as (it0 & Hi0 & _).
    destruct (Hfirst i it0 Hi0) as (r & h & Hrh & Hp).
    destruct (Hhist i) as [Hsame|[r' Happ]]; [rewrite Hrh; discriminate| |].
    + rewrite Hsame. eauto.
    + rewrite Happ, Hrh. cbn. eauto.
  - intros rid rt. rewrite Hr. intros Hrt.
    destruct (Hitem rid rt Hrt) as (Hs & Hrest). auto.
  - intros i a. unfold hasRented_at in *. rewrite Hh, Hr. apply Hflag.
  - intros i it Hi. destruct (Hback i it Hi) as (it0 & Hi0 & -> & ->).
    rewrite (rentals_of_same s s' i Hr Hc). auto.
Qed.

Lemma audit_inv_same_ledger (s s' : State) :
  same_ledger s s' -> audit_inv s -> audit_inv s'.
Proof.
  intros (_ & Hc & Hi & Hr & Hh & _ & _ & Hf & _) [H1 H2 H3 H4].
  split; unfold history_at, hasRented_at in *.
  - rewrite Hi, Hh. exact H1.
  - rewrite Hi, Hr. exact H2.
  - rewrite Hf, Hr. exact H3.
  - intros i it. rewrite Hi, (rentals_of_same s s' i Hr Hc). apply H4.
Qed.

Lemma audit_inv_create (s s' : State) (n newId : Z) (x : IPItem) (r : OwnershipRecord)
    (ui : gmap Z (list Z)) (j : list Effect) :
  ledger_inv n s -> n < MAX_UINT256 -> book_inv s -> audit_inv s ->
  newId = Counters_increment (_itemIds s) ->
  item_totalRentals x = 0 -> item_totalRevenue x = 0 -> rec_price r = 0 ->
  s' = mkState (_status s) (_owner s) newId (_rentalIds s) (<[newId := x]> (items s))
         (rentals s) (<[newId := history_at s newId ++ [r]]> (ownershipHistory s))
         ui (userRentals s) (hasRented s) (itemRenters s) (balance s) j ->
  audit_inv s'.
Proof.
  intros [Hi _ Hit _ _] Hn [Hst _ _ _] [H1 H2 H3 H4] Hnew Hx1 Hx2 Hr ->.
  rewrite Counters_increment_small in Hnew by lia.
  assert (Hfresh : items s !! newId = None).
  { destruct (items s !! newId) as [it|] eqn:E; [|reflexivity].
    destruct (Hit newId it E). lia. }
  assert (Hempty : history_at s newId = []).
  { destruct (history_at s newId) as [|r0 h] eqn:E; [reflexivity|].
    destruct (Hst newId) as [it Hs]; [rewrite E; discriminate|]. congruence. }
  split; unfold history_at, hasRented_at in *; cbn [items rentals ownershipHistory hasRented].
  - intros i it. rewrite default_insert. destruct (decide (newId = i)) as [<-|Hne].
    + intros _. rewrite Hempty. cbn. eauto.
    + rewrite lookup_insert_ne by exact Hne. apply H1.
  - intros rid rt Hrt. destruct (H2 rid rt Hrt) as (Hs & Hrest). split; [|exact Hrest].
    apply lookup_insert_is_Some'. auto.
  - exact H3.
  - intros i it.
    erewrite (rentals_of_same s) by reflexivity.
    destruct (decide (newId = i)) as [<-|Hne].
    + rewrite lookup_insert_eq. intros Hx. inversion Hx; subst it.
      rewrite rentals_of_unknown_item; [cbn; split; assumption| |lia].
      intros rid rt Hrt Heq. destruct (H2 rid rt Hrt) as ([it Hs] & _).
      rewrite Heq in Hs. congruence.
    + rewrite lookup_insert_ne by exact Hne. apply H4.
Qed.

Lemma audit_inv_rent (s s' : State) (n iid renter st en cost : Z)
    (x : IPItem) (ur : gmap Z (list Z)) (ir : gmap Z (list Z))
    (b : Z) (j : list Effect) :
  ledger_inv n s -> n < MAX_UINT256 -> audit_inv s ->
  item_isActive (items_at s iid) = true -> 0 <= cost -> st < en ->
  item_totalRentals x = item_totalRentals (items_at s iid) + 1 ->
  item_totalRevenue x = item_totalRevenue (items_at s iid) + cost ->
  let rid := Counters_increment (_rentalIds s) in
  s' = mkState NOT_ENTERED (_owner s) (_itemIds s) rid
         (<[iid := x]> (items s))
         (<[rid := mkRental rid iid renter st en cost true]> (rentals s))
         (ownershipHistory s) (userItems s) ur
         (if hasRented_at s iid renter then hasRented s
          else <[(iid, renter) := true]> (hasRented s))
         ir b j ->
  audit_inv s'.
Proof.
  intros [_ Hr _ Hre _] Hn [H1 H2 H3 H4] Hact Hcost Hsten Hx1 Hx2 rid ->.
  destruct (active_is_stored s iid Hact) as (old & Hold & Heq).
  assert (Hrid : rid = _rentalIds s + 1).
  { subst rid. apply Counters_increment_small. lia. }
  assert (Hfresh : rentals s !! rid = None).
  { destruct (rentals s !! rid) as [rt|] eqn:E; [|reflexivity].
    destruct (Hre rid rt E). lia. }
  assert (Hflag' : forall i a,
            default false ((if hasRented_at s iid renter then hasRented s
                            else <[(iid, renter) := true]> (hasRented s)) !! (i, a)) = true
            <-> hasRented_at s i a = true \/ (i = iid /\ a = renter)).
  { intros i a. destruct (hasRented_at s iid renter) eqn:Hk.
    - unfold hasRented_at in *. split; [auto|]. intros [?|[-> ->]]; assumption.
    - rewrite default_insert. unfold hasRented_at in *.
      destruct (decide ((iid, renter) = (i, a))) as [Heq'|Hne].
      + inversion Heq'; subst. split; auto.
      + split; [auto|]. intros [?|[-> ->]]; [assumption|congruence]. }
  split; unfold history_at, hasRented_at in *;
    cbn [items rentals ownershipHistory hasRented _rentalIds].
  - intros i it. destruct (decide (iid = i)) as [<-|Hne].
    + intros _. apply (H1 iid old Hold).
    + rewrite lookup_insert_ne by exact Hne. apply H1.
  - intros r rt. destruct (decide (rid = r)) as [<-|Hne].
    + rewrite lookup_insert_eq. intros Hx. inversion Hx; subst rt. cbn.
      rewrite lookup_insert_eq. eauto.
    + rewrite lookup_insert_ne by exact Hne. intros Hrt.
      destruct (H2 r rt Hrt) as (Hs & Hrest). split; [|exact Hrest].
      apply lookup_insert_is_Some'. auto.
  - intros i a. rewrite Hflag', H3. split.
    + intros [(r & rt & Hrt & Hi & Ha)|[-> ->]].
      * exists r, rt. rewrite lookup_insert_ne by congruence. auto.
      * exists rid. eexists. rewrite lookup_insert_eq. split; [reflexivity|]. auto.
    + intros (r & rt & Hrt & Hi & Ha). destruct (decide (rid = r)) as [<-|Hne].
      * rewrite lookup_insert_eq in Hrt. inversion Hrt; subst rt. cbn in *. auto.
      * rewrite lookup_insert_ne in Hrt by exact Hne. left. eauto.
  - intros i it.
    rewrite (rentals_of_rent s _ (mkRental rid iid renter st en cost true) i);
      [|lia|reflexivity|reflexivity].
    cbn [rental_itemId]. destruct (decide (iid = i)) as [<-|Hne].
    + rewrite lookup_insert_eq. intros Hx. inversion Hx; subst it.
      rewrite Z.eqb_refl, length_app, total_paid_app, Hx1, Hx2, Heq.
      destruct (H4 iid old Hold) as [-> ->].
      cbn. split; lia.
    + rewrite lookup_insert_ne by exact Hne.
      destruct (Z.eqb_spec iid i); [contradiction|]. rewrite app_nil_r. apply H4.
Qed.

Lemma audit_inv_step (n : Z) (env : Env) (c : Call) (s s' : State) :
  run env c s = Ok s' -> n < MAX_UINT256 ->
  ledger_inv n s -> book_inv s -> audit_inv s -> audit_inv s'.
Proof.
  intros Hrun Hn Hl Hb Ha.
  destruct c;
    try (apply (admin_same_ledger env) in Hrun; [|exact I];
         eapply audit_inv_same_ledger; eassumption);
    apply run_inv in Hrun.
  - destruct Hrun as (newId & Hc). apply createItem_post in Hc.
    destruct Hc as (Hnew & Hs').
    eapply (audit_inv_create s s' n newId); try eassumption; reflexivity.
  - pose proof (purchaseItem_effect _ _ _ _ _ Hrun) as ((_ & Hact & _) & _).
    apply purchaseItem_post in Hrun. cbv zeta in Hrun.
    eapply (audit_inv_inplace s s' _itemId (item_with_owner (msg_sender env)));
      try eassumption; try (rewrite Hrun; reflexivity).
    + intros it. split; reflexivity.
    + intros i _. unfold history_at. rewrite Hrun. cbn [ownershipHistory].
      rewrite default_insert. destruct (decide (_itemId = i)) as [->|]; eauto.
  - pose proof (rentItem_effect _ _ _ _ _ _ _ Hrun) as
      ((_ & Hact & _ & Hsten & _ & Hrp & _) & _).
    apply rentItem_post in Hrun. cbv zeta in Hrun.
    eapply (audit_inv_rent s s' n _itemId (msg_sender env) _startTime _endTime
              (rental_cost (_endTime - _startTime) (item_rentalPrice (items_at s _itemId))));
      try eassumption; try reflexivity.
    apply rental_cost_nonneg; lia.
  - pose proof (updateItemPrices_effect _ _ _ _ _ _ _ Hrun) as ((_ & _ & _ & Hact & _) & _).
    apply updateItemPrices_post in Hrun.
    eapply (audit_inv_inplace s s' _itemId (item_with_prices _newPrice _newRentalPrice));
      try eassumption; try (rewrite Hrun; reflexivity).
    + intros it. split; reflexivity.
    + intros i _. left. unfold history_at. rewrite Hrun. reflexivity.
  - pose proof (deactivateItem_effect _ _ _ _ _ Hrun) as ((_ & _ & _ & Hact) & _).
    apply deactivateItem_post in Hrun.
    eapply (audit_inv_inplace s s' _itemId (item_with_isActive false));
      try eassumption; try (rewrite Hrun; reflexivity).
    + intros it. split; reflexivity.
    + intros i _. left. unfold history_at. rewrite Hrun. reflexivity.
Qed.

Lemma dense_inv_step (n : Z) (s s' : State) :
  ledger_step s s' -> n < MAX_UINT256 -> ledger_inv n s -> dense_inv s -> dense_inv s'.
Proof.
  intros Hstep Hn [Hi Hr _ _ _] [Hdi Hdr].
  destruct Hstep as
    [sender ts it newId _ _ Hc1 Hc2 Hitems _ _ [Hrb _]
    |buyer ts iid _ [Hc1 Hc2] [Hrb _] Hitems _ _
    |renter iid st en cost f rid _ _ Hc1 Hc2 _ Hitems Hrents _
    |iid f _ _ [Hc1 Hc2] [Hrb _] _ Hitems
    |[Hc1 Hc2] [Hrb _] _ Hitems];
    split; intros j Hj; rewrite ?Hitems, ?Hrents, ?Hrb;
    rewrite ?Hc1, ?Hc2 in Hj;
    try (apply lookup_insert_is_Some'; right; auto; fail); auto.
  - subst newId. rewrite Counters_increment_small in * by lia.
    apply lookup_insert_is_Some'. destruct (decide (_itemIds s + 1 = j)); [auto|].
    right. apply Hdi. lia.
  - subst rid. rewrite Counters_increment_small in * by lia.
    apply lookup_insert_is_Some'. destruct (decide (_rentalIds s + 1 = j)); [auto|].
    right. apply Hdr. lia.
Qed.

Lemma dense_inv_deployed (d : Z) : dense_inv (deployed d).
Proof. split; cbn; intros; lia. Qed.

(** Everything known about storage reached by [n] transactions, as long as
    the counters cannot have wrapped. *)
Lemma reachable_invariants (n : nat) (s : State) :
  reachable n s -> Z.of_nat n <= MAX_UINT256 ->
  ledger_inv (Z.of_nat n) s /\ book_inv s /\ audit_inv s /\ dense_inv s.
Proof.
  induction 1 as [d _|n s s' env c _ IH _ _ Hrun]; intros Hn.
  - split; [apply ledger_inv_deployed|]. split; [apply book_inv_deployed|].
    split; [apply audit_inv_deployed|apply dense_inv_deployed].
  - destruct IH as (Hl & Hb & Ha & Hd); [lia|].
    pose proof (run_ledger_step _ _ _ _ Hrun) as Hstep.
    split; [|split; [|split]].
    + rewrite Nat2Z.inj_succ. unfold Z.succ. eapply ledger_inv_step; eauto. lia.
    + eapply book_inv_step; eauto.
    + eapply (audit_inv_step (Z.of_nat n)); eauto. lia.
    + eapply (dense_inv_step (Z.of_nat n)); eauto. lia.
Qed.

Lemma getItem_stored (n : nat) (s : State) (i : Z) (it : IPItem) :
  reachable n s -> Z.of_nat n <= MAX_UINT256 ->
  1 <= i -> getItem s i = Ok it -> items s !! i = Some it.
Proof.
  intros Hr Hn Hi Hg. destruct (reachable_invariants n s Hr Hn) as (_ & _ & _ & [Hd _]).
  unfold getItem in Hg. destruct (Z.leb_spec i (_itemIds s)); [|discriminate].
  destruct (Hd i) as [x Hx]; [lia|]. unfold items_at in Hg. rewrite Hx in Hg.
  cbn in Hg. congruence.
Qed.

(** X1: in storage reached by fewer than 2^256 transactions, the rental
    count and the revenue kept in an item are the number of rentals stored
    for that item and the sum of the amounts they paid. *)
Theorem X1_item_counters_match_rental_book (n : nat) (s : State) (i : Z) (it : IPItem) :
  reachable n s -> Z.of_nat n <= MAX_UINT256 ->
  1 <= i -> getItem s i = Ok it ->
  item_totalRentals it = Z.of_nat (length (rentals_of s i)) /\
  item_totalRevenue it = total_paid (rentals_of s i).
Proof.
  intros Hr Hn Hi Hg. pose proof (getItem_stored n s i it Hr Hn Hi Hg) as Hs.
  destruct (reachable_invariants n s Hr Hn) as (_ & _ & [_ _ _ Hacc] & _).
  apply Hacc. exact Hs.
Qed.

Lemma X1_item_counters_match_rental_book_witness :
  item_totalRentals (items_at shop5_rented 1) = 1 /\
  item_totalRevenue (items_at shop5_rented 1) = 150 /\
  length (rentals_of shop5_rented 1) = 1%nat.
Proof.
  destruct (X1_item_counters_match_rental_book 7 shop5_rented 1 (items_at shop5_rented 1))
    as [H1 H2].
  - exact shop5_rented_reachable.
  - vm_compute. discriminate.
  - lia.
  - vm_compute. reflexivity.
  - split; [rewrite H1; vm_compute; reflexivity|].
    split; [rewrite H2; vm_compute; reflexivity|vm_compute; reflexivity].
Defined.

(** X2: in storage reached by fewer than 2^256 transactions, the renter
    list of an item names each account at most once, and names exactly the
    accounts that have a rental of that item on record. *)
Theorem X2_renter_list_is_exact (n : nat) (s : State) (i a : Z) (l : list Z) :
  reachable n s -> Z.of_nat n <= MAX_UINT256 ->
  getItemRenters s i = Ok l ->
  NoDup l /\
  (a ∈ l <-> exists rid rt, getRental s rid = Ok rt /\ 1 <= rid /\
                            rental_itemId rt = i /\ rental_renter rt = a).
Proof.
  intros Hr Hn Hg.
  destruct (reachable_invariants n s Hr Hn)
    as ([_ _ _ Hre _] & [_ _ Hnd Hfl] & [_ _ Hflag _] & [_ Hdr]).
  unfold getItemRenters in Hg. destruct (i <=? _itemIds s); [|discriminate].
  inversion Hg; subst l. split; [apply Hnd|].
  rewrite Hfl, Hflag. split.
  - intros (rid & rt & Hrt & Hi & Ha). exists rid, rt.
    destruct (Hre rid rt Hrt) as (Hb & _). unfold getRental, rentals_at.
    destruct (Z.leb_spec rid (_rentalIds s)); [|lia]. rewrite Hrt. cbn.
    repeat split; auto; lia.
  - intros (rid & rt & Hget & H1 & Hi & Ha). exists rid, rt.
    unfold getRental in Hget. destruct (Z.leb_spec rid (_rentalIds s)); [|discriminate].
    destruct (Hdr rid) as [x Hx]; [lia|]. unfold rentals_at in Hget.
    rewrite Hx in Hget. cbn in Hget. inversion Hget; subst x. auto.
Qed.

Lemma X2_renter_list_is_exact_witness :
  getItemRenters shop5_rented 1 = Ok [bob] /\ NoDup [bob] /\ bob ∈ [bob].
Proof.
  destruct (X2_renter_list_is_exact 7 shop5_rented 1 bob [bob]) as [H1 H2].
  - exact shop5_rented_reachable.
  - vm_compute. discriminate.
  - vm_compute. reflexivity.
  - split; [vm_compute; reflexivity|]. split; [exact H1|].
    apply H2. exists 1, (rentals_at shop5_rented 1).
    split; [vm_compute; reflexivity|]. split; [lia|]. split; reflexivity.
Defined.

(** X3: in storage reached by fewer than 2^256 transactions, the ownership
    history of an existing item starts with the creation record (price 0)
    and ends with a record naming the item's current owner. *)
Theorem X3_history_starts_at_creation_ends_at_owner
    (n : nat) (s : State) (i : Z) (it : IPItem) :
  reachable n s -> Z.of_nat n <= MAX_UINT256 ->
  1 <= i -> getItem s i = Ok it ->
  exists first rest final,
    getOwnershipHistory s i = Ok (first :: rest) /\ rec_price first = 0 /\
    last (first :: rest) = Some final /\ rec_owner final = item_owner it.
Proof.
  intros Hr Hn Hi Hg. pose proof (getItem_stored n s i it Hr Hn Hi Hg) as Hs.
  destruct (reachable_invariants n s Hr Hn) as (_ & [_ Hlast _ _] & [Hfirst _ _ _] & _).
  destruct (Hfirst i it Hs) as (r & h & Hrh & Hp).
  destruct (Hlast i it Hs) as (h' & r' & Hh' & Ho).
  exists r, h, r'. unfold getOwnershipHistory, getItem in *.
  destruct (i <=? _itemIds s); [|discriminate].
  rewrite Hrh. split; [reflexivity|]. split; [exact Hp|]. split; [|exact Ho].
  rewrite <- Hrh, Hh'. apply last_snoc.
Qed.

Lemma X3_history_starts_at_creation_ends_at_owner_witness :
  exists first rest final,
    getOwnershipHistory shop1_sold 1 = Ok (first :: rest) /\ rec_price first = 0 /\
    last (first :: rest) = Some final /\ rec_owner final = bob.
Proof.
  apply (X3_history_starts_at_creation_ends_at_owner 2 shop1_sold 1 (items_at shop1_sold 1)).
  - eapply reach_step with (env := eoa bob 100 2000) (c := PurchaseItem 1).
    + exact shop1_reachable.
    + apply valid_envb_spec. vm_compute. reflexivity.
    + apply valid_callb_spec. vm_compute. reflexivity.
    + vm_compute. reflexivity.
  - vm_compute. discriminate.
  - lia.
  - vm_compute. reflexivity.
Defined.

(** ** The life of an item *)

Lemma evolves_refl (it : IPItem) : evolves it it.
Proof. unfold evolves. repeat split; auto; lia. Qed.

Lemma evolves_trans (a b c : IPItem) : evolves a b -> evolves b c -> evolves a c.
Proof.
  unfold evolves. intros (A1 & A2 & A3 & A4 & A5 & A6 & A7 & A8)
                         (B1 & B2 & B3 & B4 & B5 & B6 & B7 & B8).
  repeat split; try congruence; auto; lia.
Qed.

Lemma item_evolves_step (n : Z) (env : Env) (c : Call) (s s' : State) (i : Z) (it : IPItem) :
  ledger_inv n s -> n < MAX_UINT256 -> run env c s = Ok s' ->
  items s !! i = Some it ->
  exists it', items s' !! i = Some it' /\ evolves it it'.
Proof.
  intros [Hi _ Hit _ _] Hn Hrun Hs.
  assert (Hread : forall j, j = i -> items_at s j = it).
  { intros j ->. unfold items_at. rewrite Hs. reflexivity. }
  destruct c;
    try (apply (admin_same_ledger env) in Hrun; [|exact I];
         destruct Hrun as (_ & _ & -> & _); exists it; split;
         [exact Hs|apply evolves_refl]);
    apply run_inv in Hrun.
  - destruct Hrun as (newId & Hc). apply createItem_post in Hc.
    destruct Hc as (Hnew & ->). rewrite Counters_increment_small in Hnew by lia.
    exists it. split; [|apply evolves_refl]. cbn [items].
    rewrite lookup_insert_ne; [exact Hs|]. destruct (Hit i it Hs). lia.
  - apply purchaseItem_post in Hrun. cbv zeta in Hrun. subst s'. cbn [items].
    destruct (decide (_itemId = i)) as [He|Hne].
    + rewrite (Hread _ He), He, lookup_insert_eq. eexists. split; [reflexivity|].
      unfold evolves. cbn. repeat split; auto; lia.
    + rewrite lookup_insert_ne by exact Hne. exists it. split; [exact Hs|apply evolves_refl].
  - pose proof (rentItem_effect _ _ _ _ _ _ _ Hrun) as
      ((_ & _ & _ & Hsten & _ & Hrp & _) & _).
    apply rentItem_post in Hrun. cbv zeta in Hrun. subst s'. cbn [items].
    destruct (decide (_itemId = i)) as [He|Hne].
    + rewrite (Hread _ He), He, lookup_insert_eq. eexists. split; [reflexivity|].
      pose proof (rental_cost_nonneg (_endTime - _startTime) (item_rentalPrice it)).
      rewrite (Hread _ He) in Hrp.
      unfold evolves. cbn. repeat split; auto; lia.
    + rewrite lookup_insert_ne by exact Hne. exists it. split; [exact Hs|apply evolves_refl].
  - apply updateItemPrices_post in Hrun. subst s'. cbn [items set_journal set_items].
    destruct (decide (_itemId = i)) as [He|Hne].
    + rewrite (Hread _ He), He, lookup_insert_eq. eexists. split; [reflexivity|].
      unfold evolves. cbn. repeat split; auto; lia.
    + rewrite lookup_insert_ne by exact Hne. exists it. split; [exact Hs|apply evolves_refl].
  - apply deactivateItem_post in Hrun. subst s'. cbn [items set_journal set_items].
    destruct (decide (_itemId = i)) as [He|Hne].
    + rewrite (Hread _ He), He, lookup_insert_eq. eexists. split; [reflexivity|].
      unfold evolves. cbn. repeat split; auto; lia.
    + rewrite lookup_insert_ne by exact Hne. exists it. split; [exact Hs|apply evolves_refl].
Qed.

Lemma item_evolves_later (n : Z) (k : nat) (s s' : State) (i : Z) (it : IPItem) :
  ledger_inv n s -> later_in s k s' -> n + Z.of_nat k <= MAX_UINT256 ->
  items s !! i = Some it ->
  exists it', items s' !! i = Some it' /\ evolves it it'.
Proof.
  intros Hinv Hl. induction Hl as [|k s1 s2 env c Hl IH Hrun]; intros Hn Hs.
  - exists it. split; [exact Hs|apply evolves_refl].
  - destruct IH as (it1 & Hs1 & He1); [lia|exact Hs|].
    destruct (item_evolves_step (n + Z.of_nat k) env c s1 s2 i it1) as (it2 & Hs2 & He2);
      [apply (ledger_inv_later n k s s1 Hinv Hl); lia|lia|exact Hrun|exact Hs1|].
    exists it2. split; [exact Hs2|]. eapply evolves_trans; eauto.
Qed.

(** X4: an item that exists keeps, through any further calls (fewer than
    2^256 transactions in all), its identifier, title, description, blob
    id and creation time; once inactive it is never active again; and its
    rental count and revenue never decrease. *)
Theorem X4_item_lifecycle
    (n k : nat) (s s' : State) (i : Z) (it : IPItem) :
  reachable n s -> later_in s k s' -> Z.of_nat n + Z.of_nat k <= MAX_UINT256 ->
  1 <= i -> getItem s i = Ok it ->
  exists it',
    getItem s' i = Ok it' /\
    item_itemId it' = item_itemId it /\ item_title it' = item_title it /\
    item_description it' = item_description it /\ item_blobId it' = item_blobId it /\
    item_createdAt it' = item_createdAt it /\
    (item_isActive it = false -> item_isActive it' = false) /\
    item_totalRentals it <= item_totalRentals it' /\
    item_totalRevenue it <= item_totalRevenue it'.
Proof.
  intros Hr Hl Hn Hi Hg.
  pose proof (getItem_stored n s i it Hr ltac:(lia) Hi Hg) as Hs.
  destruct (reachable_invariants n s Hr ltac:(lia)) as (Hinv & _).
  destruct (item_evolves_later _ k s s' i it Hinv Hl Hn Hs) as (it' & Hs' & He).
  exists it'. split; [|exact He].
  destruct (ledger_inv_later _ k s s' Hinv Hl Hn) as [_ _ Hit' _ _].
  destruct (Hit' i it' Hs') as [Hb _].
  unfold getItem, items_at. destruct (Z.leb_spec i (_itemIds s')); [|lia].
  rewrite Hs'. reflexivity.
Qed.

Lemma X4_item_lifecycle_witness :
  item_isActive (items_at shop5 3) = false /\
  item_isActive (items_at shop5_rented 3) = false /\
  item_createdAt (items_at shop5_rented 3) = 1000.
Proof.
  destruct (X4_item_lifecycle 6 1 shop5 shop5_rented 3 (items_at shop5 3))
    as (it' & Hg & _ & _ & _ & _ & Hc & Ha & _).
  - exact shop5_reachable.
  - eapply later_in_call with (env := rent_env) (c := RentItem 1 2000 131600).
    + apply later_in_now.
    + vm_compute. reflexivity.
  - vm_compute. discriminate.
  - lia.
  - vm_compute. reflexivity.
  - assert (Heq : it' = items_at shop5_rented 3).
    { assert (Hg' : getItem shop5_rented 3 = Ok (items_at shop5_rented 3))
        by (vm_compute; reflexivity).
      congruence. }
    subst it'. split; [reflexivity|]. split; [apply Ha; reflexivity|].
    rewrite Hc. reflexivity.
Defined.

(** X5: a successful call changes the owner of an existing item only if it
    is a purchase of that item (the new owner is the caller), its prices
    only if it is [updateItemPrices] on it by its owner, and its active
    flag only if it is [deactivateItem] on it by its owner (the flag
    becomes false). *)
Theorem X5_who_changes_what
    (n : nat) (env : Env) (c : Call) (s s' : State) (i : Z) (it : IPItem) :
  reachable n s -> Z.of_nat n < MAX_UINT256 -> run env c s = Ok s' ->
  1 <= i -> getItem s i = Ok it ->
  exists it',
    getItem s' i = Ok it' /\
    (item_owner it' <> item_owner it ->
     c = PurchaseItem i /\ item_owner it' = msg_sender env) /\
    (item_price it' <> item_price it \/ item_rentalPrice it' <> item_rentalPrice it ->
     c = UpdateItemPrices i (item_price it') (item_rentalPrice it') /\
     msg_sender env = item_owner it) /\
    (item_isActive it' <> item_isActive it ->
     c = DeactivateItem i /\ item_isActive it' = false /\ msg_sender env = item_owner it).
Proof.
  intros Hr Hn Hrun Hi Hg.
  pose proof (getItem_stored n s i it Hr ltac:(lia) Hi Hg) as Hs.
  destruct (reachable_invariants n s Hr ltac:(lia)) as (Hinv & _).
  pose proof Hinv as [Hcnt _ Hit _ _].
  assert (Hread : forall j, j = i -> items_at s j = it).
  { intros j ->. unfold items_at. rewrite Hs. reflexivity. }
  assert (Hget : forall x, _itemIds s <= _itemIds s' -> items s' !! i = Some x ->
                           getItem s' i = Ok x).
  { intros x Hle Hx. unfold getItem, items_at. destruct (Hit i it Hs) as [Hb _].
    destruct (Z.leb_spec i (_itemIds s')); [|lia]. rewrite Hx. reflexivity. }
  assert (Hsame : _itemIds s <= _itemIds s' -> items s' !! i = Some it ->
          exists it', getItem s' i = Ok it' /\
            (item_owner it' <> item_owner it ->
             c = PurchaseItem i /\ item_owner it' = msg_sender env) /\
            (item_price it' <> item_price it \/ item_rentalPrice it' <> item_rentalPrice it ->
             c = UpdateItemPrices i (item_price it') (item_rentalPrice it') /\
             msg_sender env = item_owner it) /\
            (item_isActive it' <> item_isActive it ->
             c = DeactivateItem i /\ item_isActive it' = false /\
             msg_sender env = item_owner it)).
  { intros Hle Hx. exists it. split; [apply Hget; assumption|].
    split; [|split]; intros; exfalso; intuition congruence. }
  destruct c;
    try (apply (admin_same_ledger env) in Hrun; [|exact I];
         destruct Hrun as (Hc & _ & Hitems & _);
         apply Hsame; [lia|rewrite Hitems; exact Hs]);
    apply run_inv in Hrun.
  - destruct Hrun as (newId & Hc). apply createItem_post in Hc.
    destruct Hc as (Hnew & ->). rewrite Counters_increment_small in Hnew by lia.
    apply Hsame; cbn [_itemIds items]; [lia|].
    rewrite lookup_insert_ne; [exact Hs|]. destruct (Hit i it Hs). lia.
  - apply purchaseItem_post in Hrun. cbv zeta in Hrun. subst s'.
    destruct (decide (_itemId = i)) as [He|Hne].
    + subst _itemId. rewrite (Hread i eq_refl) in *. eexists. split.
      * apply Hget; cbn [_itemIds items]; [lia|]. apply lookup_insert_eq.
      * cbn. split; [intros _; split; reflexivity|].
        split; intros; exfalso; intuition congruence.
    + apply Hsame; cbn [_itemIds items]; [lia|].
      rewrite lookup_insert_ne by exact Hne. exact Hs.
  - apply rentItem_post in Hrun. cbv zeta in Hrun. subst s'.
    destruct (decide (_itemId = i)) as [He|Hne].
    + subst _itemId. rewrite (Hread i eq_refl) in *. eexists. split.
      * apply Hget; cbn [_itemIds items]; [lia|]. apply lookup_insert_eq.
      * cbn. split; [|split]; intros; exfalso; intuition congruence.
    + apply Hsame; cbn [_itemIds items]; [lia|].
      rewrite lookup_insert_ne by exact Hne. exact Hs.
  - pose proof (updateItemPrices_effect _ _ _ _ _ _ _ Hrun) as ((_ & Hown & _) & _).
    apply updateItemPrices_post in Hrun. subst s'.
    destruct (decide (_itemId = i)) as [He|Hne].
    + subst _itemId. rewrite (Hread i eq_refl) in *. eexists. split.
      * apply Hget; cbn [_itemIds items set_journal set_items]; [lia|].
        apply lookup_insert_eq.
      * cbn. split; [|split]; intros; try (exfalso; intuition congruence);
          repeat split; congruence.
    + apply Hsame; cbn [_itemIds items set_journal set_items]; [lia|].
      rewrite lookup_insert_ne by exact Hne. exact Hs.
  - pose proof (deactivateItem_effect _ _ _ _ _ Hrun) as ((_ & Hown & _) & _).
    apply deactivateItem_post in Hrun. subst s'.
    destruct (decide (_itemId = i)) as [He|Hne].
    + subst _itemId. rewrite (Hread i eq_refl) in *. eexists. split.
      * apply Hget; cbn [_itemIds items set_journal set_items]; [lia|].
        apply lookup_insert_eq.
      * cbn. split; [|split]; intros; try (exfalso; intuition congruence);
          repeat split; congruence.
    + apply Hsame; cbn [_itemIds items set_journal set_items]; [lia|].
      rewrite lookup_insert_ne by exact Hne. exact Hs.
Qed.

Lemma X5_who_changes_what_witness :
  item_owner (items_at shop1 1) = alice /\ item_owner (items_at shop1_sold 1) = bob /\
  item_price (items_at shop1_sold 1) = item_price (items_at shop1 1).
Proof.
  destruct (X5_who_changes_what 1 (eoa bob 100 2000) (PurchaseItem 1) shop1 shop1_sold 1
              (items_at shop1 1)) as (it' & Hg & Hown & Hprice & _).
  - exact shop1_reachable.
  - vm_compute. reflexivity.
  - vm_compute. reflexivity.
  - lia.
  - vm_compute. reflexivity.
  - assert (Heq : it' = items_at shop1_sold 1).
    { assert (Hg' : getItem shop1_sold 1 = Ok (items_at shop1_sold 1))
        by (vm_compute; reflexivity).
      congruence. }
    subst it'. split; [reflexivity|].
    destruct Hown as [_ Hb]; [vm_compute; discriminate|].
    split; [exact Hb|reflexivity].
Defined.

(** ** Logs only grow *)

Lemma logs_grow_step (env : Env) (c : Call) (s s' : State) :
  run env c s = Ok s' ->
  forall k,
    history_at s k `prefix_of` history_at s' k /\
    userItems_at s k `prefix_of` userItems_at s' k /\
    userRentals_at s k `prefix_of` userRentals_at s' k /\
    itemRenters_at s k `prefix_of` itemRenters_at s' k.
Proof.
  intros Hrun k.
  assert (Hins : forall (A : Type) (m : gmap Z (list A)) (j : Z) (x : A),
            default [] (m !! k) `prefix_of`
            default [] (<[j := default [] (m !! j) ++ [x]]> m !! k)).
  { intros A m j x. rewrite default_insert. destruct (decide (j = k)) as [->|]; [|reflexivity].
    apply prefix_app_r. reflexivity. }
  unfold history_at, userItems_at, userRentals_at, itemRenters_at.
  destruct c;
    try (apply (admin_same_ledger env) in Hrun; [|exact I];
         destruct Hrun as (_ & _ & _ & _ & -> & -> & -> & _ & ->);
         repeat split; reflexivity);
    apply run_inv in Hrun.
  - destruct Hrun as (newId & Hc). apply createItem_post in Hc. destruct Hc as (_ & ->).
    cbn [ownershipHistory userItems userRentals itemRenters].
    repeat split; try reflexivity; apply Hins.
  - apply purchaseItem_post in Hrun. cbv zeta in Hrun. subst s'.
    cbn [ownershipHistory userItems userRentals itemRenters].
    repeat split; try reflexivity; apply Hins.
  - apply rentItem_post in Hrun. cbv zeta in Hrun. subst s'.
    cbn [ownershipHistory userItems userRentals itemRenters].
    repeat split; try reflexivity; try apply Hins.
    destruct (hasRented_at s _itemId (msg_sender env)); [reflexivity|apply Hins].
  - apply updateItemPrices_post in Hrun. subst s'. repeat split; reflexivity.
  - apply deactivateItem_post in Hrun. subst s'. repeat split; reflexivity.
Qed.

(** X6: the ownership history of an item, the item index and the rental
    index of an account, and the renter list of an item are append-only:
    whatever calls succeed later, each earlier list is a prefix of the
    later one. *)
Theorem X6_logs_are_append_only (s s' : State) (k : Z) :
  later s s' ->
  history_at s k `prefix_of` history_at s' k /\
  getUserItems s k `prefix_of` getUserItems s' k /\
  getUserRentals s k `prefix_of` getUserRentals s' k /\
  itemRenters_at s k `prefix_of` itemRenters_at s' k.
Proof.
  unfold getUserItems, getUserRentals.
  induction 1 as [|s1 s2 env c _ IH Hrun]; [repeat split; reflexivity|].
  destruct IH as (H1 & H2 & H3 & H4).
  destruct (logs_grow_step env c s1 s2 Hrun k) as (G1 & G2 & G3 & G4).
  repeat split; etransitivity; eassumption.
Qed.

Lemma X6_logs_are_append_only_witness :
  history_at shop1 1 `prefix_of` history_at shop1_sold 1 /\
  length (history_at shop1 1) = 1%nat /\ length (history_at shop1_sold 1) = 2%nat.
Proof.
  destruct (X6_logs_are_append_only shop1 shop1_sold 1) as (H & _).
  - eapply later_call with (env := eoa bob 100 2000) (c := PurchaseItem 1).
    + apply later_now.
    + vm_compute. reflexivity.
  - split; [exact H|]. split; reflexivity.
Defined.

(** ** Rentals outlive sales and deactivation *)

Lemma hasActiveRental_step_mono (n : Z) (s s' : State) (now i u : Z) :
  ledger_inv n s -> n < MAX_UINT256 -> ledger_step s s' ->
  hasActiveRental s now i u = true -> hasActiveRental s' now i u = true.
Proof.
  intros [_ Hr _ Hre Hur] Hn Hstep. unfold hasActiveRental.
  rewrite !hasActiveRental_scan_true. intros (rid & Hin & Hm).
  assert (Hsame : rentals s' = rentals s -> userRentals s' = userRentals s ->
                  exists rid0, rid0 ∈ userRentals_at s' u /\
                               rental_matches now i (rentals_at s' rid0) = true).
  { intros E1 E2. exists rid. unfold userRentals_at, rentals_at in *.
    rewrite E1, E2. auto. }
  destruct Hstep as
    [sender ts it newId _ _ _ _ _ _ _ [Hrb Hub]
    |buyer ts iid _ _ [Hrb Hub] _ _ _
    |renter iid st en cost f rid' _ _ _ Hc2 _ _ Hrents Hurs
    |iid f _ _ _ [Hrb Hub] _ _
    |_ [Hrb Hub] _ _]; auto.
  assert (Hold : rid <> rid').
  { apply Hur in Hin. destruct Hin as (rt & Hrt & _). destruct (Hre rid rt Hrt).
    subst rid'. rewrite Counters_increment_small by lia. lia. }
  exists rid. unfold userRentals_at, rentals_at in *. rewrite Hurs, Hrents. split.
  - rewrite default_insert. destruct (decide (renter = u)) as [->|]; [|exact Hin].
    apply elem_of_app. left. exact Hin.
  - rewrite lookup_insert_ne by congruence. exact Hm.
Qed.

(** X7: access once granted cannot be taken back: if [hasActiveRental]
    answers true for some time, item and user, it still answers true for
    that time, item and user after any further successful calls (fewer than
    2^256 transactions in all), be they sales, price changes or the
    deactivation of the item. *)
Theorem X7_rental_cannot_be_revoked (n k : nat) (s s' : State) (now i u : Z) :
  reachable n s -> later_in s k s' -> Z.of_nat n + Z.of_nat k <= MAX_UINT256 ->
  hasActiveRental s now i u = true -> hasActiveRental s' now i u = true.
Proof.
  intros Hr Hl Hn.
  destruct (reachable_invariants n s Hr ltac:(lia)) as (Hinv & _).
  induction Hl as [|k s1 s2 env c Hl IH Hrun]; intros H; [exact H|].
  apply (hasActiveRental_step_mono (Z.of_nat n + Z.of_nat k) s1 s2).
  - apply (ledger_inv_later _ k s s1 Hinv Hl). lia.
  - lia.
  - eapply run_ledger_step. exact Hrun.
  - apply IH; [lia|exact H].
Qed.

(** After Bob's rental, Alice deactivates item 1. *)
Lemma X7_rental_cannot_be_revoked_witness :
  item_isActive (items_at (transact (eoa alice 0 3000) (DeactivateItem 1) shop5_rented) 1)
    = false /\
  hasActiveRental (transact (eoa alice 0 3000) (DeactivateItem 1) shop5_rented)
    5000 1 bob = true.
Proof.
  split; [vm_compute; reflexivity|].
  apply (X7_rental_cannot_be_revoked 7 1 shop5_rented).
  - exact shop5_rented_reachable.
  - eapply later_in_call with (env := eoa alice 0 3000) (c := DeactivateItem 1).
    + apply later_in_now.
    + vm_compute. reflexivity.
  - vm_compute. discriminate.
  - vm_compute. reflexivity.
Defined.

(** X8: only [rentItem] can change an answer of [hasActiveRental]: after
    any other successful call the answer is the same for every time, item
    and user. *)
Theorem X8_only_rentItem_changes_hasActiveRental
    (env : Env) (c : Call) (s s' : State) (now i u : Z) :
  run env c s = Ok s' ->
  (forall iid st en, c <> RentItem iid st en) ->
  hasActiveRental s' now i u = hasActiveRental s now i u.
Proof.
  intros Hrun Hc.
  assert (Hsame : same_rental_book s s' ->
                  hasActiveRental s' now i u = hasActiveRental s now i u).
  { intros [E1 E2]. unfold hasActiveRental, userRentals_at. rewrite E2.
    induction (default [] (userRentals s !! u)) as [|r l IH]; [reflexivity|].
    cbn [hasActiveRental_scan]. rewrite IH. unfold rentals_at. rewrite E1. reflexivity. }
  apply Hsame.
  destruct c;
    try (apply (admin_effect env) in Hrun; [|exact I];
         destruct Hrun as (_ & Hrb & _); exact Hrb);
    apply run_inv in Hrun.
  - destruct Hrun as (newId & Hcr). apply createItem_effect in Hcr.
    destruct Hcr as (_ & _ & _ & _ & _ & _ & Hrb). exact Hrb.
  - apply purchaseItem_effect in Hrun. destruct Hrun as (_ & _ & Hrb & _). exact Hrb.
  - exfalso. eapply Hc. reflexivity.
  - apply updateItemPrices_effect in Hrun. destruct Hrun as (_ & _ & Hrb & _). exact Hrb.
  - apply deactivateItem_effect in Hrun. destruct Hrun as (_ & _ & Hrb & _). exact Hrb.
Qed.

Lemma X8_only_rentItem_changes_hasActiveRental_witness :
  hasActiveRental (transact (eoa alice 0 3000) (UpdateItemPrices 1 7 7) shop5_rented)
    5000 1 bob = hasActiveRental shop5_rented 5000 1 bob.
Proof.
  apply (X8_only_rentItem_changes_hasActiveRental (eoa alice 0 3000)
           (UpdateItemPrices 1 7 7)).
  - vm_compute. reflexivity.
  - intros iid st en. discriminate.
Defined.

(** ** Where the money goes *)

Lemma new_effects_app (s s' : State) (l : list Effect) :
  journal s' = journal s ++ l -> new_effects s s' = l.
Proof. unfold new_effects. intros ->. apply drop_app_length. Qed.

(** X9: a successful [rentItem] keeps none of the payment in the contract:
    the item's owner is sent exactly the rental cost, the renter is sent
    back exactly what was paid beyond it, and nobody else is sent
    anything. *)
Theorem X9_rental_payment_is_settled_exactly
    (env : Env) (iid st en : Z) (s s' : State) (u : unit) :
  rentItem env iid st en s = Ok (u, s') ->
  let cost := rental_cost (en - st) (item_rentalPrice (items_at s iid)) in
  let seller := item_owner (items_at s iid) in
  balance s' = balance s /\
  seller <> msg_sender env /\
  sent_to seller (new_effects s s') = cost /\
  sent_to (msg_sender env) (new_effects s s') = msg_value env - cost /\
  (forall a, a <> seller -> a <> msg_sender env -> sent_to a (new_effects s s') = 0).
Proof.
  intros H. cbv zeta.
  pose proof (rentItem_effect _ _ _ _ _ _ _ H) as
    ((_ & _ & _ & _ & _ & _ & Hown & _ & Hpay) & _ & _ & _ & _ & _ & _ & Hj).
  cbv zeta in Hpay, Hj.
  apply rentItem_post in H. cbv zeta in H.
  assert (Hb : balance s' = balance s) by (rewrite H; reflexivity).
  rewrite (new_effects_app s s' _ Hj).
  set (cost := rental_cost (en - st) (item_rentalPrice (items_at s iid))) in *.
  set (seller := item_owner (items_at s iid)) in *.
  split; [exact Hb|]. split; [exact Hown|].
  destruct (Z.ltb_spec cost (msg_value env)) as [Hlt|Hge]; cbn [app sent_to foldr];
    rewrite ?Z.eqb_refl;
    destruct (Z.eqb_spec seller (msg_sender env)) as [E|_]; try congruence.
  - destruct (Z.eqb_spec (msg_sender env) seller) as [E|_]; [congruence|].
    split; [lia|]. split; [lia|].
    intros a Ha Hb'.
    destruct (Z.eqb_spec (msg_sender env) a); [congruence|].
    destruct (Z.eqb_spec seller a); [congruence|]. reflexivity.
  - split; [lia|]. split; [lia|].
    intros a Ha Hb'. destruct (Z.eqb_spec seller a); [congruence|]. reflexivity.
Qed.

Lemma X9_rental_payment_is_settled_exactly_witness :
  balance shop5_rented = balance shop5 /\
  sent_to alice (new_effects shop5 shop5_rented) = 150 /\
  sent_to bob (new_effects shop5 shop5_rented) = 50.
Proof.
  destruct (X9_rental_payment_is_settled_exactly rent_env 1 2000 131600 shop5
              shop5_rented tt) as (H1 & _ & H2 & H3 & _).
  - vm_compute. reflexivity.
  - split; [exact H1|]. split; [exact H2|exact H3].
Defined.

(** X10: a successful [purchaseItem] sends the seller exactly the item's
    price and sends the buyer back exactly what was paid beyond it, keeping
    nothing in the contract; only when the stored owner is the zero address
    is no payout made, and the price then stays in the contract. *)
Theorem X10_purchase_payment_is_settled_exactly
    (env : Env) (iid : Z) (s s' : State) (u : unit) :
  purchaseItem env iid s = Ok (u, s') ->
  let price := item_price (items_at s iid) in
  let seller := item_owner (items_at s iid) in
  sent_to (msg_sender env) (new_effects s s') = msg_value env - price /\
  (seller <> 0 ->
   balance s' = balance s /\ sent_to seller (new_effects s s') = price /\
   forall a, a <> seller -> a <> msg_sender env -> sent_to a (new_effects s s') = 0) /\
  (seller = 0 ->
   balance s' = balance s + price /\
   forall a, a <> msg_sender env -> sent_to a (new_effects s s') = 0).
Proof.
  intros H. cbv zeta.
  pose proof (purchaseItem_effect _ _ _ _ _ H) as ((_ & _ & _ & Hpay & Hown) & _).
  apply purchaseItem_post in H. cbv zeta in H.
  assert (Hb : balance s' = if item_owner (items_at s iid) =? 0
                            then balance s + item_price (items_at s iid) else balance s)
    by (rewrite H; reflexivity).
  assert (Hj : journal s' = journal s ++ _) by (rewrite H; reflexivity).
  rewrite (new_effects_app s s' _ Hj). clear Hj H.
  set (price := item_price (items_at s iid)) in *.
  set (seller := item_owner (items_at s iid)) in *.
  destruct (Z.eqb_spec seller 0) as [Hz|Hnz];
    destruct (Z.ltb_spec price (msg_value env)) as [Hlt|Hge];
    cbn [app sent_to foldr]; rewrite ?Z.eqb_refl;
    repeat match goal with
    | |- context [seller =? msg_sender env] =>
        destruct (Z.eqb_spec seller (msg_sender env)); [congruence|]
    end.
  - split; [lia|]. split; [contradiction|]. intros _. split; [lia|].
    intros a Ha. destruct (Z.eqb_spec (msg_sender env) a); [congruence|reflexivity].
  - split; [lia|]. split; [contradiction|]. intros _. split; [lia|]. reflexivity.
  - split; [lia|]. split; [|contradiction]. intros _. split; [exact Hb|]. split.
    + destruct (Z.eqb_spec (msg_sender env) seller); [congruence|]. lia.
    + intros a Ha Hb'. destruct (Z.eqb_spec seller a); [congruence|].
      destruct (Z.eqb_spec (msg_sender env) a); [congruence|reflexivity].
  - split; [lia|]. split; [|contradiction]. intros _. split; [exact Hb|]. split; [lia|].
    intros a Ha Hb'. destruct (Z.eqb_spec seller a); [congruence|reflexivity].
Qed.

Lemma X10_purchase_payment_is_settled_exactly_witness :
  balance (transact (eoa bob 130 2000) (PurchaseItem 1) shop1) = balance shop1 /\
  sent_to alice (new_effects shop1 (transact (eoa bob 130 2000) (PurchaseItem 1) shop1))
    = 100 /\
  sent_to bob (new_effects shop1 (transact (eoa bob 130 2000) (PurchaseItem 1) shop1))
    = 30.
Proof.
  destruct (X10_purchase_payment_is_settled_exactly (eoa bob 130 2000) 1 shop1
              (transact (eoa bob 130 2000) (PurchaseItem 1) shop1) tt)
    as (H1 & H2 & _).
  - vm_compute. reflexivity.
  - destruct H2 as (H2 & H3 & _); [vm_compute; discriminate|].
    split; [exact H2|]. split; [exact H3|exact H1].
Defined.

(** ** Which check rejects a call *)

Lemma empty_test (t : string) : (0 <? Z.of_nat (String.length t)) = false <-> t = EmptyString.
Proof.
  destruct t; cbn [String.length]; split; intros H; try reflexivity; try discriminate.
  all: try (apply Z.ltb_ge in H; lia).
Qed.

Lemma nonempty_test (t : string) : (0 <? Z.of_nat (String.length t)) = true <-> t <> EmptyString.
Proof.
  destruct t; cbn [String.length]; split; intros H; try congruence; try discriminate.
  all: try (apply Z.ltb_lt; lia).
Qed.

(** X11: [createItem] sent without ether is rejected for an empty title
    ("Title cannot be empty"), else for an empty blob id ("Blob ID cannot
    be empty"), else when neither price is positive ("Must set either
    purchase or rental price"); in every other case it succeeds and returns
    the incremented item counter.  Duplicate titles are not checked. *)
Theorem X11_createItem_outcome
    (env : Env) (t d b : string) (p rp : Z) (s : State) :
  msg_value env = 0 ->
  (t = EmptyString ->
   createItem env t d b p rp s = Err (Revert "Title cannot be empty")) /\
  (t <> EmptyString -> b = EmptyString ->
   createItem env t d b p rp s = Err (Revert "Blob ID cannot be empty")) /\
  (t <> EmptyString -> b <> EmptyString -> p <= 0 -> rp <= 0 ->
   createItem env t d b p rp s = Err (Revert "Must set either purchase or rental price")) /\
  (t <> EmptyString -> b <> EmptyString -> 0 < p \/ 0 < rp ->
   exists s', createItem env t d b p rp s = Ok (Counters_increment (_itemIds s), s')).
Proof.
  intros Hv. apply Z.eqb_eq in Hv.
  split; [|split; [|split]].
  - intros Ht. apply empty_test in Ht.
    unfold createItem, nonpayable. mforward. reflexivity.
  - intros Ht Hb. apply nonempty_test in Ht. apply empty_test in Hb.
    unfold createItem, nonpayable. mforward. reflexivity.
  - intros Ht Hb Hp Hrp. apply nonempty_test in Ht. apply nonempty_test in Hb.
    apply Z.ltb_ge in Hp. apply Z.ltb_ge in Hrp.
    unfold createItem, nonpayable. mforward. reflexivity.
  - intros Ht Hb Hprice. apply nonempty_test in Ht. apply nonempty_test in Hb.
    assert (Hor : (0 <? p) || (0 <? rp) = true).
    { apply orb_true_iff. destruct Hprice; [left|right]; apply Z.ltb_lt; assumption. }
    unfold createItem, nonpayable, emit. mforward. eexists. reflexivity.
Qed.

Lemma X11_createItem_outcome_witness :
  createItem (eoa alice 0 1000) EmptyString "d" "cid" 1 0 shop1 =
    Err (Revert "Title cannot be empty") /\
  createItem (eoa alice 0 1000) "t" "d" "cid" 0 0 shop1 =
    Err (Revert "Must set either purchase or rental price") /\
  (exists s', createItem (eoa alice 0 1000) "Paper A" "again" "cid" 0 1 shop1 = Ok (2, s')).
Proof.
  destruct (X11_createItem_outcome (eoa alice 0 1000) EmptyString "d" "cid" 1 0 shop1)
    as (H1 & _); [reflexivity|].
  destruct (X11_createItem_outcome (eoa alice 0 1000) "t" "d" "cid" 0 0 shop1)
    as (_ & _ & H2 & _); [reflexivity|].
  destruct (X11_createItem_outcome (eoa alice 0 1000) "Paper A" "again" "cid" 0 1 shop1)
    as (_ & _ & _ & H3); [reflexivity|].
  split; [apply H1; reflexivity|].
  split; [apply H2; [discriminate|discriminate|lia|lia]|].
  apply H3; [discriminate|discriminate|right; lia].
Defined.

(** States the facts at hand as the boolean tests the source makes. *)
Ltac as_tests :=
  repeat match goal with
  | H : ?a < ?b |- _ =>
      pose proof (proj2 (Z.ltb_lt a b) H); pose proof (proj2 (Z.leb_gt b a) H);
      pose proof (proj2 (Z.leb_le a b) (Z.lt_le_incl a b H)); clear H
  | H : ?a <= ?b |- _ =>
      pose proof (proj2 (Z.leb_le a b) H); pose proof (proj2 (Z.ltb_ge b a) H); clear H
  | H : ?a <> ?b :> Z |- _ =>
      pose proof (proj2 (Z.eqb_neq a b) H); clear H
  | H : ?a = ?b :> Z |- _ =>
      pose proof (proj2 (Z.eqb_eq a b) H); clear H
  end.

Ltac rent_forward :=
  as_tests;
  unfold rentItem, payable, nonReentrant, itemExists, validRentalPeriod, read_item,
    checked_add, checked_sub, checked_mul;
  mforward.

(** X12: the checks of [rentItem] in the order they reject a call (with the
    reentrancy guard at rest): unknown identifier, inactive item, start
    before the current block time, end not after start, end beyond the
    block time plus 365 days, item not for rent, renting one's own item,
    payment below the cost.  A start equal to the block time and an end
    exactly 365 days after it are accepted by the period check. *)
Theorem X12_rentItem_checks_in_order (env : Env) (iid st en : Z) (s : State) :
  _status s <> ENTERED ->
  let now := block_timestamp env in
  let it := items_at s iid in
  (_itemIds s < iid ->
   rentItem env iid st en s = Err (Revert "Item does not exist")) /\
  (iid <= _itemIds s -> item_isActive it = false ->
   rentItem env iid st en s = Err (Revert "Item is not active")) /\
  (iid <= _itemIds s -> item_isActive it = true ->
   (st < now ->
    rentItem env iid st en s = Err (Revert "Start time must be in the future")) /\
   (now <= st -> en <= st ->
    rentItem env iid st en s = Err (Revert "End time must be after start time")) /\
   (now <= st -> st < en -> now + DAYS_365 <= MAX_UINT256 -> now + DAYS_365 < en ->
    rentItem env iid st en s = Err (Revert "Rental period too long")) /\
   (now <= st -> st < en -> en <= now + DAYS_365 -> now + DAYS_365 <= MAX_UINT256 ->
    (item_rentalPrice it <= 0 ->
     rentItem env iid st en s = Err (Revert "Item is not available for rent")) /\
    (0 < item_rentalPrice it -> item_owner it = msg_sender env ->
     rentItem env iid st en s = Err (Revert "Cannot rent your own item")) /\
    (0 < item_rentalPrice it -> item_owner it <> msg_sender env ->
     (en - st) * item_rentalPrice it <= MAX_UINT256 ->
     msg_value env < rental_cost (en - st) (item_rentalPrice it) ->
     rentItem env iid st en s = Err (Revert "Insufficient payment for rental")))).
Proof.
  intros Hst. cbv zeta. unfold rental_cost.
  split; [|split; [|split; [|split; [|split; [|split; [|split]]]]]]; intros.
  - rent_forward. reflexivity.
  - rent_forward. reflexivity.
  - rent_forward. reflexivity.
  - rent_forward. reflexivity.
  - rent_forward. reflexivity.
  - rent_forward. reflexivity.
  - rent_forward. reflexivity.
  - rent_forward. reflexivity.
Qed.

(** As [mforward], also deciding conjunctions of tests. *)
Ltac mrun :=
  repeat first
    [ progress (unfold bind, get, modify, require, ret, fail, lift, when)
    | progress (ssimpl; cbn [negb andb orb])
    | match goal with
      | H : ?c = true |- context [?c] => rewrite H
      | H : ?c = false |- context [?c] => rewrite H
      end ].

Lemma X12_rentItem_checks_in_order_witness :
  rentItem (eoa bob 200 2000) 1 1999 131600 shop5 =
    Err (Revert "Start time must be in the future") /\
  rentItem (eoa bob 200 2000) 1 2000 2000 shop5 =
    Err (Revert "End time must be after start time") /\
  rentItem (eoa bob 200 2000) 1 2000 (2000 + DAYS_365 + 1) shop5 =
    Err (Revert "Rental period too long") /\
  rentItem (eoa bob 200 2000) 3 2000 131600 shop5 = Err (Revert "Item is not active") /\
  rentItem (eoa alice 200 2000) 1 2000 131600 shop5 =
    Err (Revert "Cannot rent your own item").
Proof.
  assert (Hst : _status shop5 <> ENTERED) by (vm_compute; discriminate).
  destruct (X12_rentItem_checks_in_order (eoa bob 200 2000) 1 1999 131600 shop5 Hst)
    as (_ & _ & H1).
  destruct (X12_rentItem_checks_in_order (eoa bob 200 2000) 1 2000 2000 shop5 Hst)
    as (_ & _ & H2).
  destruct (X12_rentItem_checks_in_order (eoa bob 200 2000) 1 2000 (2000 + DAYS_365 + 1)
              shop5 Hst) as (_ & _ & H3).
  destruct (X12_rentItem_checks_in_order (eoa bob 200 2000) 3 2000 131600 shop5 Hst)
    as (_ & H4 & _).
  destruct (X12_rentItem_checks_in_order (eoa alice 200 2000) 1 2000 131600 shop5 Hst)
    as (_ & _ & H5).
  split; [|split; [|split; [|split]]].
  - apply H1; [vm_compute; discriminate|reflexivity|vm_compute; reflexivity].
  - apply H2; [vm_compute; discriminate|reflexivity|vm_compute; discriminate
              |vm_compute; discriminate].
  - apply H3; [vm_compute; discriminate|reflexivity|vm_compute; discriminate
              |vm_compute; reflexivity|vm_compute; discriminate|vm_compute; reflexivity].
  - apply H4; [vm_compute; discriminate|reflexivity].
  - destruct H5 as (_ & _ & _ & H5); [vm_compute; discriminate|reflexivity|].
    destruct H5 as (_ & H5 & _);
      [vm_compute; discriminate|vm_compute; reflexivity|vm_compute; discriminate
      |vm_compute; discriminate|].
    apply H5; [vm_compute; reflexivity|reflexivity].
Defined.

Lemma rentItem_goes_through (env : Env) (iid st en : Z) (s : State) :
  let now := block_timestamp env in
  let it := items_at s iid in
  let cost := rental_cost (en - st) (item_rentalPrice it) in
  _status s <> ENTERED -> 0 <= balance s ->
  iid <= _itemIds s -> item_isActive it = true ->
  now <= st -> st < en -> en <= now + DAYS_365 -> now + DAYS_365 <= MAX_UINT256 ->
  0 < item_rentalPrice it -> item_owner it <> msg_sender env ->
  (en - st) * item_rentalPrice it <= MAX_UINT256 -> cost <= msg_value env ->
  item_totalRentals it + 1 <= MAX_UINT256 ->
  item_totalRevenue it + cost <= MAX_UINT256 ->
  accepts_ether env (item_owner it) = true ->
  (cost < msg_value env -> accepts_ether env (msg_sender env) = true) ->
  exists s', rentItem env iid st en s = Ok (tt, s').
Proof.
  cbv zeta. unfold rental_cost.
  intros Hst Hbal Hid Hact H1 H2 H3 H4 Hrp Hown Hmul Hpay Hcnt Hrev Hacc Hacc2.
  set (cost := ((en - st) * item_rentalPrice (items_at s iid)) `div` ONE_DAY) in *.
  assert (Hf1 : cost <= balance s + msg_value env) by lia.
  assert (Hf2 : msg_value env - cost <= balance s + msg_value env - cost) by lia.
  destruct (Z.ltb_spec cost (msg_value env)) as [Hlt|Hge].
  - specialize (Hacc2 Hlt).
    destruct (hasRented_at s iid (msg_sender env)) eqn:Hk;
      subst cost; rent_forward.
    all: unfold push_userRentals, push_itemRenters, update_item, transfer, emit, read_item.
    all: mrun.
    all: eexists; reflexivity.
  - assert (Hnlt : (cost <? msg_value env) = false) by (apply Z.ltb_ge; lia).
    destruct (hasRented_at s iid (msg_sender env)) eqn:Hk;
      subst cost; rent_forward.
    all: unfold push_userRentals, push_itemRenters, update_item, transfer, emit, read_item.
    all: mrun.
    all: eexists; reflexivity.
Qed.

(** X13: [rentItem] goes through whenever every check passes, the item's
    two counters have room, and the owner (and the renter, if there is
    change to return) accepts ether: nothing else can stop it. *)
Theorem X13_rentItem_succeeds (env : Env) (iid st en : Z) (s : State) :
  let now := block_timestamp env in
  let it := items_at s iid in
  let cost := rental_cost (en - st) (item_rentalPrice it) in
  _status s <> ENTERED -> 0 <= balance s ->
  iid <= _itemIds s -> item_isActive it = true ->
  now <= st -> st < en -> en <= now + DAYS_365 -> now + DAYS_365 <= MAX_UINT256 ->
  0 < item_rentalPrice it -> item_owner it <> msg_sender env ->
  (en - st) * item_rentalPrice it <= MAX_UINT256 -> cost <= msg_value env ->
  item_totalRentals it + 1 <= MAX_UINT256 ->
  item_totalRevenue it + cost <= MAX_UINT256 ->
  accepts_ether env (item_owner it) = true ->
  (cost < msg_value env -> accepts_ether env (msg_sender env) = true) ->
  exists s', rentItem env iid st en s = Ok (tt, s').
Proof. exact (rentItem_goes_through env iid st en s). Qed.

Lemma X13_rentItem_succeeds_witness :
  exists s', rentItem rent_env 1 2000 131600 shop5 = Ok (tt, s').
Proof.
  apply X13_rentItem_succeeds; try (vm_compute; discriminate);
    try (vm_compute; reflexivity).
Defined.

Ltac purchase_forward :=
  as_tests;
  unfold purchaseItem, payable, nonReentrant, itemExists, read_item, update_item,
    push_userItems, push_ownershipHistory, transfer, emit, checked_sub;
  mrun.



(** ** Owner-only calls *)

Ltac owner_forward :=
  as_tests;
  unfold updateItemPrices, deactivateItem, nonpayable, onlyItemOwner, itemExists,
    update_item, emit;
  mrun.

Lemma updateItemPrices_not_owner (env : Env) (iid p rp : Z) (s : State) :
  msg_value env = 0 -> item_owner (items_at s iid) <> msg_sender env ->
  updateItemPrices env iid p rp s = Err (Revert "Not the item owner").
Proof. intros. owner_forward. reflexivity. Qed.

Lemma deactivateItem_not_owner (env : Env) (iid : Z) (s : State) :
  msg_value env = 0 -> item_owner (items_at s iid) <> msg_sender env ->
  deactivateItem env iid s = Err (Revert "Not the item owner").
Proof. intros. owner_forward. reflexivity. Qed.

Lemma updateItemPrices_succeeds (env : Env) (iid p rp : Z) (s : State) :
  msg_value env = 0 -> item_owner (items_at s iid) = msg_sender env ->
  iid <= _itemIds s -> item_isActive (items_at s iid) = true -> 0 < p \/ 0 < rp ->
  updateItemPrices env iid p rp s =
    Ok (tt, set_journal (journal s ++ [Emit (ItemUpdated iid p rp)])
              (set_items (<[iid := item_with_prices p rp (items_at s iid)]> (items s)) s)).
Proof.
  intros Hv Ho Hi Ha Hp.
  assert (Hor : (0 <? p) || (0 <? rp) = true).
  { apply orb_true_iff. destruct Hp; [left|right]; apply Z.ltb_lt; assumption. }
  clear Hp. owner_forward. reflexivity.
Qed.

Lemma deactivateItem_succeeds (env : Env) (iid : Z) (s : State) :
  msg_value env = 0 -> item_owner (items_at s iid) = msg_sender env ->
  iid <= _itemIds s -> item_isActive (items_at s iid) = true ->
  deactivateItem env iid s =
    Ok (tt, set_journal (journal s ++ [Emit (ItemDeactivated iid)])
              (set_items (<[iid := item_with_isActive false (items_at s iid)]> (items s)) s)).
Proof. intros. owner_forward. reflexivity. Qed.

(** X15: [updateItemPrices] and [deactivateItem] test the caller against
    the stored owner before anything else: any other caller gets "Not the
    item owner", whatever the state of the item.  For the owner,
    [updateItemPrices] on an active item is rejected when neither new price
    is positive and otherwise overwrites both prices, touching nothing else
    of the item; on an inactive item it is rejected with "Item is not
    active". *)
Theorem X15_owner_only_calls (env : Env) (iid p rp : Z) (s : State) :
  msg_value env = 0 ->
  let it := items_at s iid in
  (item_owner it <> msg_sender env ->
   updateItemPrices env iid p rp s = Err (Revert "Not the item owner") /\
   deactivateItem env iid s = Err (Revert "Not the item owner")) /\
  (item_owner it = msg_sender env -> iid <= _itemIds s ->
   (item_isActive it = false ->
    updateItemPrices env iid p rp s = Err (Revert "Item is not active")) /\
   (item_isActive it = true -> p <= 0 -> rp <= 0 ->
    updateItemPrices env iid p rp s =
      Err (Revert "Must set either purchase or rental price")) /\
   (item_isActive it = true -> 0 < p \/ 0 < rp ->
    exists s', updateItemPrices env iid p rp s = Ok (tt, s') /\
               items_at s' iid = item_with_prices p rp it /\
               forall j, j <> iid -> items_at s' j = items_at s j)).
Proof.
  intros Hv. cbv zeta. split.
  - intros Ho. split;
      [apply updateItemPrices_not_owner|apply deactivateItem_not_owner]; assumption.
  - intros Ho Hi. split; [|split].
    + intros Ha. owner_forward. reflexivity.
    + intros Ha Hp Hrp. owner_forward. reflexivity.
    + intros Ha Hp. eexists. split; [apply updateItemPrices_succeeds; assumption|].
      unfold items_at. cbn [items set_journal set_items]. split.
      * rewrite lookup_insert_eq. reflexivity.
      * intros j Hj. rewrite lookup_insert_ne by congruence. reflexivity.
Qed.

Lemma X15_owner_only_calls_witness :
  updateItemPrices (eoa bob 0 2000) 1 5 5 shop1 = Err (Revert "Not the item owner") /\
  updateItemPrices (eoa alice 0 2000) 1 0 0 shop1 =
    Err (Revert "Must set either purchase or rental price") /\
  updateItemPrices (eoa alice 0 2000) 3 5 5 shop5 = Err (Revert "Item is not active") /\
  (exists s', updateItemPrices (eoa alice 0 2000) 1 0 25 shop1 = Ok (tt, s') /\
              item_price (items_at s' 1) = 0 /\ item_rentalPrice (items_at s' 1) = 25).
Proof.
  destruct (X15_owner_only_calls (eoa bob 0 2000) 1 5 5 shop1 eq_refl) as (H1 & _).
  destruct (X15_owner_only_calls (eoa alice 0 2000) 1 0 0 shop1 eq_refl) as (_ & H2).
  destruct (X15_owner_only_calls (eoa alice 0 2000) 3 5 5 shop5 eq_refl) as (_ & H3).
  destruct (X15_owner_only_calls (eoa alice 0 2000) 1 0 25 shop1 eq_refl) as (_ & H4).
  split; [apply H1; vm_compute; discriminate|].
  split.
  { destruct H2 as (_ & H2 & _); [reflexivity|vm_compute; discriminate|].
    apply H2; [reflexivity|lia|lia]. }
  split.
  { destruct H3 as (H3 & _); [reflexivity|vm_compute; discriminate|].
    apply H3. reflexivity. }
  destruct H4 as (_ & _ & H4); [reflexivity|vm_compute; discriminate|].
  destruct H4 as (s' & Hs & Hit & _); [reflexivity|right; lia|].
  exists s'. split; [exact Hs|]. rewrite Hit. split; reflexivity.
Defined.

(** ** Identifiers that were never handed out *)

(** Between transactions the reentrancy guard is at rest. *)
Lemma reachable_status (n : nat) (s : State) : reachable n s -> _status s = NOT_ENTERED.
Proof.
  induction 1 as [d _|n s s' env c _ IH _ _ Hrun]; [reflexivity|].
  destruct c; apply run_inv in Hrun.
  - destruct Hrun as (newId & Hc). apply createItem_post in Hc. destruct Hc as (_ & ->).
    exact IH.
  - apply purchaseItem_post in Hrun. cbv zeta in Hrun. subst s'. reflexivity.
  - apply rentItem_post in Hrun. cbv zeta in Hrun. subst s'. reflexivity.
  - apply updateItemPrices_post in Hrun. subst s'. exact IH.
  - apply deactivateItem_post in Hrun. subst s'. exact IH.
  - apply emergencyWithdraw_post in Hrun. destruct Hrun as (_ & _ & _ & ->). exact IH.
  - unfold transferOwnership in Hrun. minv Hrun. exact IH.
  - unfold renounceOwnership in Hrun. minv Hrun. exact IH.
Qed.

Lemma unallocated_reads_zero (n : nat) (s : State) (iid : Z) :
  reachable n s -> Z.of_nat n <= MAX_UINT256 ->
  iid < 1 \/ _itemIds s < iid ->
  items_at s iid = zero_item /\ history_at s iid = [] /\ itemRenters_at s iid = [].
Proof.
  intros Hr Hn Hid.
  destruct (reachable_invariants n s Hr Hn)
    as ([_ _ Hit _ _] & [Hst _ _ Hfl] & [_ Hri Hflag _] & _).
  assert (Hno : items s !! iid = None).
  { destruct (items s !! iid) as [it|] eqn:E; [|reflexivity].
    destruct (Hit iid it E). lia. }
  split; [unfold items_at; rewrite Hno; reflexivity|]. split.
  - destruct (history_at s iid) as [|r h] eqn:E; [reflexivity|].
    destruct (Hst iid) as [it Hs]; [rewrite E; discriminate|]. congruence.
  - destruct (itemRenters_at s iid) as [|a l] eqn:E; [reflexivity|].
    assert (Hin : a ∈ itemRenters_at s iid) by (rewrite E; left).
    apply Hfl, Hflag in Hin. destruct Hin as (rid & rt & Hrt & Hi & _).
    destruct (Hri rid rt Hrt) as ([it Hs] & _). rewrite Hi in Hs. congruence.
Qed.

(** X16: identifier 0 passes the bound check of every call although no
    item has it.  In storage reached by fewer than 2^256 transactions,
    [purchaseItem 0] and [rentItem 0] are rejected with "Item is not
    active" (not "Item does not exist"), [getOwnershipHistory 0] and
    [getItemRenters 0] return empty lists instead of failing, and the
    owner-only calls on 0 or on an identifier above the counter answer "Not
    the item owner" to every caller but the zero address. *)
Theorem X16_unallocated_identifiers
    (n : nat) (s : State) (env : Env) (st en p rp iid : Z) :
  reachable n s -> Z.of_nat n <= MAX_UINT256 ->
  purchaseItem env 0 s = Err (Revert "Item is not active") /\
  rentItem env 0 st en s = Err (Revert "Item is not active") /\
  getOwnershipHistory s 0 = Ok [] /\ getItemRenters s 0 = Ok [] /\
  (iid = 0 \/ getTotalItems s < iid -> msg_value env = 0 -> msg_sender env <> 0 ->
   deactivateItem env iid s = Err (Revert "Not the item owner") /\
   updateItemPrices env iid p rp s = Err (Revert "Not the item owner")).
Proof.
  intros Hr Hn.
  destruct (reachable_invariants n s Hr Hn) as ([Hi _ _ _ _] & _).
  pose proof (reachable_status n s Hr) as Hst.
  destruct (unallocated_reads_zero n s 0 Hr Hn) as (Hz & Hh & Hre); [lia|].
  assert (Hst' : _status s <> ENTERED) by (rewrite Hst; discriminate).
  assert (Hact : item_isActive (items_at s 0) = false) by (rewrite Hz; reflexivity).
  assert (Hle : 0 <= _itemIds s) by lia.
  split; [|split; [|split; [|split]]].
  - clear Hz Hh Hre Hi Hst. purchase_forward. reflexivity.
  - clear Hz Hh Hre Hi Hst. rent_forward. reflexivity.
  - unfold getOwnershipHistory. destruct (Z.leb_spec 0 (_itemIds s)); [|lia].
    rewrite Hh. reflexivity.
  - unfold getItemRenters. destruct (Z.leb_spec 0 (_itemIds s)); [|lia].
    rewrite Hre. reflexivity.
  - unfold getTotalItems. intros Hid Hv Hs.
    destruct (unallocated_reads_zero n s iid Hr Hn) as (Hz' & _); [lia|].
    assert (Ho : item_owner (items_at s iid) <> msg_sender env).
    { rewrite Hz'. cbn. congruence. }
    split; [apply deactivateItem_not_owner|apply updateItemPrices_not_owner]; assumption.
Qed.

Lemma X16_unallocated_identifiers_witness :
  purchaseItem (eoa bob 100 2000) 0 shop5 = Err (Revert "Item is not active") /\
  getOwnershipHistory shop5 0 = Ok [] /\
  deactivateItem (eoa bob 0 2000) 9 shop5 = Err (Revert "Not the item owner").
Proof.
  destruct (X16_unallocated_identifiers 6 shop5 (eoa bob 100 2000) 2000 3000 1 1 0)
    as (H1 & _ & H2 & _).
  - exact shop5_reachable.
  - vm_compute. discriminate.
  - destruct (X16_unallocated_identifiers 6 shop5 (eoa bob 0 2000) 2000 3000 1 1 9)
      as (_ & _ & _ & _ & H3).
    + exact shop5_reachable.
    + vm_compute. discriminate.
    + destruct H3 as [H3 _]; [right; vm_compute; reflexivity|reflexivity
                             |vm_compute; discriminate|].
      split; [exact H1|]. split; [exact H2|exact H3].
Defined.

(** ** Rights follow ownership *)

(** X17: once a purchase has gone through, the seller can no longer change
    the prices of the item or deactivate it ("Not the item owner"), while
    the buyer can set new prices at once. *)
Theorem X17_rights_follow_ownership
    (env envA envB : Env) (iid p rp : Z) (s s1 : State) (u : unit) :
  purchaseItem env iid s = Ok (u, s1) ->
  msg_sender envA = item_owner (items_at s iid) -> msg_value envA = 0 ->
  msg_sender envB = msg_sender env -> msg_value envB = 0 ->
  0 < p \/ 0 < rp ->
  updateItemPrices envA iid p rp s1 = Err (Revert "Not the item owner") /\
  deactivateItem envA iid s1 = Err (Revert "Not the item owner") /\
  exists s2,
    updateItemPrices envB iid p rp s1 = Ok (tt, s2) /\
    item_price (items_at s2 iid) = p /\ item_rentalPrice (items_at s2 iid) = rp /\
    item_owner (items_at s2 iid) = msg_sender env.
Proof.
  intros Hbuy HA HvA HB HvB Hp.
  apply purchaseItem_effect in Hbuy.
  destruct Hbuy as ((Hid & Hact & _ & _ & Hown) & [Hc _] & _ & Hitems & _).
  assert (Hnew : items_at s1 iid = item_with_owner (msg_sender env) (items_at s iid)).
  { unfold items_at at 1. rewrite Hitems, lookup_insert_eq. reflexivity. }
  assert (HownA : item_owner (items_at s1 iid) <> msg_sender envA).
  { rewrite Hnew, HA. cbn. congruence. }
  split; [apply updateItemPrices_not_owner; assumption|].
  split; [apply deactivateItem_not_owner; assumption|].
  eexists. split.
  - apply updateItemPrices_succeeds; try assumption.
    + rewrite Hnew, HB. reflexivity.
    + rewrite Hc. exact Hid.
    + rewrite Hnew. exact Hact.
  - assert (Hit : forall m x, items_at (set_journal m (set_items (<[iid:=x]> (items s1)) s1))
                               iid = x).
    { intros m x. unfold items_at. cbn [items set_journal set_items].
      rewrite lookup_insert_eq. reflexivity. }
    rewrite !Hit. cbn. rewrite Hnew. cbn. auto.
Qed.

Lemma X17_rights_follow_ownership_witness :
  updateItemPrices (eoa alice 0 3000) 1 200 20 shop1_sold =
    Err (Revert "Not the item owner") /\
  exists s2,
    updateItemPrices (eoa bob 0 3000) 1 200 20 shop1_sold = Ok (tt, s2) /\
    item_price (items_at s2 1) = 200 /\ item_rentalPrice (items_at s2 1) = 20.
Proof.
  destruct (X17_rights_follow_ownership (eoa bob 100 2000) (eoa alice 0 3000)
              (eoa bob 0 3000) 1 200 20 shop1 shop1_sold tt)
    as (H1 & _ & s2 & H2 & H3 & H4 & _).
  - vm_compute. reflexivity.
  - reflexivity.
  - reflexivity.
  - reflexivity.
  - reflexivity.
  - left. lia.
  - split; [exact H1|]. exists s2. auto.
Defined.

(** ** Emergency withdrawal *)

(** X18: [emergencyWithdraw] is refused to everyone but the contract
    owner, and to the owner when the contract holds nothing ("No balance to
    withdraw"); otherwise it sends the whole balance to the owner, leaving
    0, and touches no item, rental, history or index. *)
Theorem X18_emergencyWithdraw_outcome (env : Env) (s : State) :
  msg_value env = 0 ->
  (msg_sender env <> _owner s -> exists e, emergencyWithdraw env s = Err e) /\
  (msg_sender env = _owner s -> balance s <= 0 ->
   emergencyWithdraw env s = Err (Revert "No balance to withdraw")) /\
  (msg_sender env = _owner s -> 0 < balance s -> accepts_ether env (_owner s) = true ->
   exists s',
     emergencyWithdraw env s = Ok (tt, s') /\ balance s' = 0 /\
     sent_to (_owner s) (new_effects s s') = balance s /\ same_ledger s s').
Proof.
  intros Hv. split; [|split].
  - intros Ho. assert (Ho' : _owner s <> msg_sender env) by congruence. clear Ho.
    as_tests. unfold emergencyWithdraw, nonpayable, onlyOwner. mrun. eauto.
  - intros Ho Hb. symmetry in Ho.
    as_tests. unfold emergencyWithdraw, nonpayable, onlyOwner. mrun. reflexivity.
  - intros Ho Hb Hacc. symmetry in Ho.
    assert (Hle : balance s <= balance s) by lia.
    as_tests. unfold emergencyWithdraw, nonpayable, onlyOwner, transfer. mrun.
    eexists. split; [reflexivity|]. split; [cbn; lia|]. split.
    + rewrite (new_effects_app s _ [Transfer (_owner s) (balance s)]) by reflexivity.
      cbn. rewrite Z.eqb_refl. lia.
    + unfold same_ledger. cbn. repeat split; reflexivity.
Qed.


Lemma X18_emergencyWithdraw_outcome_witness :
  (exists e, emergencyWithdraw (eoa bob 0 2000) (set_balance 50 shop1) = Err e) /\
  emergencyWithdraw (eoa deployer 0 2000) shop1 = Err (Revert "No balance to withdraw") /\
  exists s', emergencyWithdraw (eoa deployer 0 2000) (set_balance 50 shop1) = Ok (tt, s') /\
             balance s' = 0.
Proof.
  destruct (X18_emergencyWithdraw_outcome (eoa bob 0 2000) (set_balance 50 shop1))
    as (H1 & _); [reflexivity|].
  destruct (X18_emergencyWithdraw_outcome (eoa deployer 0 2000) shop1)
    as (_ & H2 & _); [reflexivity|].
  destruct (X18_emergencyWithdraw_outcome (eoa deployer 0 2000) (set_balance 50 shop1))
    as (_ & _ & H3); [reflexivity|].
  split; [apply H1; vm_compute; discriminate|].
  split; [apply H2; [reflexivity|vm_compute; discriminate]|].
  destruct H3 as (s' & H3 & H4 & _); [reflexivity|reflexivity|reflexivity|].
  exists s'. auto.
Defined.

(** ** What a rental adds *)

Lemma hasActiveRental_scan_app (s : State) (now iid : Z) (l l' : list Z) :
  hasActiveRental_scan s now iid (l ++ l') =
  hasActiveRental_scan s now iid l || hasActiveRental_scan s now iid l'.
Proof.
  induction l as [|r l IH]; cbn [app hasActiveRental_scan]; [reflexivity|].
  destruct (rental_matches now iid (rentals_at s r)); [reflexivity|exact IH].
Qed.

Lemma hasActiveRental_scan_same (s s' : State) (now iid : Z) (l : list Z) :
  (forall r, r ∈ l -> rentals_at s' r = rentals_at s r) ->
  hasActiveRental_scan s' now iid l = hasActiveRental_scan s now iid l.
Proof.
  induction l as [|r l IH]; intros H; cbn [hasActiveRental_scan]; [reflexivity|].
  rewrite H by left. rewrite IH; [reflexivity|].
  intros r' Hr'. apply H. right. exact Hr'.
Qed.

(** X19: what a successful [rentItem] changes in the answers of
    [hasActiveRental] is exactly this: the renter is now also answered
    [true] for the rented item at every time from the start to the end of
    the period, both included.  Every other answer (other users, other
    items, other times) stays as it was; in particular the new rental does
    not count before its start time.  (Storage reached by fewer than
    2^256 - 1 transactions.) *)
Theorem X19_rentItem_grants_its_window
    (n : nat) (env : Env) (iid st en : Z) (s s' : State) (u : unit) (t i a : Z) :
  reachable n s -> Z.of_nat n < MAX_UINT256 ->
  rentItem env iid st en s = Ok (u, s') ->
  hasActiveRental s' t i a =
    hasActiveRental s t i a ||
    ((i =? iid) && (a =? msg_sender env) && (st <=? t) && (t <=? en)).
Proof.
  intros Hr Hn Hrent.
  destruct (reachable_invariants n s Hr ltac:(lia)) as ([_ Hrid _ Hre Hur] & _).
  apply rentItem_effect in Hrent. cbv zeta in Hrent.
  destruct Hrent as (_ & _ & _ & _ & _ & Hrents & Husr & _).
  rewrite Counters_increment_small in Hrents, Husr by lia.
  assert (Hold : forall b r, r ∈ userRentals_at s b -> rentals_at s' r = rentals_at s r).
  { intros b r Hin. apply Hur in Hin. destruct Hin as (rt & Hrt & _).
    destruct (Hre r rt Hrt) as (Hrange & _).
    unfold rentals_at. rewrite Hrents, lookup_insert_ne by lia. reflexivity. }
  unfold hasActiveRental.
  destruct (Z.eqb_spec a (msg_sender env)) as [->|Hne].
  - unfold userRentals_at at 1. rewrite Husr, lookup_insert_eq. cbn [from_option id].
    rewrite hasActiveRental_scan_app.
    rewrite (hasActiveRental_scan_same s s') by (apply Hold).
    f_equal. cbn [hasActiveRental_scan].
    unfold rentals_at. rewrite Hrents, lookup_insert_eq. cbn [from_option id].
    unfold rental_matches. cbn.
    rewrite (Z.eqb_sym iid i).
    destruct (i =? iid), (st <=? t), (t <=? en); reflexivity.
  - rewrite andb_false_r. cbn [andb]. rewrite orb_false_r.
    unfold userRentals_at at 1. rewrite Husr, lookup_insert_ne by congruence.
    apply hasActiveRental_scan_same, Hold.
Qed.

Lemma X19_rentItem_grants_its_window_witness :
  hasActiveRental shop5_rented 1999 1 bob = false /\
  hasActiveRental shop5_rented 2000 1 bob = true /\
  hasActiveRental shop5_rented 131600 1 bob = true /\
  hasActiveRental shop5_rented 131601 1 bob = false.
Proof.
  assert (H : forall t, hasActiveRental shop5_rented t 1 bob =
                        hasActiveRental shop5 t 1 bob ||
                        ((1 =? 1) && (bob =? msg_sender rent_env) && (2000 <=? t) &&
                         (t <=? 131600))).
  { intros t. apply (X19_rentItem_grants_its_window 6 rent_env 1 2000 131600 shop5
                       shop5_rented tt t 1 bob).
    - exact shop5_reachable.
    - vm_compute. reflexivity.
    - vm_compute. reflexivity. }
  rewrite !H. vm_compute. repeat split; reflexivity.
Defined.


(** ** The marketplace page's rental *)




(** ** The client on a live node *)

Lemma active_lookup (s : State) (i : Z) :
  item_isActive (items_at s i) = true -> items s !! i = Some (items_at s i).
Proof.
  unfold items_at. destruct (items s !! i); [reflexivity|discriminate].
Qed.

Lemma listed_inv_step (s s' : State) : ledger_step s s' -> listed_inv s -> listed_inv s'.
Proof.
  intros Hstep Hinv.
  destruct Hstep as
    [sender ts it newId _ _ _ _ Hitems _ Hui _
    |buyer ts iid Hact _ _ Hitems _ Hui
    |renter iid st en cost f rid _ _ _ _ [_ Hui] Hitems _ _
    |iid f _ _ _ _ [_ Hui] Hitems
    |_ _ [_ Hui] Hitems];
    intros u i Hin; unfold userItems_at in Hin; rewrite Hui in Hin; rewrite Hitems.
  - apply lookup_insert_is_Some'.
    destruct (decide (sender = u)) as [->|Hne].
    + rewrite lookup_insert_eq in Hin. cbn in Hin. apply elem_of_app in Hin.
      destruct Hin as [Hin|Hin]; [right; exact (Hinv u i Hin)|].
      apply list_elem_of_singleton in Hin. left. congruence.
    + rewrite lookup_insert_ne in Hin by exact Hne. right. exact (Hinv u i Hin).
  - apply lookup_insert_is_Some'.
    destruct (decide (buyer = u)) as [->|Hne].
    + rewrite lookup_insert_eq in Hin. cbn in Hin. apply elem_of_app in Hin.
      destruct Hin as [Hin|Hin]; [right; exact (Hinv u i Hin)|].
      apply list_elem_of_singleton in Hin. left. congruence.
    + rewrite lookup_insert_ne in Hin by exact Hne. right. exact (Hinv u i Hin).
  - apply lookup_insert_is_Some'. right. exact (Hinv u i Hin).
  - apply lookup_insert_is_Some'. right. exact (Hinv u i Hin).
  - exact (Hinv u i Hin).
Qed.

Lemma reachable_listed (n : nat) (s : State) : reachable n s -> listed_inv s.
Proof.
  induction 1 as [d _|n s s' env c _ IH _ _ Hrun].
  - intros u i Hin. unfold userItems_at in Hin. cbn in Hin.
    rewrite lookup_empty in Hin. cbn in Hin. inversion Hin.
  - eapply listed_inv_step; [|exact IH]. eapply run_ledger_step. exact Hrun.
Qed.

Lemma Number_small (x : Z) : x < 2 ^ 53 -> Number x = x.
Proof. intros H. unfold Number. destruct (Z.ltb_spec x (2 ^ 53)); [reflexivity|lia]. Qed.





(** ** The dashboard *)

Lemma Promise_all_or_null {A} (f : Z -> Promise A) (ids : list Z) :
  Promise_all (map (fun id => or_null (f id)) ids) =
  Resolved (map (fun id => match f id with
                           | Resolved a => Some a
                           | Rejected _ => None
                           end) ids).
Proof.
  induction ids as [|i ids IH]; [reflexivity|].
  cbn [map Promise_all]. rewrite IH. unfold or_null.
  destruct (f i); reflexivity.
Qed.

Lemma loaded_all {A} (f : Z -> Promise A) (ids : list Z) :
  (forall i, i ∈ ids -> Number i = i /\ exists a, f i = Resolved a) ->
  exists l,
    non_null (map (fun id => match f id with
                             | Resolved a => Some a
                             | Rejected _ => None
                             end) (map Number ids)) = l /\
    Forall2 (fun i a => f i = Resolved a) ids l.
Proof.
  induction ids as [|i ids IH]; intros H.
  - exists []. split; [reflexivity|constructor].
  - destruct IH as (l & Hl & Hall); [intros j Hj; apply H; right; exact Hj|].
    destruct (H i) as (Hnum & a & Ha); [left|].
    exists (a :: l). split.
    + cbn [map]. rewrite Hnum, Ha. rewrite <- Hl. reflexivity.
    + constructor; assumption.
Qed.

Lemma Forall2_map_ids {A} (f : Z -> Promise A) (g : A -> Z) (ids : list Z) (l : list A) :
  Forall2 (fun i a => f i = Resolved a) ids l ->
  (forall i a, i ∈ ids -> f i = Resolved a -> g a = i) ->
  map g l = ids.
Proof.
  induction 1 as [|i a ids l Hi _ IH]; intros H; [reflexivity|].
  cbn [map]. rewrite (H i a) by (left || exact Hi). f_equal. apply IH.
  intros j b Hj. apply H. right. exact Hj.
Qed.

(** X22: the dashboard's [loadUserData] never takes its error path: for
    every node, reachable or not, the load resolves (with two empty lists
    when the node cannot be reached).  Against a marketplace reached by
    fewer than 2^53 transactions nothing is dropped either: the records it
    shows are, entry by entry, those of the user's item index and rental
    index on chain. *)
Theorem X22_dashboard_load
    (format_address : Z -> string) (contract : Contract) (address : Z) :
  (exists r, DashboardPage.loadUserData format_address contract address = Resolved r) /\
  (forall message,
     DashboardPage.loadUserData format_address (unreachable message) address =
       Resolved ([], [])) /\
  (forall n s now,
     reachable n s -> Z.of_nat n < 2 ^ 53 ->
     exists items rentals,
       DashboardPage.loadUserData format_address (live s now) address =
         Resolved (items, rentals) /\
       Forall2 (fun id it =>
                  ContractService.getItem format_address (live s now) id = Resolved it)
               (getUserItems s address) items /\
       Forall2 (fun id r =>
                  ContractService.getRental format_address (live s now) id = Resolved r)
               (getUserRentals s address) rentals /\
       map ContractService.itemId items = getUserItems s address /\
       map ContractService.r_rentalId rentals = getUserRentals s address).
Proof.
  split; [|split].
  - unfold DashboardPage.loadUserData.
    unfold ContractService.getUserItems, ContractService.getUserRentals.
    destruct (contract_getUserItems contract address),
             (contract_getUserRentals contract address);
      repeat (progress cbn [await try_catch] || rewrite Promise_all_or_null); eauto.
  - intros message. reflexivity.
  - intros n s now Hr Hn.
    assert (Hmax : 2 ^ 53 < MAX_UINT256) by (vm_compute; reflexivity).
    destruct (reachable_invariants n s Hr ltac:(lia))
      as ([Hids Hrids Hit Hre Hur] & _).
    pose proof (reachable_listed n s Hr) as Hlisted.
    unfold DashboardPage.loadUserData.
    unfold ContractService.getUserItems at 1, ContractService.getUserRentals at 1.
    repeat (progress cbn [live contract_getUserItems contract_getUserRentals
                          await try_catch]
            || rewrite Promise_all_or_null).
    unfold getUserItems, getUserRentals.
    destruct (loaded_all (ContractService.getItem format_address (live s now))
                (userItems_at s address)) as (items & Hitems & Hall).
    { intros i Hi. destruct (Hlisted address i Hi) as [it Hs].
      destruct (Hit i it Hs) as [Hrange _].
      split; [apply Number_small; lia|].
      unfold ContractService.getItem, live. cbn [contract_getItem].
      unfold getItem. destruct (Z.leb_spec i (_itemIds s)); [|lia].
      cbn [of_result await]. eauto. }
    destruct (loaded_all (ContractService.getRental format_address (live s now))
                (userRentals_at s address)) as (rentals & Hrentals & Hall').
    { intros r Hin. apply Hur in Hin. destruct Hin as (rt & Hs & _).
      destruct (Hre r rt Hs) as [Hrange _].
      split; [apply Number_small; lia|].
      unfold ContractService.getRental, live. cbn [contract_getRental].
      unfold getRental. destruct (Z.leb_spec r (_rentalIds s)); [|lia].
      cbn [of_result await]. eauto. }
    exists items, rentals. rewrite Hitems, Hrentals.
    split; [reflexivity|]. split; [exact Hall|]. split; [exact Hall'|]. split.
    + apply (Forall2_map_ids _ _ _ _ Hall). intros i it Hi Hget.
      destruct (Hlisted address i Hi) as [x Hs].
      destruct (Hit i x Hs) as [Hrange Hid].
      unfold ContractService.getItem, live in Hget. cbn [contract_getItem] in Hget.
      unfold getItem in Hget. destruct (Z.leb_spec i (_itemIds s)); [|lia].
      cbn [of_result await] in Hget. injection Hget as <-.
      cbn [ContractService.itemId ContractService.convert_item].
      unfold items_at. rewrite Hs. cbn [from_option id]. rewrite Hid.
      apply Number_small. lia.
    + apply (Forall2_map_ids _ _ _ _ Hall'). intros r rt Hin Hget.
      apply Hur in Hin. destruct Hin as (x & Hs & _).
      destruct (Hre r x Hs) as (Hrange & Hid & _).
      unfold ContractService.getRental, live in Hget. cbn [contract_getRental] in Hget.
      unfold getRental in Hget. destruct (Z.leb_spec r (_rentalIds s)); [|lia].
      cbn [of_result await] in Hget. injection Hget as <-.
      cbn [ContractService.r_rentalId].
      unfold rentals_at. rewrite Hs. cbn [from_option id]. rewrite Hid.
      apply Number_small. lia.
Qed.


Lemma X22_dashboard_load_witness :
  exists items rentals,
    DashboardPage.loadUserData pretty (live shop5_rented 5000) alice =
      Resolved (items, rentals) /\
    map ContractService.itemId items = [1; 2; 3; 4; 5].
Proof.
  destruct (X22_dashboard_load pretty (live shop5_rented 5000) alice) as (_ & _ & H).
  destruct (H 7%nat shop5_rented 5000) as (items & rentals & H1 & _ & _ & H2 & _).
  - exact shop5_rented_reachable.
  - vm_compute. reflexivity.
  - exists items, rentals. split; [exact H1|]. rewrite H2. vm_compute. reflexivity.
Defined.


(** ** The identifier reported after a creation *)

(** X23: how the client learns the identifier of the item it has just
    created (fewer than 2^53 - 2 items so far).  Read from the receipt's
    [ItemCreated] log it is the identifier the contract returned.  Read
    from [getTotalItems] instead, it is that identifier only if no other
    item was created in between: after one more creation the count is the
    other item's identifier.  The last resort, 1, is right only for the
    first item ever created. *)
Theorem X23_created_identifier_recovery
    (env : Env) (t d b : string) (p rp : Z) (s s' : State) (newId : Z) :
  createItem env t d b p rp s = Ok (newId, s') ->
  0 <= _itemIds s -> _itemIds s + 2 < 2 ^ 53 ->
  (forall totalItems, recovered_itemId (receipt_logs s s') totalItems = newId) /\
  (forall now, recovered_itemId [] (contract_getTotalItems (live s' now)) = newId) /\
  (forall env2 t2 d2 b2 p2 rp2 id2 s2 now,
     createItem env2 t2 d2 b2 p2 rp2 s' = Ok (id2, s2) ->
     recovered_itemId [] (contract_getTotalItems (live s2 now)) = id2 /\ id2 <> newId) /\
  (forall e, recovered_itemId [] (Rejected e) = newId <-> _itemIds s = 0).
Proof.
  intros Hc H0 Hsmall.
  assert (Hmax : 2 ^ 53 < MAX_UINT256) by (vm_compute; reflexivity).
  apply createItem_post in Hc. destruct Hc as (Hid & Hs').
  rewrite Counters_increment_small in Hid by lia.
  assert (Htot : _itemIds s' = newId) by (rewrite Hs'; reflexivity).
  split; [|split; [|split]].
  - intros totalItems. unfold receipt_logs.
    rewrite (new_effects_app s s' [Emit (ItemCreated newId t b (msg_sender env) p rp)])
      by (rewrite Hs'; reflexivity).
    cbn. apply Number_small. lia.
  - intros now. cbn. unfold getTotalItems. rewrite Htot. apply Number_small. lia.
  - intros env2 t2 d2 b2 p2 rp2 id2 s2 now Hc2.
    apply createItem_post in Hc2. destruct Hc2 as (Hid2 & Hs2).
    rewrite Htot, Counters_increment_small in Hid2 by lia.
    assert (Htot2 : _itemIds s2 = id2) by (rewrite Hs2; reflexivity).
    split; [|lia]. cbn. unfold getTotalItems. rewrite Htot2. apply Number_small. lia.
  - intros e. cbn. lia.
Qed.

Lemma X23_created_identifier_recovery_witness :
  recovered_itemId
    (receipt_logs shop5
       (transact (eoa bob 0 3000) (CreateItem "Paper C" "third" "cid-c" 5 1) shop5))
    (Rejected (TransportError "network down")) = 6.
Proof.
  destruct (X23_created_identifier_recovery (eoa bob 0 3000) "Paper C" "third" "cid-c" 5 1
              shop5 (transact (eoa bob 0 3000) (CreateItem "Paper C" "third" "cid-c" 5 1) shop5)
              6) as (H & _).
  - vm_compute. reflexivity.
  - vm_compute. discriminate.
  - vm_compute. reflexivity.
  - apply H.
Defined.

(** ** Files stored under a placeholder identifier *)

Lemma startsWith_mockCID (stamp suffix : string) :
  IPFS.startsWith (IPFS.mockCID stamp suffix) "mock-cid-" = true.
Proof. destruct stamp; reflexivity. Qed.

(** X24: [uploadToIPFS] never fails: without a configured Pinata client,
    or when the upload is refused, it answers a placeholder identifier
    beginning with "mock-cid-".  Such an identifier is accepted by the
    contract's [createItem] as a blob id, yet the file behind it can never
    be fetched: [downloadFromIPFS] throws "Cannot download mock CID" and the
    download route answers 404 without trying.  The route sends a file only
    when the gateway answered with an ok response, and then sends that
    response's body. *)
Theorem X24_placeholder_files_cannot_be_downloaded
    (pinata : option (list Byte.byte -> IPFS.Outcome string))
    (gateway : string) (fetch : string -> IPFS.Outcome IPFS.FetchResponse)
    (stamp suffix : string) (fileContents : list Byte.byte) :
  let cid := IPFS.mockCID stamp suffix in
  (exists c, IPFS.uploadToIPFS pinata stamp suffix fileContents = IPFS.Returned c) /\
  ((pinata = None \/
    exists upload_file message,
      pinata = Some upload_file /\ upload_file fileContents = IPFS.Thrown message) ->
   IPFS.uploadToIPFS pinata stamp suffix fileContents = IPFS.Returned cid) /\
  IPFS.downloadFromIPFS pinata gateway fetch cid = IPFS.Thrown "Cannot download mock CID" /\
  IPFS.GET pinata gateway fetch cid =
    IPFS.Json 404 "Mock CID - file not available for download" /\
  (forall env title description p rp s,
     msg_value env = 0 -> title <> EmptyString -> 0 < p \/ 0 < rp ->
     exists newId s', createItem env title description cid p rp s = Ok (newId, s')) /\
  (forall blobId contents filename,
     IPFS.GET pinata gateway fetch blobId = IPFS.Attachment contents filename ->
     IPFS.startsWith blobId "mock-cid-" = false /\
     exists response,
       fetch (String.append gateway (String.append "/ipfs/" blobId)) =
         IPFS.Returned response /\
       IPFS.response_ok response = true /\ IPFS.response_body response = contents).
Proof.
  cbv zeta. split; [|split; [|split; [|split; [|split]]]].
  - unfold IPFS.uploadToIPFS. destruct pinata as [up|]; [|eauto].
    destruct (up fileContents); eauto.
  - intros [->|(up & m & -> & Hup)]; unfold IPFS.uploadToIPFS; [reflexivity|].
    rewrite Hup. reflexivity.
  - unfold IPFS.downloadFromIPFS. rewrite startsWith_mockCID. reflexivity.
  - unfold IPFS.GET. rewrite startsWith_mockCID. reflexivity.
  - intros env title description p rp s Hv Ht Hp.
    apply Z.eqb_eq in Hv. apply nonempty_test in Ht.
    assert (Hb : (0 <? Z.of_nat (String.length (IPFS.mockCID stamp suffix))) = true).
    { apply nonempty_test. discriminate. }
    assert (Hor : (0 <? p) || (0 <? rp) = true).
    { apply orb_true_iff. destruct Hp; [left|right]; apply Z.ltb_lt; assumption. }
    unfold createItem, nonpayable, emit. mforward. eexists. eexists. reflexivity.
  - intros blobId contents filename. unfold IPFS.GET, IPFS.downloadFromIPFS.
    destruct blobId as [|a blobId]; [discriminate|].
    destruct (IPFS.startsWith (String a blobId) "mock-cid-"); [discriminate|].
    destruct pinata as [up|]; [|discriminate].
    destruct (fetch _) as [response|m] eqn:Hf; [|discriminate].
    destruct (IPFS.response_ok response) eqn:Hok; [|discriminate].
    intros H. injection H as <- _. split; [reflexivity|]. exists response. auto.
Qed.


Lemma X24_placeholder_files_cannot_be_downloaded_witness :
  IPFS.uploadToIPFS None "1700000000000" "k3j9x0a1b" [] =
    IPFS.Returned "mock-cid-1700000000000-k3j9x0a1b" /\
  IPFS.GET None "https://gateway.pinata.cloud"
    (fun _ => IPFS.Thrown "offline") "mock-cid-1700000000000-k3j9x0a1b" =
    IPFS.Json 404 "Mock CID - file not available for download".
Proof.
  destruct (X24_placeholder_files_cannot_be_downloaded None "https://gateway.pinata.cloud"
              (fun _ => IPFS.Thrown "offline") "1700000000000" "k3j9x0a1b" [])
    as (_ & H1 & _ & H2 & _).
  split; [apply H1; left; reflexivity|exact H2].
Defined.


(** ** The contract as a pass-through *)

Lemma operated_inv (s : State) :
  operated s ->
  balance s = 0 /\ forall i it, items s !! i = Some it -> item_owner it <> 0.
Proof.
  induction 1 as [d _|s s' env c _ [IHb IHo] Hsender Hrun].
  - split; [reflexivity|]. intros i it H. cbn in H. rewrite lookup_empty in H. discriminate.
  - assert (Hstored : forall iid, item_isActive (items_at s iid) = true ->
                                  item_owner (items_at s iid) <> 0).
    { intros iid Hact. apply (IHo iid). apply active_lookup. exact Hact. }
    assert (Hins : forall iid x, item_owner x <> 0 ->
                     forall i it, <[iid := x]> (items s) !! i = Some it ->
                                  item_owner it <> 0).
    { intros iid x Hx i it Hl. apply lookup_insert_Some in Hl.
      destruct Hl as [[_ <-]|[_ Hl]]; [exact Hx|exact (IHo i it Hl)]. }
    destruct c; apply run_inv in Hrun.
    + destruct Hrun as (newId & Hc). apply createItem_post in Hc.
      destruct Hc as (_ & ->). cbn [balance items]. split; [exact IHb|].
      apply Hins. exact Hsender.
    + pose proof (purchaseItem_effect _ _ _ _ _ Hrun) as ((_ & Hact & _) & _).
      apply purchaseItem_post in Hrun. cbv zeta in Hrun. subst s'.
      cbn [balance items]. split.
      * destruct (Z.eqb_spec (item_owner (items_at s _itemId)) 0) as [E|_];
          [exfalso; exact (Hstored _ Hact E)|exact IHb].
      * apply Hins. exact Hsender.
    + pose proof (rentItem_effect _ _ _ _ _ _ _ Hrun) as ((_ & Hact & _) & _).
      apply rentItem_post in Hrun. cbv zeta in Hrun. subst s'.
      cbn [balance items]. split; [exact IHb|].
      apply Hins. exact (Hstored _ Hact).
    + pose proof (updateItemPrices_effect _ _ _ _ _ _ _ Hrun) as ((_ & _ & _ & Hact & _) & _).
      apply updateItemPrices_post in Hrun. subst s'.
      cbn [balance items set_journal set_items]. split; [exact IHb|].
      apply Hins. exact (Hstored _ Hact).
    + pose proof (deactivateItem_effect _ _ _ _ _ Hrun) as ((_ & _ & _ & Hact) & _).
      apply deactivateItem_post in Hrun. subst s'.
      cbn [balance items set_journal set_items]. split; [exact IHb|].
      apply Hins. exact (Hstored _ Hact).
    + apply emergencyWithdraw_post in Hrun. lia.
    + unfold transferOwnership in Hrun. minv Hrun. split; [exact IHb|exact IHo].
    + unfold renounceOwnership in Hrun. minv Hrun. split; [exact IHb|exact IHo].
Qed.

(** X25: the contract never keeps ether.  As long as it is deployed and
    called from accounts (never with the zero address as sender) and
    receives ether only through [purchaseItem] and [rentItem], its balance
    is 0 after every transaction and no active item belongs to the zero
    address; so [emergencyWithdraw] fails for every caller, the contract's
    owner included. *)
Theorem X25_contract_keeps_no_ether (s : State) (env : Env) :
  operated s ->
  balance s = 0 /\
  (forall i, item_isActive (items_at s i) = true -> item_owner (items_at s i) <> 0) /\
  exists e, emergencyWithdraw env s = Err e.
Proof.
  intros Hop. destruct (operated_inv s Hop) as [Hb Ho].
  split; [exact Hb|]. split.
  - intros i Hact. apply (Ho i). apply active_lookup. exact Hact.
  - destruct (emergencyWithdraw env s) as [[u s']|e] eqn:E; [|eauto].
    apply emergencyWithdraw_post in E. lia.
Qed.

Lemma X25_contract_keeps_no_ether_witness :
  balance shop1_sold = 0 /\
  exists e, emergencyWithdraw (eoa deployer 0 4000) shop1_sold = Err e.
Proof.
  destruct (X25_contract_keeps_no_ether shop1_sold (eoa deployer 0 4000)) as (H1 & _ & H2).
  - eapply operated_call with (env := eoa bob 100 2000) (c := PurchaseItem 1).
    + eapply operated_call with (env := eoa alice 0 1000)
                                (c := CreateItem "Paper A" "first paper" "cid-a" 100 10).
      * apply (operated_deployed deployer). discriminate.
      * discriminate.
      * reflexivity.
    + discriminate.
    + vm_compute. reflexivity.
  - split; [exact H1|exact H2].
Defined.
